(** * ace_camp: the order / checkout computation engine

    A shallow embedding of the checkout core of [server/routes.ts] and
    [server/storage.ts]: tiered (slab) pricing, points accounting, campaign
    purchase limits, the three checkout paths and the generated identifiers.

    Conventions of the embedding.
    - A JavaScript [number] is an exact rational or one of the three special
      values; finite arithmetic is exact (no rounding, no overflow) and there
      is a single zero.  Comparisons, which is all the slab code does with
      numbers, are exact on doubles as well.
    - Integer columns of the database ([stock], [quantity], [points], ...)
      are [Z]; a nullable column is an [option].
    - The persistence layer is a record of tables; a handler is a function
      from the store (and its request) to a response and the next store.
    - What the JavaScript runtime does with text (parsing a number out of a
      string, printing one, trimming) is an interface, [JSRuntime]; the
      theorems hold for every implementation of it. *)

From Stdlib Require Import QArith Qround Qabs Lqa ZArith Lia List String Ascii Bool.
From Stdlib Require Import Sorted Permutation.
From stdpp Require Import base gmap strings list pretty.

Open Scope string_scope.
Open Scope Z_scope.

(** ** JavaScript numbers *)

Inductive number :=
| Fin (q : Q)
| PosInf
| NegInf
| NaN.

Definition num_of_Z (z : Z) : number := Fin (inject_Z z).

(** [Number.isFinite] *)
Definition isFinite (n : number) : bool :=
  match n with Fin _ => true | _ => false end.

(** [a <= b] *)
Definition num_le (a b : number) : bool :=
  match a, b with
  | NaN, _ | _, NaN => false
  | NegInf, _ => true
  | _, PosInf => true
  | Fin p, Fin q => Qle_bool p q
  | _, _ => false
  end.

(** [a < b] *)
Definition num_lt (a b : number) : bool :=
  match a, b with
  | NaN, _ | _, NaN => false
  | Fin p, Fin q => negb (Qle_bool q p)
  | NegInf, NegInf => false
  | PosInf, _ => false
  | NegInf, _ => true
  | Fin _, PosInf => true
  | Fin _, NegInf => false
  end.

(** [a >= b] and [a > b] *)
Definition num_ge (a b : number) : bool := num_le b a.
Definition num_gt (a b : number) : bool := num_lt b a.

(** [a === b] on numbers *)
Definition num_eqb (a b : number) : bool :=
  match a, b with
  | Fin p, Fin q => Qeq_bool p q
  | PosInf, PosInf => true
  | NegInf, NegInf => true
  | _, _ => false
  end.

(** Truthiness of a number, as [||] and [if] see it. *)
Definition truthy (n : number) : bool :=
  match n with
  | Fin q => negb (Qeq_bool q 0)
  | PosInf | NegInf => true
  | NaN => false
  end.

Definition num_neg (a : number) : number :=
  match a with
  | Fin q => Fin (- q)
  | PosInf => NegInf
  | NegInf => PosInf
  | NaN => NaN
  end.

(** [a + b] *)
Definition num_add (a b : number) : number :=
  match a, b with
  | NaN, _ | _, NaN => NaN
  | Fin p, Fin q => Fin (p + q)
  | PosInf, NegInf | NegInf, PosInf => NaN
  | PosInf, _ | _, PosInf => PosInf
  | NegInf, _ | _, NegInf => NegInf
  end.

(** [a - b] *)
Definition num_sub (a b : number) : number := num_add a (num_neg b).

(** Sign of a rational: [1], [0] or [-1]. *)
Definition Qsgn (q : Q) : Z := Z.sgn (Qnum q).

Definition signedInf (s : Z) : number :=
  if s =? 0 then NaN else if 0 <? s then PosInf else NegInf.

Definition num_sgn (a : number) : Z :=
  match a with
  | Fin q => Qsgn q
  | PosInf => 1
  | NegInf => -1
  | NaN => 0
  end.

(** [a * b]; zero times an infinity is [NaN]. *)
Definition num_mul (a b : number) : number :=
  match a, b with
  | NaN, _ | _, NaN => NaN
  | Fin p, Fin q => Fin (p * q)
  | _, _ => signedInf (num_sgn a * num_sgn b)
  end.

(** [a / b]; the single zero of the model divides as [+0] does. *)
Definition num_div (a b : number) : number :=
  match a, b with
  | NaN, _ | _, NaN => NaN
  | Fin p, Fin q =>
      if Qeq_bool q 0 then signedInf (Qsgn p) else Fin (p / q)
  | Fin _, _ => Fin 0
  | _, Fin q => if Qeq_bool q 0 then a else signedInf (num_sgn a * Qsgn q)
  | _, _ => NaN
  end.

(** [Math.ceil] *)
Definition Math_ceil (a : number) : number :=
  match a with
  | Fin q => num_of_Z (Qceiling q)
  | _ => a
  end.

(** ** JavaScript values and the runtime's text conversions *)

(** The primitive values a JSON field can hold; a missing field reads as
    [JUndefined]. *)
Inductive jsval :=
| JUndefined
| JNull
| JBool (b : bool)
| JNum (n : number)
| JStr (s : string).

Class JSRuntime := {
  (** [Number(s)] for a string [s] *)
  StringToNumber : string -> number;
  (** [String(n)] for a number [n] *)
  NumberToString : number -> string;
  (** [s.trim()] *)
  trim : string -> string;
  (** [parseFloat(s)] *)
  parseFloat : string -> number;
  (** [n.toFixed(2)] *)
  toFixed2 : number -> string
}.

(** [Number(v)] *)
Definition Number `{JSRuntime} (v : jsval) : number :=
  match v with
  | JUndefined => NaN
  | JNull => Fin 0
  | JBool true => Fin 1
  | JBool false => Fin 0
  | JNum n => n
  | JStr s => StringToNumber s
  end.

(** [String(v)] *)
Definition String_ `{JSRuntime} (v : jsval) : string :=
  match v with
  | JUndefined => "undefined"
  | JNull => "null"
  | JBool true => "true"
  | JBool false => "false"
  | JNum n => NumberToString n
  | JStr s => s
  end.

(** [v ?? d] *)
Definition nullish (v d : jsval) : jsval :=
  match v with
  | JUndefined | JNull => d
  | _ => v
  end.

(** Exceptions: [throw new Error(message)]. *)
Inductive Result (A : Type) :=
| Return (a : A)
| Throw (message : string).
Arguments Return {A} a.
Arguments Throw {A} message.

(** ** Price slabs ([routes.ts], lines 55-137) *)

Record PriceSlabRange := mkSlab {
  minQty : number;
  maxQty : option number;
  price : string
}.

(** An element of the untrusted input array.  An element that is not an
    object reads as one whose three fields are [JUndefined] ([s?.minQty]). *)
Record RawSlab := mkRaw {
  raw_minQty : jsval;
  raw_maxQty : jsval;
  raw_price : jsval
}.

Definition string_eqb (a b : string) : bool := bool_decide (a = b).

(** The [.map] callback of [normalizePriceSlabs]. *)
Definition coerceSlab `{JSRuntime} (s : RawSlab) : PriceSlabRange :=
  let minQty := Number (raw_minQty s) in
  let rawMax := raw_maxQty s in
  let maxQty :=
    match rawMax with
    | JStr "" | JUndefined | JNull => None
    | _ => Some (Number rawMax)
    end in
  let price := trim (String_ (nullish (raw_price s) (JStr ""))) in
  mkSlab minQty maxQty price.

(** The [.filter] callback. *)
Definition retained (s : PriceSlabRange) : bool :=
  isFinite (minQty s) && num_gt (minQty s) (Fin 0)
  && negb (string_eqb (price s) "").

Definition cleanSlabs `{JSRuntime} (input : list RawSlab) : list PriceSlabRange :=
  filter (fun s => retained s = true) (map coerceSlab input).

Definition priceError : string := "Slab price must be a number >= 0".
Definition rangeError : string :=
  "Max Qty must be empty (open-ended) or >= Min Qty".
Definition openEndedError : string :=
  "Only one open-ended slab (blank Max Qty) is allowed".
Definition overlapError : string :=
  "Slab ranges overlap. Please make ranges non-overlapping.".

(** Body of the first [for (const s of cleaned)] loop: [None] when the
    slab passes, otherwise the message thrown. *)
Definition checkSlab `{JSRuntime} (s : PriceSlabRange) : option string :=
  let p := StringToNumber (price s) in
  if negb (isFinite p) || num_lt p (Fin 0) then Some priceError
  else
    match maxQty s with
    | Some m =>
        if negb (isFinite m) || num_lt m (minQty s) then Some rangeError
        else None
    | None => None
    end.

Fixpoint checkSlabs `{JSRuntime} (l : list PriceSlabRange) : option string :=
  match l with
  | [] => None
  | s :: rest =>
      match checkSlab s with
      | Some e => Some e
      | None => checkSlabs rest
      end
  end.

Definition isOpenEnded (s : PriceSlabRange) : bool :=
  match maxQty s with None => true | Some _ => false end.

Definition openEndedCount (l : list PriceSlabRange) : nat :=
  length (filter (fun s => isOpenEnded s = true) l).

(** [v === null ? Number.POSITIVE_INFINITY : v], also [v ?? Infinity]. *)
Definition toMax (v : option number) : number :=
  match v with None => PosInf | Some m => m end.

(** The comparator handed to [cleaned.sort]. *)
Definition compareSlabs (a b : PriceSlabRange) : number :=
  let d := num_sub (minQty a) (minQty b) in
  if truthy d then d else num_sub (toMax (maxQty a)) (toMax (maxQty b)).

(** [Array.prototype.sort] with a comparator: a stable sort, here by
    insertion.  [x] precedes the elements it is inserted into. *)
Fixpoint sortInsert {A} (cmp : A -> A -> number) (x : A) (l : list A) : list A :=
  match l with
  | [] => [x]
  | y :: l' =>
      if num_gt (cmp x y) (Fin 0) then y :: sortInsert cmp x l'
      else x :: y :: l'
  end.

Definition Array_sort {A} (cmp : A -> A -> number) (l : list A) : list A :=
  foldr (sortInsert cmp) [] l.

(** [a.minQty <= bMax && b.minQty <= aMax] *)
Definition overlap (a b : PriceSlabRange) : bool :=
  num_le (minQty a) (toMax (maxQty b)) && num_le (minQty b) (toMax (maxQty a)).

(** The nested [i < j] loops: does some pair overlap? *)
Fixpoint anyOverlap (l : list PriceSlabRange) : bool :=
  match l with
  | [] => false
  | a :: rest => existsb (overlap a) rest || anyOverlap rest
  end.

(** [normalizePriceSlabs]; [None] is an input that is not an array. *)
Definition normalizePriceSlabs `{JSRuntime} (input : option (list RawSlab))
  : Result (list PriceSlabRange) :=
  match input with
  | None => Return []
  | Some arr =>
      let cleaned := cleanSlabs arr in
      match checkSlabs cleaned with
      | Some e => Throw e
      | None =>
          if (1 <? openEndedCount cleaned)%nat then Throw openEndedError
          else
            let cleaned := Array_sort compareSlabs cleaned in
            if anyOverlap cleaned then Throw overlapError
            else Return cleaned
      end
  end.

(** ** The tables ([shared/schema.ts]) *)

(** An instant, as far as the code observes it. *)
Record Date := mkDate {
  getFullYear : Z;
  getTime : Z
}.

Record Product := mkProduct {
  p_name : string;
  p_price : string;
  p_stock : option Z;
  p_sku : string;
  p_isActive : option bool;
  p_priceSlabs : option (list PriceSlabRange);
  p_bulkBuy : option bool;
  p_colors : option (list string);
  p_sizes : option (string * list string)
}.

Record Employee := mkEmployee {
  e_email : string;
  e_phoneNumber : option string;
  e_points : Z;
  e_bulkBuyAllowed : option bool;
  e_role : string
}.

Record OrderMetadata := mkMetadata {
  usedPoints : number;
  unitPrice : number;
  copayInr : option number;
  paymentId : option string;
  phonepeOrderId : option string;
  deliveryMethod : string;
  deliveryAddress : option string
}.

Record Order := mkOrder {
  o_orderId : string;
  o_employeeId : string;
  o_productId : string;
  o_selectedColor : option string;
  o_selectedSize : option string;
  o_quantity : Z;
  o_status : option string;
  o_orderDate : option Date;
  o_metadata : option OrderMetadata;
  o_campaignId : option string
}.

Record CartItem := mkCartItem {
  c_id : string;
  c_employeeId : string;
  c_productId : string;
  c_selectedColor : option string;
  c_selectedSize : option string;
  c_quantity : Z;
  c_campaignId : option string
}.

Record Session := mkSession {
  s_employeeId : string
}.

Record Branding := mkBranding {
  b_inrPerPoint : option string;
  b_maxSelectionsPerUser : option Z
}.

Record Campaign := mkCampaign {
  cmp_name : string;
  cmp_isActive : option bool;
  cmp_maxProductsPerUser : option Z
}.

Record CampaignProduct := mkCampaignProduct {
  cp_campaignId : string;
  cp_productId : string
}.

Record BulkBuyAccess := mkAccess {
  a_isActive : option bool;
  a_isProcurement : option bool
}.

Record BulkBuyCartItem := mkBulkCartItem {
  bc_id : string;
  bc_employeeId : string;
  bc_productId : string;
  bc_selectedColor : option string;
  bc_selectedSize : option string;
  bc_quantity : Z
}.

(** A line of the snapshot kept in a bulk-buy request. *)
Record BulkItem := mkBulkItem {
  bi_productId : string;
  bi_name : string;
  bi_sku : string;
  bi_selectedColor : option string;
  bi_selectedSize : option string;
  bi_quantity : Z;
  bi_unitPrice : number;
  bi_lineTotal : number
}.

Record BulkBuyRequest := mkBulkRequest {
  br_requestId : string;
  br_employeeId : string;
  br_status : string;
  br_deliveryMethod : string;
  br_deliveryAddress : option string;
  br_requesterNote : option string;
  br_items : list BulkItem;
  br_totalAmount : string;
  br_createdAt : Date
}.

(** The database.  A table read by its primary key (or, for sessions and
    the bulk-buy allowlist, by its unique token or email) is a map from that
    key to the rest of the row: [employee.id] is the key the row was read
    under.  Tables the code scans, counts or appends to are lists in
    insertion order. *)
Record Store := mkStore {
  products : gmap string Product;
  employees : gmap string Employee;
  orders : list Order;
  cartItems : list CartItem;
  sessions : gmap string Session;
  branding : option Branding;
  campaigns : gmap string Campaign;
  campaignProducts : list CampaignProduct;
  bulkBuyAccess : gmap string BulkBuyAccess;
  bulkBuyCartItems : list BulkBuyCartItem;
  bulkBuyRequests : list BulkBuyRequest
}.

(** Field updates of the store. *)
Definition set_products (f : gmap string Product -> gmap string Product)
  (st : Store) : Store :=
  mkStore (f (products st)) (employees st) (orders st) (cartItems st)
    (sessions st) (branding st) (campaigns st) (campaignProducts st)
    (bulkBuyAccess st) (bulkBuyCartItems st) (bulkBuyRequests st).

Definition set_employees (f : gmap string Employee -> gmap string Employee)
  (st : Store) : Store :=
  mkStore (products st) (f (employees st)) (orders st) (cartItems st)
    (sessions st) (branding st) (campaigns st) (campaignProducts st)
    (bulkBuyAccess st) (bulkBuyCartItems st) (bulkBuyRequests st).

Definition set_orders (f : list Order -> list Order) (st : Store) : Store :=
  mkStore (products st) (employees st) (f (orders st)) (cartItems st)
    (sessions st) (branding st) (campaigns st) (campaignProducts st)
    (bulkBuyAccess st) (bulkBuyCartItems st) (bulkBuyRequests st).

Definition set_cartItems (f : list CartItem -> list CartItem) (st : Store)
  : Store :=
  mkStore (products st) (employees st) (orders st) (f (cartItems st))
    (sessions st) (branding st) (campaigns st) (campaignProducts st)
    (bulkBuyAccess st) (bulkBuyCartItems st) (bulkBuyRequests st).

Definition set_bulkBuyCartItems
  (f : list BulkBuyCartItem -> list BulkBuyCartItem) (st : Store) : Store :=
  mkStore (products st) (employees st) (orders st) (cartItems st)
    (sessions st) (branding st) (campaigns st) (campaignProducts st)
    (bulkBuyAccess st) (f (bulkBuyCartItems st)) (bulkBuyRequests st).

Definition set_bulkBuyRequests
  (f : list BulkBuyRequest -> list BulkBuyRequest) (st : Store) : Store :=
  mkStore (products st) (employees st) (orders st) (cartItems st)
    (sessions st) (branding st) (campaigns st) (campaignProducts st)
    (bulkBuyAccess st) (bulkBuyCartItems st) (f (bulkBuyRequests st)).

(** ** Unit price resolution ([getUnitPriceForQty]) *)

(** The predicate given to [slabs.find]. *)
Definition slabMatches (qty : number) (s : PriceSlabRange) : bool :=
  let min := minQty s in
  let max := toMax (maxQty s) in
  isFinite min && num_ge qty min && num_le qty max.

Definition getUnitPriceForQty `{JSRuntime} (product : Product) (qty : number)
  : number :=
  let base := StringToNumber (p_price product) in
  let slabs := match p_priceSlabs product with Some l => l | None => [] end in
  match slabs with
  | [] => base
  | _ =>
      match List.find (slabMatches qty) slabs with
      | None => base
      | Some m =>
          let slabPrice := StringToNumber (price m) in
          if negb (isFinite slabPrice) || num_lt slabPrice (Fin 0) then base
          else slabPrice
      end
  end.

(** ** The persistence layer ([storage.ts])

    Constraints across rows (unique identifiers, foreign keys) and the range
    of the integer columns are the database's and are not modelled. *)

Definition getProduct (st : Store) (id : string) : option Product :=
  products st !! id.

Definition withStock (v : Z) (p : Product) : Product :=
  mkProduct (p_name p) (p_price p) (Some v) (p_sku p) (p_isActive p)
    (p_priceSlabs p) (p_bulkBuy p) (p_colors p) (p_sizes p).

(** [updateProduct(id, { stock })] *)
Definition updateProduct (id : string) (stock : Z) (st : Store) : Store :=
  set_products (alter (withStock stock) id) st.


Definition getEmployee (st : Store) (id : string) : option Employee :=
  employees st !! id.

Definition withPoints (v : Z) (e : Employee) : Employee :=
  mkEmployee (e_email e) (e_phoneNumber e) v (e_bulkBuyAllowed e)
    (e_role e).

(** What an integer column accepts of a JavaScript number. *)
Definition toInteger (v : number) : option Z :=
  match v with
  | Fin q => if Qeq_bool q (inject_Z (Qfloor q)) then Some (Qfloor q) else None
  | _ => None
  end.

(** [updateEmployee(id, { points })]: the column is an integer, the driver
    rejects any other number. *)
Definition updateEmployee (id : string) (points : number) (st : Store)
  : Result Store :=
  match toInteger points with
  | Some z => Return (set_employees (alter (withPoints z) id) st)
  | None => Throw "invalid input syntax for type integer"
  end.

Definition getSession (st : Store) (token : string) : option Session :=
  sessions st !! token.

Definition getBranding (st : Store) : option Branding := branding st.

Definition getCampaign (st : Store) (id : string) : option Campaign :=
  campaigns st !! id.

Definition getCartItem (st : Store) (id : string) : option CartItem :=
  List.find (fun c => string_eqb (c_id c) id) (cartItems st).

Definition getCartItems (st : Store) (employeeId : string) : list CartItem :=
  filter (fun c => c_employeeId c = employeeId) (cartItems st).

Definition clearCart (employeeId : string) (st : Store) : Store :=
  set_cartItems (filter (fun c => c_employeeId c <> employeeId)) st.

Definition createCartItem (item : CartItem) (st : Store) : Store :=
  set_cartItems (fun l => (l ++ [item])%list) st.

Definition withQuantity (q : Z) (c : CartItem) : CartItem :=
  mkCartItem (c_id c) (c_employeeId c) (c_productId c) (c_selectedColor c)
    (c_selectedSize c) q (c_campaignId c).

(** [updateCartItem(id, { quantity })] *)
Definition updateCartItem (id : string) (quantity : Z) (st : Store) : Store :=
  set_cartItems
    (map (fun c => if string_eqb (c_id c) id then withQuantity quantity c else c))
    st.

(** The source orders the rows by date; its callers only count and sum. *)
Definition getOrdersByEmployeeId (st : Store) (employeeId : string)
  : list Order :=
  filter (fun o => o_employeeId o = employeeId) (orders st).

(** [getProductCampaigns]: the campaigns a product is linked to (inner
    join), each with its id. *)
Definition getProductCampaigns (st : Store) (productId : string)
  : list (string * Campaign) :=
  omap (fun cp => pair (cp_campaignId cp) <$> campaigns st !! cp_campaignId cp)
    (filter (fun cp => cp_productId cp = productId) (campaignProducts st)).

(** [getCampaignProducts]: the products linked to a campaign (inner join),
    each with its id. *)
Definition getCampaignProducts (st : Store) (campaignId : string)
  : list (string * Product) :=
  omap (fun cp => pair (cp_productId cp) <$> products st !! cp_productId cp)
    (filter (fun cp => cp_campaignId cp = campaignId) (campaignProducts st)).

(** [s.padStart(n, "0")] *)
Definition padStart0 (n : nat) (s : string) : string :=
  String.concat "" (repeat "0" (n - String.length s)) ++ s.

Record InsertOrder := mkInsertOrder {
  io_employeeId : string;
  io_productId : string;
  io_selectedColor : option string;
  io_selectedSize : option string;
  io_quantity : Z;
  io_campaignId : option string;
  io_metadata : option OrderMetadata
}.

Definition orderInYear (year : Z) (o : Order) : bool :=
  match o_orderDate o with
  | Some d => getFullYear d =? year
  | None => false
  end.

(** [createOrder] *)
Definition createOrder (now : Date) (orderData : InsertOrder) (st : Store)
  : Order * Store :=
  let year := getFullYear now in
  let c := length (List.filter (orderInYear year) (orders st)) in
  let next := Z.of_nat c + 1 in
  let orderId := "ORD-" ++ pretty year ++ "-" ++ padStart0 3 (pretty next) in
  let row :=
    mkOrder orderId (io_employeeId orderData) (io_productId orderData)
      (io_selectedColor orderData) (io_selectedSize orderData)
      (io_quantity orderData) (Some "confirmed") (Some now)
      (io_metadata orderData) (io_campaignId orderData) in
  (row, set_orders (fun l => (l ++ [row])%list) st).

(** ** Responses *)

Inductive Body :=
| Message (message : string)
| OrdersBody (orders : list (Order * Product)) (employee : option Employee)
| MismatchBody (message : string) (expected paid : number)
| CartItemBody (item : option CartItem)
| PaymentBody (paymentUrl merchantTransactionId : string)
| RequestBody (request : BulkBuyRequest) (message : string).

Record Response := mkResponse {
  status : Z;
  body : Body
}.

(** [res.status(code).json({ message })]; the [details] some handlers add
    to the message of a caught exception are left out. *)
Definition fail (code : Z) (message : string) : Response :=
  mkResponse code (Message message).

(** [res.json(body)] *)
Definition json (b : Body) : Response := mkResponse 200 b.

(** ** Checkout ([POST /api/orders]) *)

(** What the checkout handlers read of a request: the authorization header
    with its [Bearer] prefix removed, and the body. *)
Record CheckoutRequest := mkCheckoutRequest {
  rq_token : option string;
  rq_deliveryMethod : option string;
  rq_deliveryAddress : option string
}.

(** A string in a condition: absent and empty are both false. *)
Definition nonEmpty (s : option string) : option string :=
  match s with
  | Some "" | None => None
  | Some t => Some t
  end.

(** [p.stock || 0] *)
Definition stockOr0 (p : Product) : Z :=
  match p_stock p with Some s => s | None => 0 end.

(** [branding?.maxSelectionsPerUser ?? 1] *)
Definition maxSelectionsOf (b : option Branding) : Z :=
  match b with
  | Some b => match b_maxSelectionsPerUser b with Some m => m | None => 1 end
  | None => 1
  end.

(** [parseFloat(branding?.inrPerPoint ?? "1")] *)
Definition inrPerPointOf `{JSRuntime} (b : option Branding) : number :=
  parseFloat
    match b with
    | Some b => match b_inrPerPoint b with Some s => s | None => "1" end
    | None => "1"
    end.

(** [maxSelections !== -1 && employeeOrders.length + cartItems.length > maxSelections] *)
Definition selectionLimitReached (maxSelections : Z) (employeeOrders : list Order)
  (cartItems : list CartItem) : bool :=
  negb (maxSelections =? -1)
  && (maxSelections <? Z.of_nat (length employeeOrders + length cartItems)).

(** [`Product ${p?.name || item.productId} unavailable`] *)
Definition unavailable (p : option Product) (productId : string) : Response :=
  let name :=
    match p with
    | Some p => if string_eqb (p_name p) "" then productId else p_name p
    | None => productId
    end in
  fail 400 ("Product " ++ name ++ " unavailable").

(** The slab-aware points loop: the stock check of each cart item and the
    running [totalPointsRequired]. *)
Fixpoint requiredPoints `{JSRuntime} (st : Store) (inrPerPoint : number)
  (items : list CartItem) (totalPointsRequired : number) : Response + number :=
  match items with
  | [] => inr totalPointsRequired
  | item :: rest =>
      let p := getProduct st (c_productId item) in
      match p with
      | None => inl (unavailable p (c_productId item))
      | Some product =>
          if stockOr0 product <? c_quantity item
          then inl (unavailable p (c_productId item))
          else
            let unitPrice :=
              getUnitPriceForQty product (num_of_Z (c_quantity item)) in
            requiredPoints st inrPerPoint rest
              (num_add totalPointsRequired
                 (num_mul (Math_ceil (num_div unitPrice inrPerPoint))
                    (num_of_Z (c_quantity item))))
      end
  end.

(** The commit loop shared by the points and the co-pay checkout; the two
    differ in the metadata they stamp, [stamp usedPoints unitPrice]. *)
Fixpoint commitOrders `{JSRuntime} (now : Date) (employeeId : string)
  (inrPerPoint : number) (stamp : number -> number -> OrderMetadata)
  (items : list CartItem) (st : Store) (orders : list (Order * Product))
  : list (Order * Product) * Store :=
  match items with
  | [] => (orders, st)
  | item :: rest =>
      match getProduct st (c_productId item) with
      | None => commitOrders now employeeId inrPerPoint stamp rest st orders
      | Some p =>
          let st1 :=
            updateProduct (c_productId item) (stockOr0 p - c_quantity item) st in
          let unitPrice := getUnitPriceForQty p (num_of_Z (c_quantity item)) in
          let usedPoints :=
            num_mul (Math_ceil (num_div unitPrice inrPerPoint))
              (num_of_Z (c_quantity item)) in
          let '(order, st2) :=
            createOrder now
              (mkInsertOrder employeeId (c_productId item)
                 (c_selectedColor item) (c_selectedSize item) (c_quantity item)
                 (nonEmpty (c_campaignId item))
                 (Some (stamp usedPoints unitPrice)))
              st1 in
          commitOrders now employeeId inrPerPoint stamp rest st2
            (orders ++ [(order, p)])%list
      end
  end.

Definition deliveryMethodOf (req : CheckoutRequest) : string :=
  match rq_deliveryMethod req with Some m => m | None => "office" end.

(** Metadata of an order paid with points. *)
Definition pointsStamp (req : CheckoutRequest) (usedPoints unitPrice : number)
  : OrderMetadata :=
  mkMetadata usedPoints unitPrice None None None (deliveryMethodOf req)
    (rq_deliveryAddress req).

(** The handler of [POST /api/orders].  Every storage call is awaited, so
    other requests can be served in between; [others] is what those served
    between the validation and the commit do to the store. *)
Definition post_orders_among `{JSRuntime} (others : Store -> Store)
  (now : Date) (req : CheckoutRequest) (st : Store) : Response * Store :=
  match nonEmpty (rq_token req) with
  | None => (fail 401 "No token provided", st)
  | Some token =>
  match getSession st token with
  | None => (fail 401 "Invalid session", st)
  | Some session =>
  match getEmployee st (s_employeeId session) with
  | None => (fail 404 "Employee not found", st)
  | Some employee =>
      let branding := getBranding st in
      let maxSelections := maxSelectionsOf branding in
      let cartItems := getCartItems st (s_employeeId session) in
      if (length cartItems =? 0)%nat then (fail 400 "Cart is empty", st) else
      let employeeOrders := getOrdersByEmployeeId st (s_employeeId session) in
      if selectionLimitReached maxSelections employeeOrders cartItems
      then (fail 400 "Selection limit reached", st) else
      let inrPerPoint := inrPerPointOf branding in
      match requiredPoints st inrPerPoint cartItems (Fin 0) with
      | inl response => (response, st)
      | inr totalPointsRequired =>
          let userPoints := e_points employee in
          if num_lt (num_of_Z userPoints) totalPointsRequired
          then (fail 400 "Insufficient points", st) else
          let st := others st in
          let '(orders, st) :=
            commitOrders now (s_employeeId session) inrPerPoint
              (pointsStamp req) cartItems st [] in
          match
            updateEmployee (s_employeeId session)
              (num_sub (num_of_Z userPoints) totalPointsRequired) st
          with
          | Throw _ => (fail 500 "Error creating orders", st)
          | Return st =>
              let st := clearCart (s_employeeId session) st in
              let updatedEmployee := getEmployee st (s_employeeId session) in
              (json (OrdersBody orders updatedEmployee), st)
          end
      end
  end end end.

(** The handler served alone. *)
Definition post_orders `{JSRuntime} (now : Date) (req : CheckoutRequest)
  (st : Store) : Response * Store :=
  post_orders_among (fun st => st) now req st.

(** ** Co-pay checkout ([create-copay-order], [verify-copay]) *)

(** The payment gateway's configuration in the environment. *)
Record PhonePeConfig := mkConfig {
  merchantId : option string;
  saltKey : option string;
  redirectBase : option string
}.

(** What the handler reads of the gateway's answer to a pay request. *)
Record PayResult := mkPayResult {
  pay_ok : bool;
  pay_success : bool;
  pay_url : option string
}.

(** What the handler reads of the gateway's answer to a status request:
    [response.ok], [result.success], [result.code], [result.data.amount] and
    [result.data.transactionId]. *)
Record StatusResult := mkStatusResult {
  st_ok : bool;
  st_success : bool;
  st_code : option string;
  st_amount : option number;
  st_transactionId : option string
}.

(** [POST /api/orders/create-copay-order]; [pay amount] is the gateway's
    answer to a pay request of [amount] minor units. *)
Definition post_create_copay_order `{JSRuntime} (config : PhonePeConfig)
  (pay : number -> PayResult) (now : Date) (req : CheckoutRequest)
  (st : Store) : Response * Store :=
  match nonEmpty (rq_token req) with
  | None => (fail 401 "No token", st)
  | Some token =>
  match getSession st token with
  | None => (fail 401 "Invalid session", st)
  | Some session =>
  match getEmployee st (s_employeeId session) with
  | None => (fail 404 "Employee not found", st)
  | Some employee =>
      let cartItems := getCartItems st (s_employeeId session) in
      if (length cartItems =? 0)%nat then (fail 400 "Cart is empty", st) else
      let branding := getBranding st in
      let maxSelections := maxSelectionsOf branding in
      let employeeOrders := getOrdersByEmployeeId st (s_employeeId session) in
      if selectionLimitReached maxSelections employeeOrders cartItems
      then (fail 400 "Selection limit reached", st) else
      let inrPerPoint := inrPerPointOf branding in
      match requiredPoints st inrPerPoint cartItems (Fin 0) with
      | inl response => (response, st)
      | inr totalPointsRequired =>
          let userPoints := e_points employee in
          if num_ge (num_of_Z userPoints) totalPointsRequired
          then (fail 400 "Sufficient points, use normal checkout", st) else
          let deficitPoints := num_sub totalPointsRequired (num_of_Z userPoints) in
          let copayInr := Math_ceil (num_mul deficitPoints inrPerPoint) in
          match nonEmpty (merchantId config), nonEmpty (saltKey config),
                nonEmpty (redirectBase config) with
          | Some _, Some _, Some _ =>
              let merchantTransactionId := "TXN_" ++ pretty (getTime now) in
              let result := pay (num_mul copayInr (Fin 100)) in
              if negb (pay_ok result) || negb (pay_success result)
              then (fail 500 "Failed to initiate PhonePe payment", st) else
              match nonEmpty (pay_url result) with
              | None => (fail 500 "PhonePe redirect URL missing", st)
              | Some paymentUrl =>
                  (json (PaymentBody paymentUrl merchantTransactionId), st)
              end
          | _, _, _ =>
              (fail 500
                 "PhonePe not configured. Missing PHONEPE_MERCHANT_ID / PHONEPE_SALT_KEY / PHONEPE_REDIRECT_URL_BASE",
               st)
          end
      end
  end end end.

Record VerifyRequest := mkVerifyRequest {
  vr_token : option string;
  vr_merchantTransactionId : option string;
  vr_merchantOrderId : option string;
  vr_deliveryMethod : option string;
  vr_deliveryAddress : option string
}.

(** Metadata of an order of the co-pay path. *)
Definition copayStamp (req : VerifyRequest) (copayInr : number)
  (result : StatusResult) (txnId : string) (usedPoints unitPrice : number)
  : OrderMetadata :=
  mkMetadata usedPoints unitPrice (Some copayInr) (st_transactionId result)
    (Some txnId)
    match vr_deliveryMethod req with Some m => m | None => "office" end
    (vr_deliveryAddress req).

(** [merchantTransactionId || merchantOrderId] *)
Definition txnIdOf (req : VerifyRequest) : option string :=
  match nonEmpty (vr_merchantTransactionId req) with
  | Some t => Some t
  | None => nonEmpty (vr_merchantOrderId req)
  end.

(** [(result?.data?.amount ?? 0) / 100] *)
Definition paidAmountOf (result : StatusResult) : number :=
  num_div (match st_amount result with Some a => a | None => Fin 0 end)
    (Fin 100).

(** [POST /api/orders/verify-copay]; [result] is the gateway's answer to
    the status request for the transaction. *)
Definition post_verify_copay `{JSRuntime} (config : PhonePeConfig)
  (result : StatusResult) (now : Date) (req : VerifyRequest) (st : Store)
  : Response * Store :=
  match txnIdOf req with
  | None => (fail 400 "Missing merchantTransactionId", st)
  | Some txnId =>
  match nonEmpty (merchantId config), nonEmpty (saltKey config) with
  | Some _, Some _ =>
  if negb (st_ok result) || negb (st_success result)
     || negb (bool_decide (st_code result = Some "PAYMENT_SUCCESS"))
  then (fail 400 "Payment not completed", st) else
  match nonEmpty (vr_token req) with
  | None => (fail 401 "No token", st)
  | Some token =>
  match getSession st token with
  | None => (fail 401 "Invalid session", st)
  | Some session =>
  match getEmployee st (s_employeeId session) with
  | None => (fail 404 "Employee not found", st)
  | Some employee =>
      let branding := getBranding st in
      let maxSelections := maxSelectionsOf branding in
      let employeeOrders := getOrdersByEmployeeId st (s_employeeId session) in
      let cartItems := getCartItems st (s_employeeId session) in
      if (length cartItems =? 0)%nat then (fail 400 "Cart is empty", st) else
      if selectionLimitReached maxSelections employeeOrders cartItems
      then (fail 400 "Selection limit reached", st) else
      let inrPerPoint := inrPerPointOf branding in
      match requiredPoints st inrPerPoint cartItems (Fin 0) with
      | inl response => (response, st)
      | inr totalPointsRequired =>
          let userPoints := e_points employee in
          if num_ge (num_of_Z userPoints) totalPointsRequired
          then (fail 400 "Sufficient points", st) else
          let deficitPoints := num_sub totalPointsRequired (num_of_Z userPoints) in
          let copayInr := Math_ceil (num_mul deficitPoints inrPerPoint) in
          let paidAmount := paidAmountOf result in
          if negb (num_eqb paidAmount copayInr)
          then (mkResponse 400 (MismatchBody "Amount mismatch" copayInr paidAmount), st)
          else
          let '(orders, st) :=
            commitOrders now (s_employeeId session) inrPerPoint
              (copayStamp req copayInr result txnId) cartItems st [] in
          match updateEmployee (s_employeeId session) (Fin 0) st with
          | Throw _ => (fail 400 "Invalid payment", st)
          | Return st =>
              let st := clearCart (s_employeeId session) st in
              let updatedEmployee := getEmployee st (s_employeeId session) in
              (json (OrdersBody orders updatedEmployee), st)
          end
      end
  end end end
  | _, _ => (fail 500 "PhonePe not configured", st)
  end end.

(** ** Cart ([POST /api/cart], [PUT /api/cart/:id]) *)

(** [q || 1] *)
Definition qtyOr1 (q : Z) : Z := if q =? 0 then 1 else q.

Definition dquote : string := String "034"%char EmptyString.

Definition campaignLimitReached (limit : Z) (campaignName : string) : Response :=
  fail 400
    ("Campaign limit reached. You can only select " ++ pretty limit
     ++ " products for " ++ dquote ++ campaignName ++ dquote ++ ".").

(** The body of [POST /api/cart], as [insertCartItemSchema] returns it. *)
Record CartData := mkCartData {
  d_productId : string;
  d_selectedColor : option string;
  d_selectedSize : option string;
  d_quantity : option Z;
  d_campaignId : option string
}.

(** The two [forEach] loops of the add-to-cart limit check. *)
Definition usageOfCampaign (campaignId : string) (employeeOrders : list Order)
  (currentCart : list CartItem) : Z :=
  let usage :=
    fold_left
      (fun usage o =>
         if bool_decide (o_campaignId o = Some campaignId)
         then usage + qtyOr1 (o_quantity o) else usage)
      employeeOrders 0 in
  fold_left
    (fun usage c =>
       if bool_decide (c_campaignId c = Some campaignId)
       then usage + qtyOr1 (c_quantity c) else usage)
    currentCart usage.

(** The campaign-limit block of [POST /api/cart]: the rejection, if any. *)
Definition cartCampaignCheck (st : Store) (employeeId : string)
  (data : CartData) (requestedQty : Z) : option Response :=
  match nonEmpty (d_campaignId data) with
  | Some campaignId =>
      match getCampaign st campaignId with
      | Some campaign =>
          match cmp_isActive campaign, cmp_maxProductsPerUser campaign with
          | Some true, Some limit =>
              let employeeOrders := getOrdersByEmployeeId st employeeId in
              let currentCart := getCartItems st employeeId in
              let usage := usageOfCampaign campaignId employeeOrders currentCart in
              if limit <? usage + requestedQty
              then Some (campaignLimitReached limit (cmp_name campaign))
              else None
          | _, _ => None
          end
      | None => None
      end
  | None => None
  end.

(** [(a ?? null) === (b ?? null)] *)
Definition sameOption (a b : option string) : bool := bool_decide (a = b).

(** [POST /api/cart]; [newId] is the key the database gives a new row. *)
Definition post_cart (newId : string) (token : option string) (data : CartData)
  (st : Store) : Response * Store :=
  match nonEmpty token with
  | None => (fail 401 "No token provided", st)
  | Some token =>
  match getSession st token with
  | None => (fail 401 "Invalid session", st)
  | Some session =>
  match getEmployee st (s_employeeId session) with
  | None => (fail 404 "Employee not found", st)
  | Some employee =>
  match getProduct st (d_productId data) with
  | None => (fail 404 "Product not found", st)
  | Some product =>
      let requestedQty := match d_quantity data with Some q => q | None => 1 end in
      if stockOr0 product <? requestedQty
      then (fail 400 "Insufficient stock", st) else
      match cartCampaignCheck st (s_employeeId session) data requestedQty with
      | Some response => (response, st)
      | None =>
          let currentItems := getCartItems st (s_employeeId session) in
          match
            List.find
              (fun it =>
                 string_eqb (c_productId it) (d_productId data)
                 && sameOption (c_selectedColor it) (d_selectedColor data)
                 && sameOption (c_selectedSize it) (d_selectedSize data))
              currentItems
          with
          | Some existing =>
              let newQuantity := qtyOr1 (c_quantity existing) + requestedQty in
              if stockOr0 product <? newQuantity
              then (fail 400 "Insufficient stock", st) else
              let st := updateCartItem (c_id existing) newQuantity st in
              (json (CartItemBody (getCartItem st (c_id existing))), st)
          | None =>
              let item :=
                mkCartItem newId (s_employeeId session) (d_productId data)
                  (nonEmpty (d_selectedColor data))
                  (nonEmpty (d_selectedSize data)) requestedQty
                  (d_campaignId data) in
              (json (CartItemBody (Some item)), createCartItem item st)
          end
      end
  end end end end.

(** Usage of one campaign as [PUT /api/cart/:id] counts it: by the products
    linked to the campaign. *)
Definition usageOfCampaignProducts (campaignProductIds : list string)
  (itemId : string) (employeeOrders : list Order) (currentCart : list CartItem)
  : Z :=
  let usage :=
    fold_left
      (fun usage o =>
         if bool_decide (o_productId o ∈ campaignProductIds)
         then usage + qtyOr1 (o_quantity o) else usage)
      employeeOrders 0 in
  fold_left
    (fun usage c =>
       if negb (string_eqb (c_id c) itemId)
          && bool_decide (c_productId c ∈ campaignProductIds)
       then usage + qtyOr1 (c_quantity c) else usage)
    currentCart usage.

(** The [for (const campaign of activeCampaignsWithLimit)] loop. *)
Fixpoint updateCampaignCheck (st : Store) (item : CartItem) (quantity : Z)
  (employeeOrders : list Order) (currentCart : list CartItem)
  (activeCampaignsWithLimit : list (string * Campaign)) : option Response :=
  match activeCampaignsWithLimit with
  | [] => None
  | (campaignId, campaign) :: rest =>
      let limit := match cmp_maxProductsPerUser campaign with Some l => l | None => 0 end in
      let campaignProductIds := map fst (getCampaignProducts st campaignId) in
      let usage :=
        usageOfCampaignProducts campaignProductIds (c_id item) employeeOrders
          currentCart in
      if limit <? usage + quantity
      then Some (campaignLimitReached limit (cmp_name campaign))
      else updateCampaignCheck st item quantity employeeOrders currentCart rest
  end.

(** [PUT /api/cart/:id]; a [quantity] that is not an integer is [None]. *)
Definition put_cart (id : string) (quantity : option Z) (st : Store)
  : Response * Store :=
  match quantity with
  | None => (fail 400 "Invalid quantity", st)
  | Some quantity =>
  if quantity <? 1 then (fail 400 "Invalid quantity", st) else
  match getCartItem st id with
  | None => (fail 404 "Cart item not found", st)
  | Some item =>
  match getProduct st (c_productId item) with
  | None => (fail 404 "Product not found", st)
  | Some product =>
      if stockOr0 product <? quantity
      then (fail 400 "Insufficient stock", st) else
      let productCampaigns := getProductCampaigns st (c_productId item) in
      let activeCampaignsWithLimit :=
        List.filter
          (fun c =>
             bool_decide (cmp_isActive (snd c) = Some true)
             && bool_decide (is_Some (cmp_maxProductsPerUser (snd c))))
          productCampaigns in
      let rejection :=
        match activeCampaignsWithLimit, getEmployee st (c_employeeId item) with
        | _ :: _, Some employee =>
            let employeeOrders := getOrdersByEmployeeId st (c_employeeId item) in
            let currentCart := getCartItems st (c_employeeId item) in
            updateCampaignCheck st item quantity employeeOrders currentCart
              activeCampaignsWithLimit
        | _, _ => None
        end in
      match rejection with
      | Some response => (response, st)
      | None =>
          let st := updateCartItem id quantity st in
          (json (CartItemBody (getCartItem st id)), st)
      end
  end end end.

(** ** Bulk buy ([/api/bulkbuy/checkout], [/api/bulkbuy/request]) *)

Record BulkBuyInput := mkBulkInput {
  in_employeeId : string;
  in_deliveryMethod : string;
  in_deliveryAddress : option string;
  in_requesterNote : option string;
  in_items : list BulkItem;
  in_totalAmount : number
}.

(** [createBulkBuyRequest] *)
Definition createBulkBuyRequest `{JSRuntime} (now : Date) (input : BulkBuyInput)
  (st : Store) : BulkBuyRequest * Store :=
  let year := getFullYear now in
  let c := length (bulkBuyRequests st) in
  let next := Z.of_nat c + 1 in
  let requestId := "BBR-" ++ pretty year ++ "-" ++ padStart0 4 (pretty next) in
  let row :=
    mkBulkRequest requestId (in_employeeId input) "pending_approval"
      (in_deliveryMethod input) (in_deliveryAddress input)
      (in_requesterNote input) (in_items input)
      (toFixed2 (in_totalAmount input)) now in
  (row, set_bulkBuyRequests (fun l => (l ++ [row])%list) st).

Definition getBulkBuyAccessByEmail (st : Store) (email : string)
  : option BulkBuyAccess :=
  bulkBuyAccess st !! email.

Definition getBulkBuyCartItems (st : Store) (employeeId : string)
  : list BulkBuyCartItem :=
  filter (fun c => bc_employeeId c = employeeId) (bulkBuyCartItems st).

Definition clearBulkBuyCart (employeeId : string) (st : Store) : Store :=
  set_bulkBuyCartItems (filter (fun c => bc_employeeId c <> employeeId)) st.

(** [requireBulkBuyAccess]: the rejection, or the employee's id and row. *)
Definition requireBulkBuyAccess (st : Store) (token : option string)
  : Response + (string * Employee) :=
  match nonEmpty token with
  | None => inl (fail 401 "No token")
  | Some token =>
  match getSession st token with
  | None => inl (fail 401 "Invalid session")
  | Some session =>
  match getEmployee st (s_employeeId session) with
  | None => inl (fail 404 "Employee not found")
  | Some employee =>
      let employeeEligible := bool_decide (e_bulkBuyAllowed employee = Some true) in
      let access := getBulkBuyAccessByEmail st (e_email employee) in
      let accessEligible :=
        match access with
        | Some a => bool_decide (a_isActive a = Some true)
        | None => false
        end in
      if negb employeeEligible && negb accessEligible
      then inl (fail 403 "Bulk Buy access not enabled")
      else inr (s_employeeId session, employee)
  end end end.

Record BulkCheckoutRequest := mkBulkCheckout {
  bk_token : option string;
  bk_deliveryMethod : option string;
  bk_deliveryAddress : option string;
  bk_requesterNote : option string
}.

(** The [for (const it of cart)] loop of the bulk-buy checkout. *)
Fixpoint snapshotCart `{JSRuntime} (st : Store) (cart : list BulkBuyCartItem)
  (total : number) (itemsSnap : list BulkItem)
  : Response + (number * list BulkItem) :=
  match cart with
  | [] => inr (total, itemsSnap)
  | it :: rest =>
      match getProduct st (bc_productId it) with
      | None => snapshotCart st rest total itemsSnap
      | Some p =>
          if negb (bool_decide (p_bulkBuy p = Some true))
          then snapshotCart st rest total itemsSnap
          else if stockOr0 p <? bc_quantity it
          then inl (fail 400 ("Product unavailable: " ++ p_name p))
          else
            let unitPrice := getUnitPriceForQty p (num_of_Z (bc_quantity it)) in
            let lineTotal :=
              StringToNumber
                (toFixed2 (num_mul unitPrice (num_of_Z (bc_quantity it)))) in
            snapshotCart st rest (num_add total lineTotal)
              (itemsSnap ++
               [mkBulkItem (bc_productId it) (p_name p) (p_sku p)
                  (bc_selectedColor it) None (bc_quantity it) unitPrice
                  lineTotal])%list
      end
  end.

Definition submitted : string :=
  "Your request has been submitted to procurement team for approval..".

(** [POST /api/bulkbuy/checkout].  The two notification mails sent after
    the writes are outside the store. *)
Definition post_bulkbuy_checkout `{JSRuntime} (now : Date)
  (req : BulkCheckoutRequest) (st : Store) : Response * Store :=
  match requireBulkBuyAccess st (bk_token req) with
  | inl response => (response, st)
  | inr (employeeId, employee) =>
      let deliveryMethod :=
        match bk_deliveryMethod req with Some m => m | None => "office" end in
      let cart := getBulkBuyCartItems st employeeId in
      if (length cart =? 0)%nat then (fail 400 "Bulk buy cart is empty", st) else
      match snapshotCart st cart (Fin 0) [] with
      | inl response => (response, st)
      | inr (total, itemsSnap) =>
          if (length itemsSnap =? 0)%nat
          then (fail 400 "No valid items to submit", st) else
          let '(requestRec, st) :=
            createBulkBuyRequest now
              (mkBulkInput employeeId deliveryMethod (bk_deliveryAddress req)
                 (bk_requesterNote req) itemsSnap total)
              st in
          let st := clearBulkBuyCart employeeId st in
          (json (RequestBody requestRec submitted), st)
      end
  end.

Record BulkDirectRequest := mkBulkDirect {
  bd_token : option string;
  bd_productId : option string;
  bd_quantity : option jsval;
  bd_selectedColor : option string;
  bd_selectedSize : option string;
  bd_deliveryMethod : option string;
  bd_deliveryAddress : option string;
  bd_requesterNote : option string
}.

(** [quantity = 1] by default, then [Number.isInteger(quantity)]. *)
Definition requestedInteger (quantity : option jsval) : option Z :=
  match default (JNum (Fin 1)) quantity with
  | JNum n => toInteger n
  | _ => None
  end.

(** [POST /api/bulkbuy/request] *)
Definition post_bulkbuy_request `{JSRuntime} (now : Date)
  (req : BulkDirectRequest) (st : Store) : Response * Store :=
  match requireBulkBuyAccess st (bd_token req) with
  | inl response => (response, st)
  | inr (employeeId, employee) =>
  match nonEmpty (bd_productId req) with
  | None => (fail 400 "ProductId required", st)
  | Some productId =>
  match requestedInteger (bd_quantity req) with
  | None => (fail 400 "Invalid quantity", st)
  | Some quantity =>
      if quantity <? 1 then (fail 400 "Invalid quantity", st) else
      let deliveryMethod :=
        match bd_deliveryMethod req with Some m => m | None => "office" end in
      if negb (string_eqb deliveryMethod "office"
               || string_eqb deliveryMethod "delivery")
      then (fail 400 "Invalid delivery method", st) else
      if string_eqb deliveryMethod "delivery"
         && string_eqb
              (trim (match bd_deliveryAddress req with Some a => a | None => "" end))
              ""
      then (fail 400 "Delivery address required", st) else
      match getProduct st productId with
      | None => (fail 404 "Bulk buy product not found", st)
      | Some p =>
          if bool_decide (p_isActive p = Some false)
             || negb (bool_decide (p_bulkBuy p = Some true))
          then (fail 404 "Bulk buy product not found", st) else
          if (0 <? length (default [] (p_colors p)))%nat
             && bool_decide (nonEmpty (bd_selectedColor req) = None)
          then (fail 400 "Please select a color", st) else
          if (0 <? length (default [] (snd <$> p_sizes p)))%nat
             && bool_decide (nonEmpty (bd_selectedSize req) = None)
          then (fail 400 "Please select a size", st) else
          if stockOr0 p <? quantity
          then (fail 400 "Insufficient stock", st) else
          let unitPrice := getUnitPriceForQty p (num_of_Z quantity) in
          let lineTotal :=
            StringToNumber (toFixed2 (num_mul unitPrice (num_of_Z quantity))) in
          let itemsSnap :=
            [mkBulkItem productId (p_name p) (p_sku p) (bd_selectedColor req)
               (bd_selectedSize req) quantity unitPrice lineTotal] in
          let '(requestRec, st) :=
            createBulkBuyRequest now
              (mkBulkInput employeeId deliveryMethod
                 (if string_eqb deliveryMethod "delivery"
                  then bd_deliveryAddress req else None)
                 (bd_requesterNote req) itemsSnap lineTotal)
              st in
          (json (RequestBody requestRec submitted), st)
      end
  end end end.

(** ** A runtime for the worked examples

    An implementation of [JSRuntime] that agrees with JavaScript on plain
    decimal literals (an optional sign, digits, an optional fraction), which
    is all the examples below contain. *)

Definition digit (c : ascii) : option Z :=
  let n := Z.of_nat (nat_of_ascii c) in
  if (48 <=? n) && (n <=? 57) then Some (n - 48) else None.

Fixpoint readDigits (s : string) (acc : Z) (den : positive) (frac seen : bool)
  : option Q :=
  match s with
  | EmptyString => if seen then Some (acc # den) else None
  | String c rest =>
      if Ascii.eqb c "."%char
      then if frac then None else readDigits rest acc den true seen
      else
        match digit c with
        | Some d =>
            readDigits rest (acc * 10 + d)
              (if frac then (den * 10)%positive else den) frac true
        | None => None
        end
  end.

Definition readDecimal (s : string) : number :=
  let unsigned t :=
    match readDigits t 0 1 false false with
    | Some q => Some (Qred q)
    | None => None
    end in
  match s with
  | String "-"%char rest =>
      match unsigned rest with Some q => Fin (- q) | None => NaN end
  | String "+"%char rest =>
      match unsigned rest with Some q => Fin q | None => NaN end
  | _ => match unsigned s with Some q => Fin q | None => NaN end
  end.

Definition isSpace (c : ascii) : bool :=
  let n := nat_of_ascii c in
  ((n =? 32) || (n =? 9) || (n =? 10) || (n =? 13))%nat.

Fixpoint trimStart (s : string) : string :=
  match s with
  | String c rest => if isSpace c then trimStart rest else s
  | EmptyString => s
  end.

Definition trimBoth (s : string) : string :=
  String.rev (trimStart (String.rev (trimStart s))).

(** Digits of the fraction [n / d], [0 <= n < d], while they last. *)
Fixpoint fractionDigits (fuel : nat) (n d : Z) : string :=
  match fuel with
  | O => ""
  | S fuel =>
      if n =? 0 then ""
      else pretty (10 * n / d) ++ fractionDigits fuel (10 * n mod d) d
  end.

Definition printNumber (v : number) : string :=
  match v with
  | NaN => "NaN"
  | PosInf => "Infinity"
  | NegInf => "-Infinity"
  | Fin q =>
      let a := Qabs q in
      let whole := Qfloor a in
      let rest := Qnum a - whole * Zpos (Qden a) in
      (if Qnum q <? 0 then "-" else "")
      ++ pretty whole
      ++ (if rest =? 0 then "" else "." ++ fractionDigits 20 rest (Zpos (Qden a)))
  end.

(** Two decimals, halves away from zero. *)
Definition printFixed2 (v : number) : string :=
  match v with
  | Fin q =>
      let cents := Qfloor (Qabs q * 100 + (1 # 2))%Q in
      (if (Qnum q <? 0) && negb (cents =? 0) then "-" else "")
      ++ pretty (cents / 100) ++ "." ++ padStart0 2 (pretty (cents mod 100))
  | _ => printNumber v
  end.

Definition plainDecimals : JSRuntime := {|
  StringToNumber s :=
    let t := trimBoth s in
    if string_eqb t "" then Fin 0 else readDecimal t;
  NumberToString := printNumber;
  trim := trimBoth;
  parseFloat s := readDecimal (trimStart s);
  toFixed2 := printFixed2
|}.

(** ** Inputs of the worked examples *)


(** The spec's two tiers, given out of order, and two overlapping ranges. *)
Definition rawTiers : list RawSlab :=
  [mkRaw (JNum (Fin 10)) JNull (JStr "80");
   mkRaw (JNum (Fin 1)) (JNum (Fin 9)) (JStr "100")].


(** A product priced 120 with the spec's two tiers. *)
Definition tiered : Product :=
  mkProduct "Mug" "120" (Some 50) "MUG-1" (Some true)
    (Some [mkSlab (Fin 1) (Some (Fin 9)) "100"; mkSlab (Fin 10) None "80"])
    (Some true) None None.

(** A shop with one product, two employees with the same cart line (three
    mugs), one point being worth 2 rupees and no selection limit. *)
Definition alice : Employee :=
  mkEmployee "alice@example.com" None 500 (Some false) "user".

Definition bob : Employee :=
  mkEmployee "bob@example.com" None 100 (Some true) "user".

Definition shop : Store :=
  mkStore {[ "p1" := tiered ]} {[ "e1" := alice; "e2" := bob ]} []
    [mkCartItem "c1" "e1" "p1" None None 3 None;
     mkCartItem "c2" "e2" "p1" None None 3 None]
    {[ "tok1" := mkSession "e1"; "tok2" := mkSession "e2" ]}
    (Some (mkBranding (Some "2.00") (Some (-1))))
    ∅ [] ∅ [mkBulkCartItem "b1" "e2" "p1" None None 20] [].

Definition today : Date := mkDate 2026 1000.

Definition aliceCheckout : CheckoutRequest :=
  mkCheckoutRequest (Some "tok1") None None.

Definition gateway : PhonePeConfig :=
  mkConfig (Some "M1") (Some "salt") (Some "https://shop.example").

(** Bob pays the 100 rupees his 100 points leave open; amounts are in paise. *)
Definition bobVerify : VerifyRequest :=
  mkVerifyRequest (Some "tok2") (Some "TXN_1") None None None.

Definition paid (paise : Z) : StatusResult :=
  mkStatusResult true true (Some "PAYMENT_SUCCESS") (Some (num_of_Z paise))
    (Some "T1").

Definition bobCheckout : CheckoutRequest :=
  mkCheckoutRequest (Some "tok2") None None.

Definition payPage (amount : number) : PayResult :=
  mkPayResult true true (Some "https://pay.example/1").

(** An order of last year. *)
Definition oldOrder (employeeId : string) : Order :=
  mkOrder "ORD-2025-001" employeeId "p1" None None 1 (Some "confirmed")
    (Some (mkDate 2025 500)) None None.

Definition bobBulkCheckout : BulkCheckoutRequest :=
  mkBulkCheckout (Some "tok2") None None (Some "for the offsite").


(** A bulk-buy request of last year, and the shop holding it and an order
    of last year. *)
Definition lastYearRequest : BulkBuyRequest :=
  mkBulkRequest "BBR-2025-0001" "e2" "approved" "office" None None [] "0.00"
    (mkDate 2025 700).

Definition archive : Store :=
  set_bulkBuyRequests (fun _ => [lastYearRequest])
    (set_orders (fun _ => [oldOrder "e1"]) shop).

Definition someOrder : InsertOrder :=
  mkInsertOrder "e1" "p1" None None 1 None None.

Definition someBulkInput : BulkBuyInput :=
  mkBulkInput "e2" "office" None None [] (Fin 0).

(** The shop with two campaigns linked to the mug: an inactive one capped
    at 1 and an active one capped at 5.  Alice has an order of 3 in the
    active campaign and an order of 1 placed before campaigns were tracked;
    her cart holds 3 mugs outside any campaign and 1 red mug in the active
    campaign. *)
Definition campaignOrder : Order :=
  mkOrder "ORD-2026-001" "e1" "p1" None None 3 (Some "confirmed")
    (Some (mkDate 2026 100)) None (Some "k2").

Definition campaignShop : Store :=
  mkStore (products shop) (employees shop) [oldOrder "e1"; campaignOrder]
    [mkCartItem "c1" "e1" "p1" None None 3 None;
     mkCartItem "c3" "e1" "p1" (Some "red") None 1 (Some "k2")]
    (sessions shop) (branding shop)
    {[ "k1" := mkCampaign "Clearance" (Some false) (Some 1);
       "k2" := mkCampaign "Diwali" (Some true) (Some 5) ]}
    [mkCampaignProduct "k1" "p1"; mkCampaignProduct "k2" "p1"]
    (bulkBuyAccess shop) (bulkBuyCartItems shop) (bulkBuyRequests shop).

(** Adding blue mugs in a campaign. *)
Definition addBlue (quantity : Z) (campaignId : string) : CartData :=
  mkCartData "p1" (Some "blue") None (Some quantity) (Some campaignId).

(** ** Vocabulary of the statements *)

(** What the normalizer's checks leave of a slab: a finite lower bound and
    an upper bound that is finite or absent. *)
Definition validSlab (s : PriceSlabRange) : Prop :=
  isFinite (minQty s) = true
  /\ match maxQty s with Some m => isFinite m = true | None => True end.

(** Ascending by [(minQty, maxQty-or-infinity)]. *)
Definition slabLe (a b : PriceSlabRange) : Prop :=
  num_lt (minQty a) (minQty b) = true
  \/ (num_eqb (minQty a) (minQty b) = true
      /\ num_le (toMax (maxQty a)) (toMax (maxQty b)) = true).

(** The closed interval [[minQty, maxQty-or-infinity]] of a slab contains [q]. *)
Definition contains (s : PriceSlabRange) (q : number) : bool :=
  num_le (minQty s) q && num_le q (toMax (maxQty s)).

(** A text that parses to a finite number [>= 0], as a price. *)
Definition parsesToPrice `{JSRuntime} (text : string) : option number :=
  let p := StringToNumber text in
  if isFinite p && num_ge p (Fin 0) then Some p else None.

(** The Unit Price Resolver in the words of the specification: the base
    price without slabs; otherwise the price of the first slab, in ascending
    sorted order, whose interval contains the quantity, if that price parses;
    otherwise the base price. *)
Definition resolvePrice `{JSRuntime} (product : Product) (q : number) : number :=
  let base := StringToNumber (p_price product) in
  match default [] (p_priceSlabs product) with
  | [] => base
  | slabs =>
      match List.find (fun s => contains s q) (Array_sort compareSlabs slabs) with
      | Some s => default base (parsesToPrice (price s))
      | None => base
      end
  end.

(** Points for a line, rounded per unit: [ceil(unitPrice / inrPerPoint) * quantity]. *)
Definition perUnitPoints (unitPrice inrPerPoint : number) (quantity : Z)
  : number :=
  num_mul (Math_ceil (num_div unitPrice inrPerPoint)) (num_of_Z quantity).


(** The unit price of a cart item's product for the item's quantity. *)
Definition priceOf `{JSRuntime} (st : Store) (item : CartItem) : number :=
  match getProduct st (c_productId item) with
  | Some p => getUnitPriceForQty p (num_of_Z (c_quantity item))
  | None => NaN
  end.

(** The sum, in cart order, of the per-unit points of the items. *)
Definition sumPoints `{JSRuntime} (st : Store) (inrPerPoint : number)
  (items : list CartItem) : number :=
  fold_left num_add
    (map (fun item => perUnitPoints (priceOf st item) inrPerPoint (c_quantity item))
       items)
    (Fin 0).

(** The quantity of a product ordered by a cart, if the cart names it. *)
Fixpoint orderedQuantity (productId : string) (items : list CartItem)
  : option Z :=
  match items with
  | [] => None
  | item :: rest =>
      if string_eqb (c_productId item) productId
      then Some (c_quantity item + default 0 (orderedQuantity productId rest))
      else orderedQuantity productId rest
  end.

(** A product with its stock decremented by an ordered quantity. *)
Definition decrement (ordered : option Z) (p : Product) : Product :=
  match ordered with
  | Some q => withStock (stockOr0 p - q) p
  | None => p
  end.

(** The order a checkout creates for a cart item, given its identifier. *)
Definition orderFor `{JSRuntime} (now : Date) (employeeId : string)
  (inrPerPoint : number) (stamp : number -> number -> OrderMetadata)
  (st : Store) (orderId : string) (item : CartItem) : Order :=
  mkOrder orderId employeeId (c_productId item) (c_selectedColor item)
    (c_selectedSize item) (c_quantity item) (Some "confirmed") (Some now)
    (Some
       (stamp (perUnitPoints (priceOf st item) inrPerPoint (c_quantity item))
          (priceOf st item)))
    (nonEmpty (c_campaignId item)).

(** The product of a cart item is in the store. *)
Definition present (st : Store) (item : CartItem) : Prop :=
  is_Some (products st !! c_productId item).

(** What a committed checkout of [items] by [employeeId] does to the store:
    every product's stock is decremented by the quantity ordered of it, the
    orders [placed] are appended, one for each item whose product is present
    and in cart order, the employee's balance becomes [balance], the
    employee's cart is emptied, and nothing else changes. *)
Definition checkedOut `{JSRuntime} (now : Date) (employeeId : string)
  (inrPerPoint : number) (stamp : number -> number -> OrderMetadata)
  (items : list CartItem) (balance : Z) (placed : list (Order * Product))
  (st st' : Store) : Prop :=
  (forall productId,
     products st' !! productId
     = decrement (orderedQuantity productId items) <$> products st !! productId)
  /\ orders st' = (orders st ++ map fst placed)%list
  /\ Forall2
       (fun item op =>
          fst op
          = orderFor now employeeId inrPerPoint stamp st (o_orderId (fst op)) item)
       (filter (present st) items) placed
  /\ employees st' = alter (withPoints balance) employeeId (employees st)
  /\ cartItems st' = filter (fun c => c_employeeId c <> employeeId) (cartItems st)
  /\ sessions st' = sessions st
  /\ branding st' = branding st
  /\ campaigns st' = campaigns st
  /\ campaignProducts st' = campaignProducts st
  /\ bulkBuyAccess st' = bulkBuyAccess st
  /\ bulkBuyCartItems st' = bulkBuyCartItems st
  /\ bulkBuyRequests st' = bulkBuyRequests st.

(** The employee's historical orders plus the incoming cart items exceed a
    configured limit other than [-1]. *)
Definition overSelectionLimit (st : Store) (employeeId : string) : Prop :=
  maxSelectionsOf (getBranding st) <> -1
  /\ maxSelectionsOf (getBranding st)
     < Z.of_nat (length (getOrdersByEmployeeId st employeeId))
       + Z.of_nat (length (getCartItems st employeeId)).

(** The product of a cart item exists with stock for the item's quantity. *)
Definition inStock (st : Store) (item : CartItem) : Prop :=
  exists p,
    getProduct st (c_productId item) = Some p
    /\ c_quantity item <= stockOr0 p.

(** The preconditions the points and the co-pay checkout share hold on
    [st]: the token names the session, the session's employee exists, the
    cart is not empty, the selection limit is not exceeded, every cart item
    is in stock; and [total] is the sum of the per-unit points of the cart. *)
Definition validated `{JSRuntime} (st : Store) (token : option string)
  (session : Session) (employee : Employee) (total : number) : Prop :=
  (exists t, nonEmpty token = Some t /\ getSession st t = Some session)
  /\ getEmployee st (s_employeeId session) = Some employee
  /\ getCartItems st (s_employeeId session) <> []
  /\ ~ overSelectionLimit st (s_employeeId session)
  /\ Forall (inStock st) (getCartItems st (s_employeeId session))
  /\ total
     = sumPoints st (inrPerPointOf (getBranding st))
         (getCartItems st (s_employeeId session)).

(** The gateway verification succeeded for transaction [txnId]: the
    gateway is configured, answered, and reports [PAYMENT_SUCCESS]. *)
Definition paymentVerified (config : PhonePeConfig) (result : StatusResult)
  (req : VerifyRequest) (txnId : string) : Prop :=
  txnIdOf req = Some txnId
  /\ is_Some (nonEmpty (merchantId config))
  /\ is_Some (nonEmpty (saltKey config))
  /\ st_ok result = true
  /\ st_success result = true
  /\ st_code result = Some "PAYMENT_SUCCESS".



(** The request is authenticated and there is something to check out. *)
Definition authenticated (st : Store) (token : option string)
  (session : Session) (employee : Employee) : Prop :=
  (exists t, nonEmpty token = Some t /\ getSession st t = Some session)
  /\ getEmployee st (s_employeeId session) = Some employee
  /\ getCartItems st (s_employeeId session) <> [].

Definition selectionLimitError : Response := fail 400 "Selection limit reached".

(** The store with another branding row and another order history. *)
Definition withHistory (b : option Branding) (os : list Order) (st : Store)
  : Store :=
  mkStore (products st) (employees st) os (cartItems st) (sessions st) b
    (campaigns st) (campaignProducts st) (bulkBuyAccess st)
    (bulkBuyCartItems st) (bulkBuyRequests st).

(** The shop with a limit of one selection, each employee having one order. *)
Definition limitedShop : Store :=
  withHistory (Some (mkBranding (Some "2.00") (Some 1)))
    [oldOrder "e1"; oldOrder "e2"] shop.


(** The bulk-buy requests created in a calendar year. *)
Definition requestsInYear (year : Z) (st : Store) : list BulkBuyRequest :=
  List.filter (fun r => getFullYear (br_createdAt r) =? year) (bulkBuyRequests st).

(** Usage of a campaign by an employee in the words of the specification:
    the sum of [quantity] (1 where it is missing) over the employee's orders
    whose [campaignId] is the campaign's, plus the same sum over the
    employee's cart items. *)
Definition campaignUsage (st : Store) (employeeId campaignId : string) : Z :=
  foldr Z.add 0
    (map (fun o => qtyOr1 (o_quantity o))
       (filter (fun o => o_campaignId o = Some campaignId)
          (getOrdersByEmployeeId st employeeId)))
  + foldr Z.add 0
      (map (fun c => qtyOr1 (c_quantity c))
         (filter (fun c => c_campaignId c = Some campaignId)
            (getCartItems st employeeId))).

(** The same usage, leaving out the cart item that is being updated. *)
Definition campaignUsageExcept (st : Store) (employeeId campaignId itemId : string)
  : Z :=
  foldr Z.add 0
    (map (fun o => qtyOr1 (o_quantity o))
       (filter (fun o => o_campaignId o = Some campaignId)
          (getOrdersByEmployeeId st employeeId)))
  + foldr Z.add 0
      (map (fun c => qtyOr1 (c_quantity c))
         (filter (fun c => c_campaignId c = Some campaignId /\ c_id c <> itemId)
            (getCartItems st employeeId))).

(** The store with another product-to-campaign relation. *)
Definition withCampaignProducts (cps : list CampaignProduct) (st : Store)
  : Store :=
  mkStore (products st) (employees st) (orders st) (cartItems st)
    (sessions st) (branding st) (campaigns st) cps (bulkBuyAccess st)
    (bulkBuyCartItems st) (bulkBuyRequests st).

(* ===================================================================== *)
(** * Further parts of the code *)

(** The JSON a stored slab is sent as: [minQty] and [maxQty] as numbers
    ([null] for an absent [maxQty]), [price] as text. *)
Definition slabToJson (s : PriceSlabRange) : RawSlab :=
  mkRaw (JNum (minQty s))
    (match maxQty s with Some m => JNum m | None => JNull end)
    (JStr (price s)).

(** The first character, if any, is a space. *)
Definition headSpace (s : string) : bool :=
  match s with String c _ => isSpace c | EmptyString => false end.

(** The identifier of the [n]-th order of [year], and of the [n]-th bulk-buy
    request, created in [year]. *)
Definition orderIdOf (year n : Z) : string :=
  "ORD-" ++ pretty year ++ "-" ++ padStart0 3 (pretty n).

Definition requestIdOf (year n : Z) : string :=
  "BBR-" ++ pretty year ++ "-" ++ padStart0 4 (pretty n).

(** Every order is dated and carries the identifier [createOrder] gives the
    next order of its year: numbered, in insertion order, within the year. *)
Definition numberedByYear (os : list Order) : Prop :=
  forall (k : nat) (o : Order),
    os !! k = Some o ->
    exists d,
      o_orderDate o = Some d
      /\ o_orderId o
         = orderIdOf (getFullYear d)
             (Z.of_nat
                (length (List.filter (orderInYear (getFullYear d)) (take k os)))
              + 1).

(** Every request carries the identifier [createBulkBuyRequest] gives it:
    its position in the table, under the year it was created in. *)
Definition numberedInSequence (rs : list BulkBuyRequest) : Prop :=
  forall (k : nat) (r : BulkBuyRequest),
    rs !! k = Some r ->
    br_requestId r = requestIdOf (getFullYear (br_createdAt r)) (Z.of_nat k + 1).

(** A text of decimal digits. *)
Fixpoint digitsOnly (s : string) : bool :=
  match s with
  | EmptyString => true
  | String c rest => bool_decide (is_Some (Ascii.is_nat c)) && digitsOnly rest
  end.

(** A text that starts with a digit other than [0]. *)
Definition leadingNonZero (s : string) : bool :=
  match s with
  | String c _ =>
      bool_decide (is_Some (Ascii.is_nat c)) && negb (Ascii.eqb c "0")
  | EmptyString => false
  end.

(** [n] zeros. *)
Definition zeros (n : nat) : string := String.concat "" (repeat "0" n).

(** ** The price the bulk-buy page shows ([client/src/pages/bulk-buy.tsx]) *)

(** [unitPriceForQty], the page's own resolver, on the product as the
    server sends it: [maxQty] is [null] or a number. *)
Definition unitPriceForQty `{JSRuntime} (p : Product) (qty : number) : number :=
  let base :=
    if string_eqb (p_price p) "" then Fin 0 else StringToNumber (p_price p) in
  let slabs := match p_priceSlabs p with Some l => l | None => [] end in
  match slabs with
  | [] => base
  | _ =>
      match
        List.find
          (fun s =>
             let min := minQty s in
             let max := match maxQty s with None => PosInf | Some m => m end in
             num_ge qty min && num_le qty max)
          slabs
      with
      | None => base
      | Some m =>
          let sp := StringToNumber (price m) in
          if isFinite sp then sp else base
      end
  end.

(** ** Further handlers of [routes.ts] *)

(** What the further handlers answer: [res.status(code).json({ message })]
    or [res.json(body)]. *)
Inductive Reply (A : Type) :=
| Rejected (code : Z) (message : string)
| Answered (body : A).
Arguments Rejected {A} code message.
Arguments Answered {A} body.

(** [res.rowCount ? res.rowCount > 0 : true], on the row count the driver
    reports for a [DELETE]: a number, or [null]. *)
Definition deleted (rowCount : option nat) : bool :=
  match rowCount with
  | Some n => if negb (n =? 0)%nat then (0 <? n)%nat else true
  | None => true
  end.

(** [removeCartItem] *)
Definition removeCartItem (id : string) (st : Store) : bool * Store :=
  let rowCount := length (filter (fun c => c_id c = id) (cartItems st)) in
  (deleted (Some rowCount), set_cartItems (filter (fun c => c_id c <> id)) st).

(** [DELETE /api/cart/:id]; the body of the answer is its [ok] field. *)
Definition delete_cart (id : string) (st : Store) : Reply bool * Store :=
  let '(ok, st) := removeCartItem id st in
  if negb ok then (Rejected 404 "Cart item not found", st)
  else (Answered true, st).

(** What [GET /api/bulkbuy/me] answers with. *)
Record Eligibility := mkEligibility {
  eligible : bool;
  access : option BulkBuyAccess;
  employeeFlag : bool
}.

(** [GET /api/bulkbuy/me] *)
Definition get_bulkbuy_me (token : option string) (st : Store)
  : Reply Eligibility :=
  match nonEmpty token with
  | None => Rejected 401 "No token"
  | Some token =>
  match getSession st token with
  | None => Rejected 401 "Invalid session"
  | Some session =>
  match getEmployee st (s_employeeId session) with
  | None => Rejected 404 "Employee not found"
  | Some employee =>
      let access := getBulkBuyAccessByEmail st (e_email employee) in
      let eligible :=
        bool_decide (e_bulkBuyAllowed employee = Some true)
        || match access with
           | Some a => bool_decide (a_isActive a = Some true)
           | None => false
           end in
      Answered
        (mkEligibility eligible access
           (bool_decide (e_bulkBuyAllowed employee = Some true)))
  end end end.

(** What tells two lines of a cart apart: the product and the colour and
    size chosen. *)
Definition cartKey (c : CartItem) : string * option string * option string :=
  (c_productId c, c_selectedColor c, c_selectedSize c).

(** The employee's cart has one line for each product, colour and size. *)
Definition oneLinePerChoice (st : Store) (employeeId : string) : Prop :=
  NoDup (map cartKey (getCartItems st employeeId)).

(** Two stores agree on every table but the cart. *)
Definition sameButCart (st st' : Store) : Prop :=
  products st' = products st
  /\ employees st' = employees st
  /\ orders st' = orders st
  /\ sessions st' = sessions st
  /\ branding st' = branding st
  /\ campaigns st' = campaigns st
  /\ campaignProducts st' = campaignProducts st
  /\ bulkBuyAccess st' = bulkBuyAccess st
  /\ bulkBuyCartItems st' = bulkBuyCartItems st
  /\ bulkBuyRequests st' = bulkBuyRequests st.

(** The shop giving its mug away while a point is worth nothing: the price
    is 0 and so is [inrPerPoint]. *)
Definition freeShop : Store :=
  mkStore
    {[ "p1" := mkProduct "Mug" "0" (Some 50) "MUG-1" (Some true) None None None
                 None ]}
    (employees shop) [] (cartItems shop) (sessions shop)
    (Some (mkBranding (Some "0.00") (Some (-1)))) ∅ [] ∅ [] [].

(** The line a bulk-buy checkout records for a cart line and its product:
    the unit price resolved for the line's quantity and the line total
    rounded to two decimals. *)
Definition snapshotLine `{JSRuntime} (p : Product) (it : BulkBuyCartItem)
  : BulkItem :=
  let unitPrice := getUnitPriceForQty p (num_of_Z (bc_quantity it)) in
  mkBulkItem (bc_productId it) (p_name p) (p_sku p) (bc_selectedColor it) None
    (bc_quantity it) unitPrice
    (StringToNumber (toFixed2 (num_mul unitPrice (num_of_Z (bc_quantity it))))).

(** The product of a bulk-buy cart line is on file and marked for bulk buy. *)
Definition bulkListed (st : Store) (it : BulkBuyCartItem) : bool :=
  match getProduct st (bc_productId it) with
  | Some p => bool_decide (p_bulkBuy p = Some true)
  | None => false
  end.

(** ** Email addresses ([isValidEmail])

    A text is a sequence of UTF-16 code units; the characters of the model
    are the code units below 256. *)

(** Regular expressions over character classes, and [RegExp.prototype.test]
    for an expression anchored at both ends, by derivatives. *)
Inductive regex :=
| Void
| Eps
| Chars (class : ascii -> bool)
| Seq (r s : regex)
| Alt (r s : regex)
| Star (r : regex).

(** [r+] *)
Definition Plus (r : regex) : regex := Seq r (Star r).

Fixpoint nullable (r : regex) : bool :=
  match r with
  | Void => false
  | Eps => true
  | Chars _ => false
  | Seq r s => nullable r && nullable s
  | Alt r s => nullable r || nullable s
  | Star _ => true
  end.

Fixpoint derive (c : ascii) (r : regex) : regex :=
  match r with
  | Void => Void
  | Eps => Void
  | Chars class => if class c then Eps else Void
  | Seq r s =>
      if nullable r then Alt (Seq (derive c r) s) (derive c s)
      else Seq (derive c r) s
  | Alt r s => Alt (derive c r) (derive c s)
  | Star r => Seq (derive c r) (Star r)
  end.

Fixpoint test (r : regex) (s : string) : bool :=
  match s with
  | EmptyString => nullable r
  | String c rest => test (derive c r) rest
  end.

(** The texts a regular expression matches from end to end. *)
Inductive matches : regex -> string -> Prop :=
| matches_eps : matches Eps ""
| matches_chars class c : class c = true -> matches (Chars class) (String c "")
| matches_seq r s u v : matches r u -> matches s v -> matches (Seq r s) (u ++ v)
| matches_alt_l r s u : matches r u -> matches (Alt r s) u
| matches_alt_r r s u : matches s u -> matches (Alt r s) u
| matches_star_nil r : matches (Star r) ""
| matches_star_cons r u v :
    matches r u -> matches (Star r) v -> matches (Star r) (u ++ v).

(** [\s], on the code units below 256: tab, line feed, vertical tab, form
    feed, carriage return, space and no-break space. *)
Definition whiteSpace (c : ascii) : bool :=
  let n := nat_of_ascii c in
  ((9 <=? n) && (n <=? 13) || (n =? 32) || (n =? 160))%nat.

(** [[^\s@]] *)
Definition notSpaceNorAt (c : ascii) : bool :=
  negb (whiteSpace c || Ascii.eqb c "@").

(** [/^[^\s@]+@[^\s@]+\.[^\s@]+$/] *)
Definition emailRegex : regex :=
  Seq (Plus (Chars notSpaceNorAt))
    (Seq (Chars (Ascii.eqb "@"))
       (Seq (Plus (Chars notSpaceNorAt))
          (Seq (Chars (Ascii.eqb ".")) (Plus (Chars notSpaceNorAt))))).

Definition isValidEmail (email : string) : bool := test emailRegex email.

(** A non-empty text without white space and without [@]. *)
Fixpoint plainChars (s : string) : bool :=
  match s with
  | EmptyString => true
  | String c rest => notSpaceNorAt c && plainChars rest
  end.

Definition plainText (s : string) : Prop := s <> "" /\ plainChars s = true.

(** [s.split(sep)] for a separator of one character. *)
Fixpoint split (sep : ascii) (s : string) : list string :=
  match s with
  | EmptyString => [""]
  | String c rest =>
      if Ascii.eqb c sep then "" :: split sep rest
      else
        match split sep rest with
        | first :: others => String c first :: others
        | [] => [String c ""]
        end
  end.

(** ** Employee administration ([/api/admin/employees]) *)

(** What the runtime does with the case of a text. *)
Class JSText := {
  (** [s.toLowerCase()] *)
  toLowerCase : string -> string
}.

(** Truthiness of a value: [Boolean(v)], [!!v], [v || d], [if (v)]. *)
Definition jsTruthy (v : jsval) : bool :=
  match v with
  | JUndefined | JNull => false
  | JBool b => b
  | JNum n => truthy n
  | JStr s => negb (string_eqb s "")
  end.

(** [v || d] *)
Definition jsOr (v d : jsval) : jsval := if jsTruthy v then v else d.

(** [Math.floor] *)
Definition Math_floor (a : number) : number :=
  match a with
  | Fin q => num_of_Z (Qfloor q)
  | _ => a
  end.

(** A row of the [domain_whitelist] table. *)
Record DomainWhitelist := mkDomain {
  dw_domain : string;
  dw_isActive : option bool;
  dw_autoCreateUser : option bool;
  dw_defaultPoints : option Z;
  dw_canLoginWithoutEmployeeId : option bool
}.

(** [getActiveDomainWhitelist], on the rows of the table, newest first. *)
Definition getActiveDomainWhitelist (rows : list DomainWhitelist)
  : list DomainWhitelist :=
  List.filter (fun d => bool_decide (dw_isActive d = Some true)) rows.

Record DomainCheck := mkDomainCheck {
  isWhitelisted : bool;
  domain : option DomainWhitelist
}.

(** [checkDomainWhitelisted] *)
Definition checkDomainWhitelisted `{JSText} (rows : list DomainWhitelist)
  (email : string) : DomainCheck :=
  match toLowerCase <$> split "@" email !! 1%nat with
  | None => mkDomainCheck false None
  | Some emailDomain =>
      if string_eqb emailDomain "" then mkDomainCheck false None
      else
        let domains := getActiveDomainWhitelist rows in
        let matchedDomain :=
          List.find
            (fun d => string_eqb emailDomain (toLowerCase (dw_domain d)))
            domains in
        mkDomainCheck (bool_decide (is_Some matchedDomain)) matchedDomain
  end.

(** [!domainCheck.isWhitelisted &&
     domainCheck.domain?.canLoginWithoutEmployeeId === false], the test the
    three employee handlers make of a domain check. *)
Definition domainBlocked (domainCheck : DomainCheck) : bool :=
  negb (isWhitelisted domainCheck)
  && match domain domainCheck with
     | Some d => bool_decide (dw_canLoginWithoutEmployeeId d = Some false)
     | None => false
     end.

(** [getEmployeeByEmail]: a row with that email, and its id. *)
Definition getEmployeeByEmail (st : Store) (email : string)
  : option (string * Employee) :=
  List.find (fun row => string_eqb (e_email (snd row)) email)
    (map_to_list (employees st)).

(** The columns an update of an employee can set; the names are not among
    the columns the model keeps. *)
Record EmployeePatch := mkPatch {
  ep_firstName : option string;
  ep_lastName : option string;
  ep_email : option string;
  ep_points : option number;
  ep_bulkBuyAllowed : option bool;
  ep_role : option string
}.

(** [Object.keys(updates).length === 0] *)
Definition emptyPatch (u : EmployeePatch) : bool :=
  match u with
  | mkPatch None None None None None None => true
  | _ => false
  end.

Definition applyPatch (u : EmployeePatch) (points : option Z) (e : Employee)
  : Employee :=
  mkEmployee (default (e_email e) (ep_email u)) (e_phoneNumber e)
    (default (e_points e) points)
    match ep_bulkBuyAllowed u with
    | Some b => Some b
    | None => e_bulkBuyAllowed e
    end
    (default (e_role e) (ep_role u)).

(** The [points] column is a 32-bit integer: the driver rejects any other
    number. *)
Definition int4 (z : Z) : bool :=
  (-2147483648 <=? z) && (z <=? 2147483647).

Definition integerColumn (v : number) : option Z :=
  match toInteger v with
  | Some z => if int4 z then Some z else None
  | None => None
  end.

(** The [email] column is unique: another row has that email. *)
Definition emailTaken (st : Store) (id email : string) : bool :=
  existsb
    (fun row =>
       negb (string_eqb (fst row) id) && string_eqb (e_email (snd row)) email)
    (map_to_list (employees st)).

(** [updateEmployee(id, updates)] for any set of columns: the updated row,
    if there is one.  The driver throws for a [points] that does not fit the
    column and for an [email] that would no longer be unique. *)
Definition patchEmployee (id : string) (updates : EmployeePatch) (st : Store)
  : Result (option Employee * Store) :=
  match
    match ep_points updates with
    | Some v => Some <$> integerColumn v
    | None => Some None
    end
  with
  | None => Throw "invalid input for type integer"
  | Some points =>
      if match ep_email updates with
         | Some email =>
             bool_decide (is_Some (employees st !! id))
             && emailTaken st id email
         | None => false
         end
      then Throw "duplicate key value violates unique constraint"
      else
        let st := set_employees (alter (applyPatch updates points) id) st in
        Return (getEmployee st id, st)
  end.

(** The body of [PUT /api/admin/employees/:id]; an absent field is
    [JUndefined]. *)
Record EmployeeUpdate := mkEmployeeUpdate {
  eu_firstName : jsval;
  eu_lastName : jsval;
  eu_email : jsval;
  eu_points : jsval;
  eu_bulkBuyAllowed : jsval;
  eu_role : jsval
}.

Definition given (v : jsval) : bool :=
  match v with JUndefined => false | _ => true end.

(** The [updates] the handler collects from the body, or its rejection. *)
Definition collectUpdates `{JSRuntime} `{JSText} (domains : list DomainWhitelist)
  (body : EmployeeUpdate) : Reply EmployeePatch :=
  let firstName :=
    if given (eu_firstName body)
    then Some (trim (String_ (eu_firstName body))) else None in
  let lastName :=
    if given (eu_lastName body)
    then Some (trim (String_ (eu_lastName body))) else None in
  let withEmail (k : option string -> Reply EmployeePatch) :=
    if given (eu_email body) then
      let email :=
        toLowerCase (trim (String_ (jsOr (eu_email body) (JStr "")))) in
      if negb (isValidEmail email) then Rejected 400 "Invalid email"
      else if domainBlocked (checkDomainWhitelisted domains email)
      then Rejected 403 "Email domain not authorized"
      else k (Some email)
    else k None in
  withEmail (fun email =>
  let withPoints (k : option number -> Reply EmployeePatch) :=
    if given (eu_points body) then
      let pts := Number (eu_points body) in
      if negb (isFinite pts) || num_lt pts (Fin 0)
      then Rejected 400 "Invalid points"
      else k (Some (Math_floor pts))
    else k None in
  withPoints (fun points =>
  let bulkBuyAllowed :=
    if given (eu_bulkBuyAllowed body)
    then Some (jsTruthy (eu_bulkBuyAllowed body)) else None in
  let withRole (k : option string -> Reply EmployeePatch) :=
    if given (eu_role body) then
      let role := toLowerCase (trim (String_ (jsOr (eu_role body) (JStr "")))) in
      if negb (bool_decide (role ∈ ["user"; "admin"; "procurement"]))
      then Rejected 400 "Invalid role. Allowed: user, admin, procurement"
      else k (Some role)
    else k None in
  withRole (fun role =>
  let updates := mkPatch firstName lastName email points bulkBuyAllowed role in
  if emptyPatch updates then Rejected 400 "No valid fields to update"
  else Answered updates))).

(** [PUT /api/admin/employees/:id] *)
Definition put_admin_employee `{JSRuntime} `{JSText}
  (domains : list DomainWhitelist) (id : string) (body : EmployeeUpdate)
  (st : Store) : Reply Employee * Store :=
  match collectUpdates domains body with
  | Rejected code message => (Rejected code message, st)
  | Answered updates =>
      match patchEmployee id updates st with
      | Throw _ => (Rejected 500 "Error updating employee", st)
      | Return (None, st) => (Rejected 404 "Employee not found", st)
      | Return (Some updated, st) => (Answered updated, st)
      end
  end.

(** A cart with two lines of the same product, 30 red mugs and 30 blue
    ones, of which 50 are in stock; the balance covers both. *)
Definition twoColours : Store :=
  mkStore (products shop) {[ "e1" := withPoints 5000 alice ]} []
    [mkCartItem "c1" "e1" "p1" (Some "red") None 30 None;
     mkCartItem "c2" "e1" "p1" (Some "blue") None 30 None]
    (sessions shop) (branding shop) ∅ [] ∅ [] [].

(** ** Sessions ([/api/auth/logout], [/api/auth/session]) *)

(** [deleteSession] *)
Definition deleteSession (token : string) (st : Store) : Store :=
  mkStore (products st) (employees st) (orders st) (cartItems st)
    (delete token (sessions st)) (branding st) (campaigns st)
    (campaignProducts st) (bulkBuyAccess st) (bulkBuyCartItems st)
    (bulkBuyRequests st).

(** [POST /api/auth/logout]; the answer is always
    ["Logged out successfully"]. *)
Definition post_auth_logout (token : option string) (st : Store) : Store :=
  match nonEmpty token with
  | Some token => deleteSession token st
  | None => st
  end.

(** [GET /api/auth/session]: the employee of the session, with its id. *)
Definition get_auth_session (token : option string) (st : Store)
  : Reply (string * Employee) :=
  match nonEmpty token with
  | None => Rejected 401 "No token provided"
  | Some token =>
  match getSession st token with
  | None => Rejected 401 "Invalid or expired session"
  | Some session =>
  match getEmployee st (s_employeeId session) with
  | None => Rejected 404 "Employee not found"
  | Some employee => Answered (s_employeeId session, employee)
  end end end.

(** [createEmployee], for the columns the model keeps; [newId] is the key
    the database gives the new row.  An absent column takes its default
    ([points] 0, [bulkBuyAllowed] false, [role] user).  The driver throws
    for a [points] that does not fit the column and for an [email] that a
    row already has. *)
Definition createEmployee (newId : string) (email : string)
  (points : option number) (bulkBuyAllowed : option (option bool))
  (st : Store) : Result (Employee * Store) :=
  match
    match points with
    | None => Some 0
    | Some v => integerColumn v
    end
  with
  | None => Throw "invalid input for type integer"
  | Some z =>
      if emailTaken st newId email
      then Throw "duplicate key value violates unique constraint"
      else
        let row :=
          mkEmployee email None z (default (Some false) bulkBuyAllowed) "user"
        in
        Return (row, set_employees (insert newId row) st)
  end.

(** [toBoolLoose], of the bulk import. *)
Definition toBoolLoose `{JSRuntime} `{JSText} (v : jsval) : option bool :=
  match v with
  | JUndefined | JNull | JStr "" => None
  | JBool b => Some b
  | JNum n => Some (num_eqb n (Fin 1))
  | JStr _ =>
      let s := toLowerCase (trim (String_ v)) in
      if bool_decide (s ∈ ["1"; "true"; "yes"; "y"]) then Some true
      else if bool_decide (s ∈ ["0"; "false"; "no"; "n"]) then Some false
      else None
  end.

(** A row of the sheet sent to [POST /api/admin/employees/bulk]; an absent
    column is [JUndefined]. *)
Record ImportRow := mkImportRow {
  ir_email : jsval;
  ir_points : jsval;
  ir_bulkBuyAllowed : jsval;
  ir_firstName : jsval;
  ir_lastName : jsval
}.

(** The counters of the import and the store, as the loop threads them. *)
Record Import := mkImport {
  inserted : nat;
  skipped : nat;
  imported : Store
}.

Definition skip (acc : Import) : Import :=
  mkImport (inserted acc) (S (skipped acc)) (imported acc).

(** The body of the import loop, with its [try] and [catch]. *)
Definition importRow `{JSRuntime} `{JSText} (domains : list DomainWhitelist)
  (newId : gmap string Employee -> string) (acc : Import) (r : ImportRow)
  : Import :=
  let st := imported acc in
  let rawEmail :=
    if jsTruthy (ir_email r) then toLowerCase (trim (String_ (ir_email r)))
    else "" in
  if string_eqb rawEmail "" || negb (isValidEmail rawEmail) then skip acc else
  if domainBlocked (checkDomainWhitelisted domains rawEmail) then skip acc else
  let bulkBuyAllowed := toBoolLoose (ir_bulkBuyAllowed r) in
  match getEmployeeByEmail st rawEmail with
  | Some (id, _) =>
      let pts := Number (ir_points r) in
      let patch :=
        mkPatch None None None (if isFinite pts then Some pts else None)
          bulkBuyAllowed None in
      if negb (emptyPatch patch) then
        match patchEmployee id patch st with
        | Throw _ => skip acc
        | Return (_, st) => mkImport (inserted acc) (S (skipped acc)) st
        end
      else skip acc
  | None =>
      let firstName := trim (String_ (jsOr (ir_firstName r) (JStr ""))) in
      let lastName := trim (String_ (jsOr (ir_lastName r) (JStr ""))) in
      let points :=
        if isFinite (Number (ir_points r)) then Number (ir_points r)
        else Fin 0 in
      if string_eqb firstName "" || string_eqb lastName "" then skip acc else
      match
        createEmployee (newId (employees st)) rawEmail (Some points)
          (Some (Some (default false bulkBuyAllowed))) st
      with
      | Throw _ => skip acc
      | Return (_, st) => mkImport (S (inserted acc)) (skipped acc) st
      end
  end.

(** [POST /api/admin/employees/bulk]; a body that is not an array is the
    empty list.  The answer is the two counters. *)
Definition post_admin_employees_bulk `{JSRuntime} `{JSText}
  (domains : list DomainWhitelist) (newId : gmap string Employee -> string)
  (rows : list ImportRow) (st : Store) : Import :=
  fold_left (importRow domains newId) rows (mkImport 0 0 st).

(** Two stores agree on every table but the employees. *)
Definition sameButEmployees (st st' : Store) : Prop :=
  products st' = products st
  /\ orders st' = orders st
  /\ cartItems st' = cartItems st
  /\ sessions st' = sessions st
  /\ branding st' = branding st
  /\ campaigns st' = campaigns st
  /\ campaignProducts st' = campaignProducts st
  /\ bulkBuyAccess st' = bulkBuyAccess st
  /\ bulkBuyCartItems st' = bulkBuyCartItems st
  /\ bulkBuyRequests st' = bulkBuyRequests st.

(** ** A text runtime for the worked examples

    [toLowerCase] on the code units below 256: the letters A to Z and the
    accented capitals of Latin-1. *)
Definition lowerChar (c : ascii) : ascii :=
  let n := nat_of_ascii c in
  if ((65 <=? n) && (n <=? 90)
      || (192 <=? n) && (n <=? 222) && negb (n =? 215))%nat
  then ascii_of_nat (n + 32) else c.

Fixpoint lowerText (s : string) : string :=
  match s with
  | EmptyString => EmptyString
  | String c rest => String (lowerChar c) (lowerText rest)
  end.

Definition latin1 : JSText := {| toLowerCase := lowerText |}.

(** A key no row of the table has: the shortest text of [x]s that is free. *)
Definition nextKey (m : gmap string Employee) : string :=
  fresh (dom m).

(** A sheet of two rows: alice, on file, with a balance of [-40], and a
    newcomer. *)
Definition sheet : list ImportRow :=
  [mkImportRow (JStr " Alice@Example.com ") (JNum (Fin (-40))) JUndefined
     JUndefined JUndefined;
   mkImportRow (JStr "carol@example.com") (JNum (Fin 10)) (JStr "yes")
     (JStr "Carol") (JStr "Jones")].

(* ===================================================================== *)
(** * Properties *)

(** ** Numbers *)

Lemma Qle_bool_false (p q : Q) : Qle_bool p q = false <-> (q < p)%Q.
Proof.
  split; intros Hpq.
  - apply Qnot_le_lt. intros Hle. apply Qle_bool_iff in Hle. congruence.
  - destruct (Qle_bool p q) eqn:E; [|reflexivity].
    apply Qle_bool_iff in E. lra.
Qed.

Lemma Qeq_bool_false (p q : Q) : Qeq_bool p q = false <-> ~ (p == q)%Q.
Proof.
  split.
  - apply Qeq_bool_neq.
  - intros Hne. destruct (Qeq_bool p q) eqn:E; [|reflexivity].
    apply Qeq_bool_iff in E. contradiction.
Qed.

(** Turn the boolean comparisons on rationals in the context and the goal
    into propositions. *)
Ltac qprop :=
  repeat match goal with
  | H : Qle_bool _ _ = true |- _ => apply Qle_bool_iff in H
  | H : Qle_bool _ _ = false |- _ => apply Qle_bool_false in H
  | H : Qeq_bool _ _ = true |- _ => apply Qeq_bool_iff in H
  | H : Qeq_bool _ _ = false |- _ => apply Qeq_bool_false in H
  | H : negb _ = true |- _ => apply negb_true_iff in H
  | H : negb _ = false |- _ => apply negb_false_iff in H
  | |- Qle_bool _ _ = true => apply Qle_bool_iff
  | |- Qle_bool _ _ = false => apply Qle_bool_false
  | |- Qeq_bool _ _ = true => apply Qeq_bool_iff
  | |- Qeq_bool _ _ = false => apply Qeq_bool_false
  | |- negb _ = true => apply negb_true_iff
  | |- negb _ = false => apply negb_false_iff
  end.

Lemma num_of_Z_add (a b : Z) :
  num_add (num_of_Z a) (num_of_Z b) = num_of_Z (a + b).
Proof.
  unfold num_of_Z, inject_Z, num_add, Qplus. simpl.
  now rewrite !Z.mul_1_r.
Qed.

Lemma num_of_Z_sub (a b : Z) :
  num_sub (num_of_Z a) (num_of_Z b) = num_of_Z (a - b).
Proof.
  unfold num_sub, num_of_Z, inject_Z, num_add, num_neg, Qplus, Qopp. simpl.
  rewrite !Z.mul_1_r. reflexivity.
Qed.

Lemma num_of_Z_mul (a b : Z) :
  num_mul (num_of_Z a) (num_of_Z b) = num_of_Z (a * b).
Proof. reflexivity. Qed.

Lemma toInteger_of_Z (z : Z) : toInteger (num_of_Z z) = Some z.
Proof.
  unfold toInteger, num_of_Z. rewrite Qfloor_Z.
  now rewrite (proj2 (Qeq_bool_iff _ _) (Qeq_refl _)).
Qed.

(** ** Sorting with a comparator *)

Section Sorting.
Context {A : Type} (cmp : A -> A -> number) (R : A -> A -> Prop)
  (P : A -> Prop).
Hypothesis cmp_le : forall x y, P x -> P y ->
  num_gt (cmp x y) (Fin 0) = false -> R x y.
Hypothesis cmp_gt : forall x y, P x -> P y ->
  num_gt (cmp x y) (Fin 0) = true -> R y x.
Hypothesis R_trans : forall x y z, P x -> P y -> P z ->
  R x y -> R y z -> R x z.

Lemma sortInsert_perm (x : A) (l : list A) :
  Permutation (sortInsert cmp x l) (x :: l).
Proof.
  induction l as [|y l IH]; cbn [sortInsert]; [reflexivity|].
  destruct (num_gt (cmp x y) (Fin 0)); [|reflexivity].
  rewrite IH. apply perm_swap.
Qed.

Lemma Array_sort_perm (l : list A) : Permutation (Array_sort cmp l) l.
Proof.
  induction l as [|x l IH]; simpl; [reflexivity|].
  unfold Array_sort in *. simpl. rewrite sortInsert_perm. now rewrite IH.
Qed.

Lemma sortInsert_sorted (x : A) (l : list A) :
  P x -> Forall P l -> StronglySorted R l ->
  StronglySorted R (sortInsert cmp x l).
Proof.
  intros Px Pl Hs. induction Hs as [|y l Hs IH Hy]; cbn [sortInsert].
  - constructor; constructor.
  - inversion Pl as [|? ? Py Pl']; subst.
    destruct (num_gt (cmp x y) (Fin 0)) eqn:E.
    + constructor; [now apply IH|].
      rewrite (sortInsert_perm x l). constructor; [now apply cmp_gt|exact Hy].
    + assert (Rxy : R x y) by now apply cmp_le.
      constructor; [now constructor|].
      constructor; [exact Rxy|].
      rewrite Forall_forall in Hy, Pl' |- *.
      intros z Hz. apply (R_trans x y z); auto.
Qed.

Lemma Array_sort_sorted (l : list A) :
  Forall P l -> StronglySorted R (Array_sort cmp l).
Proof.
  induction 1 as [|x l Px Pl IH]; simpl; [constructor|].
  unfold Array_sort in *. simpl.
  apply sortInsert_sorted; auto.
  change (Forall P (Array_sort cmp l)). now rewrite Array_sort_perm.
Qed.

End Sorting.

(** ** The slab normalizer *)

Lemma compareSlabs_le (a b : PriceSlabRange) :
  validSlab a -> validSlab b ->
  num_gt (compareSlabs a b) (Fin 0) = false -> slabLe a b.
Proof.
  destruct a as [[p| | |] ma pa], b as [[q| | |] mb pb];
    intros [Ha Ha'] [Hb Hb']; simpl in *; try discriminate.
  unfold compareSlabs, slabLe, num_gt, num_sub. simpl.
  destruct (Qeq_bool (p + - q) 0) eqn:E; simpl.
  - intros H. right. qprop. split; [qprop; lra|].
    destruct ma as [[m| | |]|], mb as [[m'| | |]|]; simpl in *;
      try discriminate; try reflexivity; qprop; lra.
  - intros H. left. qprop. lra.
Qed.

Lemma compareSlabs_gt (a b : PriceSlabRange) :
  validSlab a -> validSlab b ->
  num_gt (compareSlabs a b) (Fin 0) = true -> slabLe b a.
Proof.
  destruct a as [[p| | |] ma pa], b as [[q| | |] mb pb];
    intros [Ha Ha'] [Hb Hb']; simpl in *; try discriminate.
  unfold compareSlabs, slabLe, num_gt, num_sub. simpl.
  destruct (Qeq_bool (p + - q) 0) eqn:E; simpl.
  - intros H. right. qprop. split; [qprop; lra|].
    destruct ma as [[m| | |]|], mb as [[m'| | |]|]; simpl in *;
      try discriminate; try reflexivity; qprop; lra.
  - intros H. left. qprop. lra.
Qed.

Lemma slabLe_trans (a b c : PriceSlabRange) :
  validSlab a -> validSlab b -> validSlab c ->
  slabLe a b -> slabLe b c -> slabLe a c.
Proof.
  destruct a as [[p| | |] ma pa], b as [[q| | |] mb pb],
    c as [[r| | |] mc pc];
    intros [Ha Ha'] [Hb Hb'] [Hc Hc']; simpl in *; try discriminate.
  unfold slabLe; simpl.
  intros [H1|[H1 H1']] [H2|[H2 H2']]; qprop.
  - left. qprop. lra.
  - left. qprop. lra.
  - left. qprop. lra.
  - right. split; [qprop; lra|].
    destruct ma as [[m| | |]|], mb as [[m'| | |]|], mc as [[m''| | |]|];
      simpl in *; try discriminate; try reflexivity; qprop; lra.
Qed.

Lemma checkSlabs_valid `{JSRuntime} (l : list PriceSlabRange) :
  Forall (fun s => retained s = true) l ->
  checkSlabs l = None -> Forall validSlab l.
Proof.
  induction 1 as [|s l Hs Hl IH]; simpl; [constructor|].
  destruct (checkSlab s) eqn:E; [discriminate|]. intros Hrest.
  constructor; [|now apply IH].
  unfold retained in Hs. apply andb_true_iff in Hs as [Hs _].
  apply andb_true_iff in Hs as [Hfin _].
  split; [exact Hfin|].
  unfold checkSlab in E.
  destruct (negb (isFinite (StringToNumber (price s)))
            || num_lt (StringToNumber (price s)) (Fin 0)); [discriminate|].
  destruct (maxQty s) as [m|]; [|exact I].
  destruct (isFinite m); [reflexivity|discriminate].
Qed.

Lemma cleanSlabs_retained `{JSRuntime} (arr : list RawSlab) :
  Forall (fun s => retained s = true) (cleanSlabs arr).
Proof.
  unfold cleanSlabs. apply List.Forall_forall. intros s Hs.
  apply (proj2 (list_elem_of_In _ _)) in Hs.
  apply list_elem_of_filter in Hs. tauto.
Qed.

Lemma overlap_sym (a b : PriceSlabRange) : overlap a b = overlap b a.
Proof. unfold overlap. apply andb_comm. Qed.

Lemma anyOverlap_false (l : list PriceSlabRange) :
  anyOverlap l = false ->
  forall (i j : nat) a b, (i < j)%nat ->
    l !! i = Some a -> l !! j = Some b -> overlap a b = false.
Proof.
  induction l as [|x l IH]; simpl; intros Hno i j a b Hij Hi Hj.
  - rewrite lookup_nil in Hi. discriminate.
  - apply orb_false_iff in Hno as [Hx Hl].
    destruct j as [|j]; [lia|]. simpl in Hj.
    destruct i as [|i]; simpl in Hi.
    + injection Hi as ->.
      destruct (overlap a b) eqn:E; [|reflexivity].
      assert (existsb (overlap a) l = true); [|congruence].
      apply existsb_exists. exists b. split; [|exact E].
      apply list_elem_of_In, list_elem_of_lookup. eauto.
    + apply (IH Hl i j); auto. lia.
Qed.



Lemma pairwise_of_ordered (l : list PriceSlabRange) :
  (forall (i j : nat) a b, (i < j)%nat ->
     l !! i = Some a -> l !! j = Some b -> overlap a b = false) ->
  forall (i j : nat) a b, i <> j ->
    l !! i = Some a -> l !! j = Some b -> overlap a b = false.
Proof.
  intros Hord i j a b Hij Hi Hj.
  destruct (Nat.lt_ge_cases i j) as [Hlt|Hge].
  - now apply (Hord i j).
  - rewrite overlap_sym. apply (Hord j i); auto. lia.
Qed.




(** ** The unit price resolver *)

Lemma slabLe_not_gt (a b : PriceSlabRange) :
  validSlab a -> validSlab b -> slabLe a b ->
  num_gt (compareSlabs a b) (Fin 0) = false.
Proof.
  destruct a as [[p| | |] ma pa], b as [[q| | |] mb pb];
    intros [Ha Ha'] [Hb Hb']; simpl in *; try discriminate.
  unfold compareSlabs, slabLe, num_gt, num_sub. simpl.
  intros [Hlt|[Heq Hle]]; qprop.
  - destruct (Qeq_bool (p + - q) 0) eqn:E; simpl; qprop; lra.
  - assert (E : Qeq_bool (p + - q) 0 = true) by (qprop; lra).
    rewrite E. simpl.
    destruct ma as [[m| | |]|], mb as [[m'| | |]|]; simpl in *;
      try discriminate; try reflexivity; qprop; lra.
Qed.

Lemma Array_sort_sorted_id (l : list PriceSlabRange) :
  Forall validSlab l -> StronglySorted slabLe l ->
  Array_sort compareSlabs l = l.
Proof.
  intros Hv Hs. induction Hs as [|x l Hs IH Hx]; [reflexivity|].
  inversion Hv as [|? ? Vx Vl]; subst.
  unfold Array_sort in *. cbn [foldr]. rewrite (IH Vl).
  destruct l as [|y l]; [reflexivity|]. cbn [sortInsert].
  inversion Hx as [|? ? Hxy _]; subst. inversion Vl as [|? ? Vy _]; subst.
  now rewrite (slabLe_not_gt x y Vx Vy Hxy).
Qed.

Lemma slabMatches_contains (q : number) (s : PriceSlabRange) :
  validSlab s -> slabMatches q s = contains s q.
Proof.
  intros [Hfin _]. unfold slabMatches, contains, num_ge. now rewrite Hfin.
Qed.

Lemma find_ext_Forall {A} (f g : A -> bool) (P : A -> Prop) (l : list A) :
  (forall x, P x -> f x = g x) -> Forall P l -> List.find f l = List.find g l.
Proof.
  intros Hfg. induction 1 as [|x l Px Pl IH]; simpl; [reflexivity|].
  rewrite (Hfg x Px), IH. reflexivity.
Qed.

Lemma parsesToPrice_guard `{JSRuntime} (text : string) (base : number) :
  (let slabPrice := StringToNumber text in
   if negb (isFinite slabPrice) || num_lt slabPrice (Fin 0) then base
   else slabPrice)
  = default base (parsesToPrice text).
Proof.
  unfold parsesToPrice, num_ge. cbv zeta.
  destruct (StringToNumber text) as [p| | |]; simpl; try reflexivity.
  now destruct (Qle_bool 0 p).
Qed.

(** C6.  On a product whose slabs are as the normalizer leaves them (finite
    lower bounds, ascending order), [getUnitPriceForQty] is the resolver of
    the specification: the base price when there are no slabs; otherwise the
    price of the first slab in ascending order whose interval contains the
    quantity, when that price parses to a finite number [>= 0]; the base
    price when no slab contains the quantity or the price does not parse.
    With tiers 1-9 at 100 and 10 and up at 80 over a base price of 120,
    quantities 5 and 9 cost 100 and quantity 10 costs 80. *)
Theorem getUnitPriceForQty_spec :
  (forall (rt : JSRuntime) (product : Product) (q : number),
     Forall validSlab (default [] (p_priceSlabs product)) ->
     StronglySorted slabLe (default [] (p_priceSlabs product)) ->
     getUnitPriceForQty product q = resolvePrice product q)
  /\ @getUnitPriceForQty plainDecimals tiered (num_of_Z 5) = Fin 100
  /\ @getUnitPriceForQty plainDecimals tiered (num_of_Z 9) = Fin 100
  /\ @getUnitPriceForQty plainDecimals tiered (num_of_Z 10) = Fin 80.
Proof.
  split; [|repeat split; reflexivity].
  intros rt product q Hv Hs.
  unfold getUnitPriceForQty, resolvePrice. cbv zeta.
  change (match p_priceSlabs product with Some l => l | None => [] end)
    with (default [] (p_priceSlabs product)).
  destruct (default [] (p_priceSlabs product)) as [|s slabs] eqn:E;
    [reflexivity|].
  rewrite (Array_sort_sorted_id _ Hv Hs).
  rewrite (find_ext_Forall (slabMatches q) (fun s => contains s q) validSlab
             (s :: slabs) (slabMatches_contains q) Hv).
  destruct (List.find _ (s :: slabs)) as [m|]; [|reflexivity].
  apply parsesToPrice_guard.
Qed.

Lemma getUnitPriceForQty_spec_witness :
  @getUnitPriceForQty plainDecimals tiered (num_of_Z 7)
  = @resolvePrice plainDecimals tiered (num_of_Z 7).
Proof.
  apply (proj1 getUnitPriceForQty_spec plainDecimals tiered (num_of_Z 7)).
  - repeat constructor.
  - repeat constructor.
Defined.

(** ** The commit loop *)

Section Commit.
Context `{JSRuntime} (now : Date) (employeeId : string) (inrPerPoint : number)
  (stamp : number -> number -> OrderMetadata).

Lemma decrement_step (p : Product) (q : Z) (rest : option Z) :
  decrement rest (withStock (stockOr0 p - q) p)
  = decrement (Some (q + default 0 rest)) p.
Proof.
  destruct rest as [r|]; unfold decrement, withStock, stockOr0; simpl;
    f_equal; f_equal; lia.
Qed.

Lemma priceOf_step (st : Store) (productId : string) (v : Z) (row : Order)
  (item : CartItem) :
  priceOf (set_orders (fun l => (l ++ [row])%list) (updateProduct productId v st))
    item
  = priceOf st item.
Proof.
  unfold priceOf, getProduct. simpl. rewrite lookup_alter.
  destruct (decide (productId = c_productId item)) as [->|Hne];
    [|reflexivity].
  now destruct (products st !! c_productId item).
Qed.

Lemma present_step (st : Store) (productId : string) (v : Z) (row : Order)
  (item : CartItem) :
  present (set_orders (fun l => (l ++ [row])%list) (updateProduct productId v st))
    item
  <-> present st item.
Proof.
  unfold present. simpl. rewrite lookup_alter.
  destruct (decide (productId = c_productId item)) as [->|Hne];
    [|reflexivity].
  rewrite fmap_is_Some. reflexivity.
Qed.

Lemma commitOrders_effect (items : list CartItem) :
  forall (st : Store) (acc placed : list (Order * Product)) (st' : Store),
    commitOrders now employeeId inrPerPoint stamp items st acc = (placed, st') ->
    exists new,
      placed = (acc ++ new)%list
      /\ (forall productId,
            products st' !! productId
            = decrement (orderedQuantity productId items)
                <$> products st !! productId)
      /\ orders st' = (orders st ++ map fst new)%list
      /\ Forall2
           (fun item op =>
              fst op
              = orderFor now employeeId inrPerPoint stamp st
                  (o_orderId (fst op)) item)
           (filter (present st) items) new
      /\ employees st' = employees st
      /\ cartItems st' = cartItems st
      /\ sessions st' = sessions st
      /\ branding st' = branding st
      /\ campaigns st' = campaigns st
      /\ campaignProducts st' = campaignProducts st
      /\ bulkBuyAccess st' = bulkBuyAccess st
      /\ bulkBuyCartItems st' = bulkBuyCartItems st
      /\ bulkBuyRequests st' = bulkBuyRequests st.
Proof.
  induction items as [|item rest IH]; intros st acc placed st' Hrun.
  - simpl in Hrun. injection Hrun as <- <-. exists [].
    rewrite app_nil_r. simpl. rewrite app_nil_r.
    split; [reflexivity|]. split.
    { intros k. now destruct (products st !! k). }
    split; [reflexivity|]. split; [constructor|]. tauto.
  - cbn [commitOrders] in Hrun. unfold getProduct in Hrun.
    destruct (products st !! c_productId item) as [p|] eqn:Hp.
    + unfold createOrder in Hrun. cbv zeta in Hrun.
      match type of Hrun with
      | commitOrders _ _ _ _ _ (set_orders (fun l => (l ++ [?r])%list) _) _ = _ =>
          set (row := r) in *
      end.
      apply IH in Hrun as (new & -> & Hprod & Hord & Hall & Hframe).
      exists ((row, p) :: new). split.
      { now rewrite <- app_assoc. }
      split.
      { intros k. rewrite Hprod. simpl. rewrite lookup_alter.
        unfold string_eqb.
        destruct (decide (c_productId item = k)) as [<-|Hne].
        - rewrite bool_decide_eq_true_2 by reflexivity.
          rewrite Hp. simpl. f_equal. apply decrement_step.
        - now rewrite bool_decide_eq_false_2 by exact Hne. }
      split.
      { rewrite Hord. simpl. now rewrite <- app_assoc. }
      split.
      { rewrite filter_cons_True by (unfold present; rewrite Hp; eauto).
        constructor.
        - simpl. unfold row, orderFor, priceOf, getProduct, perUnitPoints.
          rewrite Hp. reflexivity.
        - rewrite (list_filter_iff _ (present st)) in Hall
            by (intros x; apply present_step).
          eapply Forall2_impl; [exact Hall|].
          intros x op ->. unfold orderFor. now rewrite priceOf_step. }
      simpl in Hframe. exact Hframe.
    + apply IH in Hrun as (new & -> & Hprod & Hord & Hall & Hframe).
      exists new. split; [reflexivity|]. split.
      { intros k. rewrite Hprod. simpl. unfold string_eqb.
        destruct (decide (c_productId item = k)) as [<-|Hne].
        - rewrite Hp. reflexivity.
        - now rewrite bool_decide_eq_false_2 by exact Hne. }
      split; [exact Hord|]. split; [|exact Hframe].
      rewrite filter_cons_False; [exact Hall|].
      unfold present. rewrite Hp. intros [? ?]. discriminate.
Qed.

End Commit.

(** ** The points loop *)

Lemma requiredPoints_total `{JSRuntime} (st : Store) (inrPerPoint : number)
  (items : list CartItem) :
  forall acc total,
    requiredPoints st inrPerPoint items acc = inr total ->
    total
    = fold_left num_add
        (map (fun item =>
                perUnitPoints (priceOf st item) inrPerPoint (c_quantity item))
           items)
        acc
    /\ Forall (inStock st) items.
Proof.
  induction items as [|item rest IH]; intros acc total Hrun; simpl in Hrun.
  - injection Hrun as <-. split; [reflexivity|constructor].
  - destruct (getProduct st (c_productId item)) as [p|] eqn:Hp;
      [|discriminate].
    destruct (stockOr0 p <? c_quantity item) eqn:Hstock; [discriminate|].
    apply IH in Hrun as (-> & Hst).
    split.
    + assert (Hprice : priceOf st item
                       = getUnitPriceForQty p (num_of_Z (c_quantity item)))
        by (unfold priceOf; now rewrite Hp).
      cbn [map fold_left]. rewrite Hprice. reflexivity.
    + constructor; [|exact Hst]. exists p. split; [exact Hp|].
      apply Z.ltb_ge in Hstock. lia.
Qed.

Lemma requiredPoints_sum `{JSRuntime} (st : Store) (inrPerPoint : number)
  (items : list CartItem) :
  Forall (inStock st) items ->
  forall acc,
    requiredPoints st inrPerPoint items acc
    = inr
        (fold_left num_add
           (map (fun item =>
                   perUnitPoints (priceOf st item) inrPerPoint (c_quantity item))
              items)
           acc).
Proof.
  induction 1 as [|item rest (p & Hp & Hstock) Hrest IH]; intros acc;
    [reflexivity|].
  cbn [requiredPoints map fold_left]. unfold priceOf at 2. rewrite Hp.
  rewrite (proj2 (Z.ltb_ge _ _) Hstock). apply IH.
Qed.

Lemma inStock_present (st : Store) (items : list CartItem) :
  Forall (inStock st) items -> Forall (present st) items.
Proof.
  apply List.Forall_impl. intros item (p & Hp & _).
  unfold present. unfold getProduct in Hp. rewrite Hp. eauto.
Qed.

Lemma selectionLimitReached_iff (st : Store) (employeeId : string) :
  selectionLimitReached (maxSelectionsOf (getBranding st))
    (getOrdersByEmployeeId st employeeId) (getCartItems st employeeId) = true
  <-> overSelectionLimit st employeeId.
Proof.
  unfold selectionLimitReached, overSelectionLimit.
  rewrite andb_true_iff, negb_true_iff, Z.eqb_neq, Z.ltb_lt. lia.
Qed.

Lemma num_add_finite (a b : number) :
  isFinite (num_add a b) = true -> isFinite a = true /\ isFinite b = true.
Proof. destruct a, b; simpl; intros; try discriminate; auto. Qed.

Lemma fold_num_add_finite (l : list number) :
  forall a, isFinite (fold_left num_add l a) = true ->
            isFinite a = true /\ Forall (fun x => isFinite x = true) l.
Proof.
  induction l as [|x l IH]; simpl; intros a Hfin; [split; [exact Hfin|constructor]|].
  apply IH in Hfin as [Hax Hl]. apply num_add_finite in Hax as [Ha Hx].
  split; [exact Ha|]. constructor; assumption.
Qed.

Lemma perUnitPoints_integer (unitPrice inrPerPoint : number) (quantity : Z) :
  isFinite (perUnitPoints unitPrice inrPerPoint quantity) = true ->
  exists z, perUnitPoints unitPrice inrPerPoint quantity = num_of_Z z.
Proof.
  unfold perUnitPoints.
  destruct (num_div unitPrice inrPerPoint) as [x| | |]; simpl.
  - intros _. eexists. apply num_of_Z_mul.
  - unfold signedInf. destruct (_ =? 0); [discriminate|].
    destruct (0 <? _); discriminate.
  - unfold signedInf. destruct (_ =? 0); [discriminate|].
    destruct (0 <? _); discriminate.
  - discriminate.
Qed.

Lemma fold_num_add_integer (l : list number) :
  Forall (fun x => exists z, x = num_of_Z z) l ->
  forall a, exists T, fold_left num_add l (num_of_Z a) = num_of_Z T.
Proof.
  induction 1 as [|x l [z ->] Hl IH]; cbn [fold_left]; intros a; [eauto|].
  rewrite num_of_Z_add. apply IH.
Qed.

Lemma sumPoints_integer `{JSRuntime} (st : Store) (inrPerPoint : number)
  (items : list CartItem) :
  isFinite (sumPoints st inrPerPoint items) = true ->
  exists T, sumPoints st inrPerPoint items = num_of_Z T.
Proof.
  unfold sumPoints. intros Hfin.
  apply fold_num_add_finite in Hfin as [_ Hall].
  apply (fold_num_add_integer _) with (a := 0).
  rewrite List.Forall_map in Hall |- *.
  eapply List.Forall_impl; [|exact Hall].
  intros item. apply perUnitPoints_integer.
Qed.

Lemma filter_all {A} (P : A -> Prop) `{forall x, Decision (P x)} (l : list A) :
  Forall P l -> filter P l = l.
Proof.
  induction 1 as [|x l Px Pl IH]; [reflexivity|].
  rewrite filter_cons_True by exact Px. now rewrite IH.
Qed.

(** ** The points checkout *)

Lemma length_eqb_0 {A} (l : list A) : l <> [] -> (length l =? 0)%nat = false.
Proof. destruct l; [congruence|reflexivity]. Qed.

Lemma validated_total `{JSRuntime} st token session employee total :
  validated st token session employee total ->
  total
  = sumPoints st (inrPerPointOf (getBranding st))
      (getCartItems st (s_employeeId session))
  /\ Forall (present st) (getCartItems st (s_employeeId session)).
Proof.
  intros (_ & _ & _ & _ & Hstock & Htotal).
  split; [exact Htotal|now apply inStock_present].
Qed.

(** The preconditions are what the handlers' checks test. *)
Lemma validated_passes `{JSRuntime} st token session employee total :
  validated st token session employee total <->
  (exists t, nonEmpty token = Some t /\ getSession st t = Some session)
  /\ getEmployee st (s_employeeId session) = Some employee
  /\ getCartItems st (s_employeeId session) <> []
  /\ selectionLimitReached (maxSelectionsOf (getBranding st))
       (getOrdersByEmployeeId st (s_employeeId session))
       (getCartItems st (s_employeeId session)) = false
  /\ requiredPoints st (inrPerPointOf (getBranding st))
       (getCartItems st (s_employeeId session)) (Fin 0) = inr total.
Proof.
  unfold validated. split.
  - intros (Hsess & Hemp & Hne & Hsel & Hstock & ->).
    split; [exact Hsess|]. split; [exact Hemp|]. split; [exact Hne|]. split.
    + destruct (selectionLimitReached _ _ _) eqn:E; [|reflexivity].
      apply selectionLimitReached_iff in E. contradiction.
    + now apply requiredPoints_sum.
  - intros (Hsess & Hemp & Hne & Hsel & Hreq).
    apply requiredPoints_total in Hreq as (Htotal & Hstock).
    split; [exact Hsess|]. split; [exact Hemp|]. split; [exact Hne|].
    split; [|split; [exact Hstock|exact Htotal]].
    intros Hover. apply selectionLimitReached_iff in Hover. congruence.
Qed.

Lemma covered_not_lt (points : Z) (total : number) :
  isFinite total = true ->
  num_ge (num_of_Z points) total = true ->
  num_lt (num_of_Z points) total = false.
Proof.
  destruct total as [q| | |]; try discriminate. intros _.
  unfold num_ge, num_le, num_lt, num_of_Z. now intros ->.
Qed.

(** The points checkout past its checks, whatever is served in between. *)
Lemma post_orders_among_commits `{JSRuntime} (others : Store -> Store)
  (now : Date) (req : CheckoutRequest) (st : Store) (session : Session)
  (employee : Employee) (total : number) :
  validated st (rq_token req) session employee total ->
  num_lt (num_of_Z (e_points employee)) total = false ->
  isFinite total = true ->
  exists T placed st',
    total = num_of_Z T
    /\ post_orders_among others now req st
       = (json (OrdersBody placed (getEmployee st' (s_employeeId session))), st')
    /\ checkedOut now (s_employeeId session) (inrPerPointOf (getBranding st))
         (pointsStamp req) (getCartItems st (s_employeeId session))
         (e_points employee - T) placed (others st) st'.
Proof.
  intros Hval Hlt Hfin.
  destruct (validated_total _ _ _ _ _ Hval) as [Htotal _].
  destruct (proj1 (validated_passes _ _ _ _ _) Hval)
    as ((t & Htok & Hsess) & Hemp & Hne & Hsel & Hreq).
  assert (HT : exists T, total = num_of_Z T).
  { rewrite Htotal in Hfin |- *. now apply sumPoints_integer. }
  destruct HT as [T ->].
  unfold post_orders_among. rewrite Htok, Hsess, Hemp. cbv zeta.
  rewrite (length_eqb_0 _ Hne), Hsel, Hreq, Hlt.
  destruct (commitOrders _ _ _ _ _ (others st) []) as [placed st1] eqn:Hrun.
  apply commitOrders_effect in Hrun
    as (new & -> & Hprod & Hord & Hall & Hemps & Hcart & Hframe).
  unfold updateEmployee. rewrite num_of_Z_sub, toInteger_of_Z.
  exists T, new. eexists. split; [reflexivity|]. split; [reflexivity|].
  unfold checkedOut. simpl. rewrite Hemps, Hcart.
  split; [exact Hprod|]. split; [exact Hord|]. split; [exact Hall|].
  split; [reflexivity|]. split; [reflexivity|]. exact Hframe.
Qed.

(** ** The co-pay checkout *)

Lemma paymentVerified_passes config result req txnId :
  paymentVerified config result req txnId ->
  txnIdOf req = Some txnId
  /\ (exists m k, nonEmpty (merchantId config) = Some m
                  /\ nonEmpty (saltKey config) = Some k)
  /\ negb (st_ok result) || negb (st_success result)
     || negb (bool_decide (st_code result = Some "PAYMENT_SUCCESS")) = false.
Proof.
  intros (Htxn & [m Hm] & [k Hk] & -> & -> & ->).
  split; [exact Htxn|]. split; [eauto|]. reflexivity.
Qed.



Lemma checkedOut_employee `{JSRuntime} now employeeId inr stamp items
  balance placed st st' employee :
  checkedOut now employeeId inr stamp items balance placed st st' ->
  getEmployee st employeeId = Some employee ->
  getEmployee st' employeeId = Some (withPoints balance employee).
Proof.
  intros (_ & _ & _ & Hemp & _) Hget. unfold getEmployee in *.
  rewrite Hemp, lookup_alter. rewrite decide_True by reflexivity.
  now rewrite Hget.
Qed.



Lemma validated_alice :
  @validated plainDecimals shop (Some "tok1") (mkSession "e1") alice
    (num_of_Z 150).
Proof.
  split; [exists "tok1"; split; reflexivity|].
  split; [reflexivity|]. split; [vm_compute; discriminate|].
  split; [intros [Hlimit _]; now apply Hlimit|].
  split; [|reflexivity].
  repeat constructor. exists tiered. split; [reflexivity|].
  vm_compute. discriminate.
Defined.


Lemma paymentVerified_bob (paise : Z) :
  paymentVerified gateway (paid paise) bobVerify "TXN_1".
Proof.
  split; [reflexivity|]. split; [vm_compute; eauto|].
  split; [vm_compute; eauto|]. repeat split; reflexivity.
Defined.


(** ** Points accounting *)




(** ** The co-pay path: wrong path, deficit, exact amount *)






(** ** The selection limit *)

Lemma requiredPoints_unavailable `{JSRuntime} st inr items :
  forall acc response,
    requiredPoints st inr items acc = inl response ->
    exists p productId, response = unavailable p productId.
Proof.
  induction items as [|item rest IH]; intros acc response; simpl;
    [discriminate|].
  destruct (getProduct st (c_productId item)) as [p|];
    [|intros [= <-]; eauto].
  destruct (stockOr0 p <? c_quantity item); [intros [= <-]; eauto|]. apply IH.
Qed.

Lemma unavailable_not_selection p productId :
  unavailable p productId <> selectionLimitError.
Proof. unfold unavailable, selectionLimitError, fail. intros [=]. Qed.

Lemma snapshotCart_products `{JSRuntime} (st1 st2 : Store) cart :
  products st1 = products st2 ->
  forall total itemsSnap,
    snapshotCart st1 cart total itemsSnap = snapshotCart st2 cart total itemsSnap.
Proof.
  intros Hp. induction cart as [|it rest IH]; intros total itemsSnap; simpl;
    [reflexivity|].
  unfold getProduct. rewrite Hp.
  destruct (products st2 !! bc_productId it) as [p|]; [|apply IH].
  destruct (negb (bool_decide (p_bulkBuy p = Some true))); [apply IH|].
  destruct (stockOr0 p <? bc_quantity it); [reflexivity|]. apply IH.
Qed.

Lemma snapshotCart_rejects `{JSRuntime} (st : Store) cart :
  forall total itemsSnap response,
    snapshotCart st cart total itemsSnap = inl response ->
    exists name, response = fail 400 ("Product unavailable: " ++ name).
Proof.
  induction cart as [|it rest IH]; intros total itemsSnap response; simpl;
    [discriminate|].
  destruct (getProduct st (bc_productId it)) as [p|]; [|apply IH].
  destruct (negb (bool_decide (p_bulkBuy p = Some true))); [apply IH|].
  destruct (stockOr0 p <? bc_quantity it); [|apply IH].
  intros [= <-]. eauto.
Qed.

Lemma requireBulkBuyAccess_rejects (st : Store) token response :
  requireBulkBuyAccess st token = inl response ->
  status response = 401 \/ status response = 404 \/ status response = 403.
Proof.
  unfold requireBulkBuyAccess.
  destruct (nonEmpty token); [|intros [= <-]; now left].
  destruct (getSession st _) as [session|]; [|intros [= <-]; now left].
  destruct (getEmployee st _) as [e|]; [|intros [= <-]; right; now left].
  destruct (_ && _); [intros [= <-]; right; now right|discriminate].
Qed.

(** C7.  On the points checkout and on both handlers of the co-pay path, an
    authenticated request with a non-empty cart (for [verify-copay]: and a
    verified payment) is rejected with the selection-limit error, the store
    untouched, whenever the employee's historical orders plus the incoming
    cart items exceed [maxSelectionsPerUser] and that limit is not [-1]; the
    error is given in no other case, so [-1] never rejects.  The bulk-buy
    submissions never give it, and their answers do not depend on the
    branding row or on the order history at all. *)
Theorem selection_limit :
  (forall (rt : JSRuntime) now req st session employee,
     authenticated st (rq_token req) session employee ->
     (overSelectionLimit st (s_employeeId session) ->
      post_orders now req st = (selectionLimitError, st))
     /\ (fst (post_orders now req st) = selectionLimitError ->
         overSelectionLimit st (s_employeeId session)))
  /\ (forall (rt : JSRuntime) config pay now req st session employee,
        authenticated st (rq_token req) session employee ->
        (overSelectionLimit st (s_employeeId session) ->
         post_create_copay_order config pay now req st
         = (selectionLimitError, st))
        /\ (fst (post_create_copay_order config pay now req st)
            = selectionLimitError ->
            overSelectionLimit st (s_employeeId session)))
  /\ (forall (rt : JSRuntime) config result now req st txnId session employee,
        paymentVerified config result req txnId ->
        authenticated st (vr_token req) session employee ->
        (overSelectionLimit st (s_employeeId session) ->
         post_verify_copay config result now req st = (selectionLimitError, st))
        /\ (fst (post_verify_copay config result now req st)
            = selectionLimitError ->
            overSelectionLimit st (s_employeeId session)))
  /\ (forall (rt : JSRuntime) now req st b os,
        fst (post_bulkbuy_checkout now req (withHistory b os st))
        = fst (post_bulkbuy_checkout now req st)
        /\ fst (post_bulkbuy_checkout now req st) <> selectionLimitError)
  /\ (forall (rt : JSRuntime) now req st b os,
        fst (post_bulkbuy_request now req (withHistory b os st))
        = fst (post_bulkbuy_request now req st)
        /\ fst (post_bulkbuy_request now req st) <> selectionLimitError).
Proof.
  split; [|split; [|split; [|split]]].
  - intros rt now req st session employee ((t & Htok & Hsess) & Hemp & Hne).
    unfold post_orders, post_orders_among. rewrite Htok, Hsess, Hemp. cbv zeta.
    rewrite (length_eqb_0 _ Hne).
    destruct (selectionLimitReached _ _ _) eqn:Hsel.
    { split; [reflexivity|]. intros _. now apply selectionLimitReached_iff. }
    split.
    { intros Hover. apply selectionLimitReached_iff in Hover. congruence. }
    destruct (requiredPoints _ _ _ _) as [response|total] eqn:Hreq.
    { apply requiredPoints_unavailable in Hreq as (p & productId & ->).
      intros Hbad. now apply unavailable_not_selection in Hbad. }
    destruct (num_lt _ _); [intros [=]|].
    destruct (commitOrders _ _ _ _ _ _ _) as [placed st1].
    destruct (updateEmployee _ _ _); intros [=].
  - intros rt config pay now req st session employee
      ((t & Htok & Hsess) & Hemp & Hne).
    unfold post_create_copay_order. rewrite Htok, Hsess, Hemp. cbv zeta.
    rewrite (length_eqb_0 _ Hne).
    destruct (selectionLimitReached _ _ _) eqn:Hsel.
    { split; [reflexivity|]. intros _. now apply selectionLimitReached_iff. }
    split.
    { intros Hover. apply selectionLimitReached_iff in Hover. congruence. }
    destruct (requiredPoints _ _ _ _) as [response|total] eqn:Hreq.
    { apply requiredPoints_unavailable in Hreq as (p & productId & ->).
      intros Hbad. now apply unavailable_not_selection in Hbad. }
    destruct (num_ge _ _); [intros [=]|].
    destruct (nonEmpty (merchantId config)); [|intros [=]].
    destruct (nonEmpty (saltKey config)); [|intros [=]].
    destruct (nonEmpty (redirectBase config)); [|intros [=]].
    destruct (negb (pay_ok _) || negb (pay_success _)); [intros [=]|].
    destruct (nonEmpty (pay_url _)); intros [=].
  - intros rt config result now req st txnId session employee Hpay
      ((t & Htok & Hsess) & Hemp & Hne).
    apply paymentVerified_passes in Hpay as (Htxn & (m & k & Hm & Hk) & Hgate).
    unfold post_verify_copay.
    rewrite Htxn, Hm, Hk, Hgate, Htok, Hsess, Hemp. cbv zeta.
    rewrite (length_eqb_0 _ Hne).
    destruct (selectionLimitReached _ _ _) eqn:Hsel.
    { split; [reflexivity|]. intros _. now apply selectionLimitReached_iff. }
    split.
    { intros Hover. apply selectionLimitReached_iff in Hover. congruence. }
    destruct (requiredPoints _ _ _ _) as [response|total] eqn:Hreq.
    { apply requiredPoints_unavailable in Hreq as (p & productId & ->).
      intros Hbad. now apply unavailable_not_selection in Hbad. }
    destruct (num_ge _ _); [intros [=]|].
    destruct (negb (num_eqb _ _)); [intros [=]|].
    destruct (commitOrders _ _ _ _ _ _ _) as [placed st1].
    destruct (updateEmployee _ _ _); intros [=].
  - intros rt now req st b os. unfold post_bulkbuy_checkout.
    change (requireBulkBuyAccess (withHistory b os st) (bk_token req))
      with (requireBulkBuyAccess st (bk_token req)).
    destruct (requireBulkBuyAccess st (bk_token req))
      as [response|[employeeId employee]] eqn:Hacc.
    { split; [reflexivity|]. unfold requireBulkBuyAccess in Hacc.
      apply requireBulkBuyAccess_rejects in Hacc as [Hs|[Hs|Hs]];
        intros Hbad; simpl in Hbad; subst response; discriminate. }
    change (getBulkBuyCartItems (withHistory b os st) employeeId)
      with (getBulkBuyCartItems st employeeId).
    destruct (length _ =? 0)%nat; [now split|].
    rewrite (snapshotCart_products (withHistory b os st) st) by reflexivity.
    destruct (snapshotCart st _ _ _) as [response|[total itemsSnap]] eqn:Hsnap.
    { split; [reflexivity|].
      apply snapshotCart_rejects in Hsnap as [name ->]. intros [=]. }
    destruct (length itemsSnap =? 0)%nat; now split.
  - intros rt now req st b os. unfold post_bulkbuy_request.
    change (requireBulkBuyAccess (withHistory b os st) (bd_token req))
      with (requireBulkBuyAccess st (bd_token req)).
    destruct (requireBulkBuyAccess st (bd_token req))
      as [response|[employeeId employee]] eqn:Hacc.
    { split; [reflexivity|].
      apply requireBulkBuyAccess_rejects in Hacc as [Hs|[Hs|Hs]];
        intros Hbad; simpl in Hbad; subst response; discriminate. }
    unfold getProduct, createBulkBuyRequest.
    cbn [withHistory products bulkBuyRequests].
    repeat match goal with
           | |- context [match ?x with _ => _ end] => destruct x eqn:?
           end;
      (split; [reflexivity|intros [=]]).
Qed.

Lemma authenticated_limited (token employeeId : string) (employee : Employee) :
  getSession limitedShop token = Some (mkSession employeeId) ->
  getEmployee limitedShop employeeId = Some employee ->
  getCartItems limitedShop employeeId <> [] ->
  authenticated limitedShop (Some token) (mkSession employeeId) employee.
Proof.
  intros Hs He Hc. split; [exists token; split; [|exact Hs]|now split].
  destruct token; [discriminate|reflexivity].
Defined.

Lemma selection_limit_witness :
  @post_orders plainDecimals today aliceCheckout limitedShop
  = (selectionLimitError, limitedShop)
  /\ @post_create_copay_order plainDecimals gateway payPage today bobCheckout
       limitedShop
     = (selectionLimitError, limitedShop)
  /\ @post_verify_copay plainDecimals gateway (paid 10000) today bobVerify
       limitedShop
     = (selectionLimitError, limitedShop).
Proof.
  destruct selection_limit as (Hpoints & Hcreate & Hverify & _).
  split; [|split].
  - apply (Hpoints plainDecimals today aliceCheckout limitedShop
             (mkSession "e1") alice).
    + apply authenticated_limited; [reflexivity|reflexivity|].
      vm_compute. discriminate.
    + split; vm_compute; [discriminate|reflexivity].
  - apply (Hcreate plainDecimals gateway payPage today bobCheckout limitedShop
             (mkSession "e2") bob).
    + apply authenticated_limited; [reflexivity|reflexivity|].
      vm_compute. discriminate.
    + split; vm_compute; [discriminate|reflexivity].
  - apply (Hverify plainDecimals gateway (paid 10000) today bobVerify
             limitedShop "TXN_1" (mkSession "e2") bob).
    + apply paymentVerified_bob.
    + apply authenticated_limited; [reflexivity|reflexivity|].
      vm_compute. discriminate.
    + split; vm_compute; [discriminate|reflexivity].
Defined.

(** ** Bulk buy *)



(** ** Generated identifiers *)

(** C9.  An order identifier is [ORD-YYYY-NNN]: the current year and, zero
    padded to three digits, one more than the number of orders dated in that
    year.  A bulk-buy request identifier is [BBR-YYYY-NNNN] with the current
    year, but its number is one more than the count of all requests, of
    whatever year: with a single request of 2025 on file, the first request
    of 2026 is numbered [0002], where the first order of 2026 is numbered
    [001] with an order of 2025 on file. *)
Theorem request_id_counts_every_year :
  (forall now orderData st,
     o_orderId (fst (createOrder now orderData st))
     = "ORD-" ++ pretty (getFullYear now) ++ "-"
       ++ padStart0 3
            (pretty
               (Z.of_nat
                  (length (List.filter (orderInYear (getFullYear now)) (orders st)))
                + 1)))
  /\ (forall (rt : JSRuntime) now input st,
        br_requestId (fst (createBulkBuyRequest now input st))
        = "BBR-" ++ pretty (getFullYear now) ++ "-"
          ++ padStart0 4 (pretty (Z.of_nat (length (bulkBuyRequests st)) + 1)))
  /\ requestsInYear (getFullYear today) archive = []
  /\ br_requestId
       (fst (@createBulkBuyRequest plainDecimals today someBulkInput archive))
     = "BBR-2026-0002"
  /\ o_orderId (fst (createOrder today someOrder archive)) = "ORD-2026-001".
Proof. repeat split; reflexivity. Qed.

(** ** A product that disappears between validation and commit *)




(** ** Campaign limits *)

Lemma fold_usage {A} (P : A -> Prop) `{forall x, Decision (P x)}
  (q : A -> Z) (l : list A) :
  forall acc,
    fold_left (fun usage x => if bool_decide (P x) then usage + q x else usage)
      l acc
    = acc + foldr Z.add 0 (map q (filter P l)).
Proof.
  induction l as [|x l IH]; intros acc; simpl; [lia|].
  rewrite IH. destruct (decide (P x)) as [Px|Px].
  - rewrite bool_decide_eq_true_2 by exact Px.
    rewrite filter_cons_True by exact Px. simpl. lia.
  - rewrite bool_decide_eq_false_2 by exact Px.
    now rewrite filter_cons_False by exact Px.
Qed.

Lemma usageOfCampaign_sum (st : Store) (employeeId campaignId : string) :
  usageOfCampaign campaignId (getOrdersByEmployeeId st employeeId)
    (getCartItems st employeeId)
  = campaignUsage st employeeId campaignId.
Proof.
  unfold usageOfCampaign, campaignUsage.
  rewrite (fold_usage (fun c => c_campaignId c = Some campaignId)
             (fun c => qtyOr1 (c_quantity c))).
  rewrite (fold_usage (fun o => o_campaignId o = Some campaignId)
             (fun o => qtyOr1 (o_quantity o))).
  lia.
Qed.

Lemma campaignLimitReached_other (limit : Z) (name : string) (b : Body) :
  json b <> campaignLimitReached limit name.
Proof. intros [=]. Qed.

Lemma campaignLimitReached_stock (limit : Z) (name : string) :
  fail 400 "Insufficient stock" <> campaignLimitReached limit name.
Proof. intros [=]. Qed.

(** C3 (as amended).  Adding to the cart with a [campaignId] that names an
    existing, active campaign whose [maxProductsPerUser] is not null, the
    request having passed the checks that come first (session, employee,
    product, stock for the requested quantity): usage is the sum of
    [quantity] (1 for a quantity of 0) over the employee's orders whose
    [campaignId] is the campaign's, plus the same sum over the employee's
    cart items; the request is answered with the campaign-limit error, which
    names the cap and the campaign and changes nothing, if and only if
    [usage + requestedQuantity > maxProductsPerUser].  A request without
    [campaignId], or whose campaign is missing, not active or has a null
    [maxProductsPerUser], is never answered with that error.  Only the
    explicit [campaignId] field counts here: the answer does not depend on
    the product-to-campaign relation. *)
Theorem cart_campaign_limit :
  (forall newId token data st t session employee product campaignId campaign
          limit,
     nonEmpty token = Some t ->
     getSession st t = Some session ->
     getEmployee st (s_employeeId session) = Some employee ->
     getProduct st (d_productId data) = Some product ->
     default 1 (d_quantity data) <= stockOr0 product ->
     nonEmpty (d_campaignId data) = Some campaignId ->
     getCampaign st campaignId = Some campaign ->
     cmp_isActive campaign = Some true ->
     cmp_maxProductsPerUser campaign = Some limit ->
     (limit
      < campaignUsage st (s_employeeId session) campaignId
        + default 1 (d_quantity data) ->
      post_cart newId token data st
      = (campaignLimitReached limit (cmp_name campaign), st))
     /\ (campaignUsage st (s_employeeId session) campaignId
         + default 1 (d_quantity data) <= limit ->
         fst (post_cart newId token data st)
         <> campaignLimitReached limit (cmp_name campaign)))
  /\ (forall newId token data st limit name,
        (nonEmpty (d_campaignId data) = None
         \/ exists campaignId,
              nonEmpty (d_campaignId data) = Some campaignId
              /\ (getCampaign st campaignId = None
                  \/ exists campaign,
                       getCampaign st campaignId = Some campaign
                       /\ (cmp_isActive campaign <> Some true
                           \/ cmp_maxProductsPerUser campaign = None))) ->
        fst (post_cart newId token data st) <> campaignLimitReached limit name)
  /\ (forall newId token data st cps,
        fst (post_cart newId token data (withCampaignProducts cps st))
        = fst (post_cart newId token data st)).
Proof.
  split; [|split].
  - intros newId token data st t session employee product campaignId campaign
      limit Htok Hsess Hemp Hprod Hstock Hcid Hcamp Hact Hmax.
    assert (Hcheck :
              cartCampaignCheck st (s_employeeId session) data
                (default 1 (d_quantity data))
              = if limit
                   <? campaignUsage st (s_employeeId session) campaignId
                      + default 1 (d_quantity data)
                then Some (campaignLimitReached limit (cmp_name campaign))
                else None).
    { unfold cartCampaignCheck. rewrite Hcid, Hcamp, Hact, Hmax.
      now rewrite usageOfCampaign_sum. }
    unfold post_cart. rewrite Htok, Hsess, Hemp, Hprod.
    change (match d_quantity data with Some q => q | None => 1 end)
      with (default 1 (d_quantity data)).
    cbv zeta. rewrite (proj2 (Z.ltb_ge _ _) Hstock), Hcheck.
    destruct (Z.ltb_spec limit
                (campaignUsage st (s_employeeId session) campaignId
                 + default 1 (d_quantity data))) as [Hlt|Hle].
    + split; [reflexivity|intros; lia].
    + split; [intros; lia|intros _].
      destruct (List.find _ _) as [existing|].
      * destruct (stockOr0 product <? _); cbv zeta; cbn [fst];
          [apply campaignLimitReached_stock|apply campaignLimitReached_other].
      * apply campaignLimitReached_other.
  - intros newId token data st limit name Hnone.
    assert (Hcheck : forall employeeId requested,
               cartCampaignCheck st employeeId data requested = None).
    { intros employeeId requested. unfold cartCampaignCheck.
      destruct Hnone as [->|(campaignId & -> & [->|(campaign & -> & Hc)])];
        try reflexivity.
      destruct Hc as [Hc| ->].
      - destruct (cmp_isActive campaign) as [[|]|]; try reflexivity.
        congruence.
      - now destruct (cmp_isActive campaign) as [[|]|]. }
    unfold post_cart.
    destruct (nonEmpty token); [|intros [=]].
    destruct (getSession st _) as [session|]; [|intros [=]].
    destruct (getEmployee st _) as [employee|]; [|intros [=]].
    destruct (getProduct st _) as [product|]; [|intros [=]].
    cbv zeta. destruct (_ <? _); [intros [=]|]. rewrite Hcheck.
    destruct (List.find _ _) as [existing|].
    + destruct (stockOr0 product <? _); cbv zeta; cbn [fst];
        [apply campaignLimitReached_stock|apply campaignLimitReached_other].
    + apply campaignLimitReached_other.
  - intros newId token data st cps.
    unfold post_cart, cartCampaignCheck, getSession, getEmployee, getProduct,
      getCampaign, getOrdersByEmployeeId, getCartItems.
    cbn [withCampaignProducts sessions employees products campaigns orders
         cartItems].
    repeat match goal with
           | |- context [match ?x with _ => _ end] => destruct x
           end;
      reflexivity.
Qed.

Lemma cart_campaign_limit_witness :
  post_cart "c9" (Some "tok1") (addBlue 2 "k2") campaignShop
  = (campaignLimitReached 5 "Diwali", campaignShop)
  /\ fst (post_cart "c9" (Some "tok1") (addBlue 1 "k2") campaignShop)
     <> campaignLimitReached 5 "Diwali".
Proof.
  destruct cart_campaign_limit as (Hdecides & _). split.
  - destruct (Hdecides "c9" (Some "tok1") (addBlue 2 "k2") campaignShop "tok1"
                (mkSession "e1") alice tiered "k2"
                (mkCampaign "Diwali" (Some true) (Some 5)) 5
                eq_refl eq_refl eq_refl eq_refl
                ltac:(vm_compute; discriminate) eq_refl eq_refl eq_refl eq_refl)
      as [Hreject _].
    apply Hreject. vm_compute. reflexivity.
  - destruct (Hdecides "c9" (Some "tok1") (addBlue 1 "k2") campaignShop "tok1"
                (mkSession "e1") alice tiered "k2"
                (mkCampaign "Diwali" (Some true) (Some 5)) 5
                eq_refl eq_refl eq_refl eq_refl
                ltac:(vm_compute; discriminate) eq_refl eq_refl eq_refl eq_refl)
      as [_ Hallow].
    apply Hallow. vm_compute. discriminate.
Defined.

(** C3 (as stated), refuted on both paths.
    Adding to the cart: the campaign [k1] has a non-null cap of 1, usage plus
    the 5 requested exceeds it, and the request is allowed, because the
    campaign is not active.
    Updating a cart item: [PUT /api/cart/:id] takes every active, capped
    campaign the product is linked to and counts the orders and cart items
    of the products linked to it, whatever their [campaignId].  Updating the
    red mug from 1 to 2 is rejected with a usage of 7 (the untracked order,
    the campaign order and the 3 mugs outside the campaign), where the orders
    and the other cart items that name the campaign amount to 3, and
    [3 + 2 <= 5]. *)
Lemma campaign_limit_counterexample :
  (getCampaign campaignShop "k1"
   = Some (mkCampaign "Clearance" (Some false) (Some 1))
   /\ 1 < campaignUsage campaignShop "e1" "k1" + 5
   /\ post_cart "c9" (Some "tok1") (addBlue 5 "k1") campaignShop
      = (json
           (CartItemBody
              (Some (mkCartItem "c9" "e1" "p1" (Some "blue") None 5 (Some "k1")))),
         createCartItem
           (mkCartItem "c9" "e1" "p1" (Some "blue") None 5 (Some "k1"))
           campaignShop))
  /\ (getCampaign campaignShop "k2"
      = Some (mkCampaign "Diwali" (Some true) (Some 5))
      /\ campaignUsageExcept campaignShop "e1" "k2" "c3" = 3
      /\ usageOfCampaignProducts ["p1"] "c3"
           (getOrdersByEmployeeId campaignShop "e1")
           (getCartItems campaignShop "e1") = 7
      /\ put_cart "c3" (Some 2) campaignShop
         = (campaignLimitReached 5 "Diwali", campaignShop)).
Proof. repeat split. Qed.

(* ===================================================================== *)
(** * Further properties *)

Lemma num_le_trans (a b c : number) :
  num_le a b = true -> num_le b c = true -> num_le a c = true.
Proof.
  destruct a as [p| | |], b as [q| | |], c as [r| | |]; simpl;
    try discriminate; try reflexivity.
  intros. qprop. lra.
Qed.

Lemma contains_overlap (a b : PriceSlabRange) (q : number) :
  contains a q = true -> contains b q = true -> overlap a b = true.
Proof.
  unfold contains, overlap. rewrite !andb_true_iff.
  intros [Ha Ha'] [Hb Hb']. split; eapply num_le_trans; eassumption.
Qed.

Lemma parsesToPrice_Some `{JSRuntime} (text : string) (p : number) :
  parsesToPrice text = Some p ->
  p = StringToNumber text /\ isFinite p = true /\ num_ge p (Fin 0) = true.
Proof.
  unfold parsesToPrice. cbv zeta.
  destruct (isFinite _ && num_ge _ _) eqn:E; [|discriminate].
  intros [= <-]. apply andb_true_iff in E. tauto.
Qed.

Lemma getUnitPriceForQty_cases `{JSRuntime} (product : Product)
  (qty : number) :
  is_Some (parsesToPrice (p_price product)) ->
  isFinite (getUnitPriceForQty product qty) = true
  /\ num_ge (getUnitPriceForQty product qty) (Fin 0) = true
  /\ (getUnitPriceForQty product qty = StringToNumber (p_price product)
      \/ exists s,
           s ∈ default [] (p_priceSlabs product)
           /\ slabMatches qty s = true
           /\ getUnitPriceForQty product qty = StringToNumber (price s)).
Proof.
  intros [base Hbase]. apply parsesToPrice_Some in Hbase as (-> & Hfin & Hge).
  unfold getUnitPriceForQty. cbv zeta.
  change (match p_priceSlabs product with Some l => l | None => [] end)
    with (default [] (p_priceSlabs product)).
  destruct (default [] (p_priceSlabs product)) as [|s0 slabs]; [auto|].
  destruct (List.find _ _) as [m|] eqn:Hfind; [|auto].
  rewrite parsesToPrice_guard.
  destruct (parsesToPrice (price m)) as [p|] eqn:Hp; simpl; [|auto].
  apply parsesToPrice_Some in Hp as (-> & Hfin' & Hge').
  split; [exact Hfin'|]. split; [exact Hge'|]. right.
  apply find_some in Hfind as [Hin Hm]. exists m.
  split; [now apply list_elem_of_In|]. split; [exact Hm|reflexivity].
Qed.

(** X1.  The unit price is a price.  Whatever the slabs of a product hold,
    when its base price parses to a finite number [>= 0] the unit price
    resolved for any quantity is finite and [>= 0] too: it is the base
    price, or the parsed price of one of the product's slabs whose range
    holds the quantity. *)
Theorem unit_price_is_base_or_slab `{JSRuntime} (product : Product)
  (qty : number) :
  is_Some (parsesToPrice (p_price product)) ->
  isFinite (getUnitPriceForQty product qty) = true
  /\ num_ge (getUnitPriceForQty product qty) (Fin 0) = true
  /\ (getUnitPriceForQty product qty = StringToNumber (p_price product)
      \/ exists s,
           s ∈ default [] (p_priceSlabs product)
           /\ slabMatches qty s = true
           /\ getUnitPriceForQty product qty = StringToNumber (price s)).
Proof. apply getUnitPriceForQty_cases. Qed.

Lemma unit_price_is_base_or_slab_witness :
  isFinite (@getUnitPriceForQty plainDecimals tiered (Fin 7)) = true
  /\ num_ge (@getUnitPriceForQty plainDecimals tiered (Fin 7)) (Fin 0) = true.
Proof.
  destruct (@unit_price_is_base_or_slab plainDecimals tiered (Fin 7))
    as (Hfin & Hge & _); [|now split].
  eexists. reflexivity.
Defined.

Lemma checkSlabs_priced `{JSRuntime} (l : list PriceSlabRange) :
  checkSlabs l = None ->
  Forall (fun s => parsesToPrice (price s) = Some (StringToNumber (price s))) l.
Proof.
  induction l as [|s l IH]; simpl; [constructor|].
  destruct (checkSlab s) eqn:E; [discriminate|]. intros Hrest.
  constructor; [|now apply IH].
  unfold checkSlab in E. unfold parsesToPrice, num_ge. cbv zeta.
  destruct (StringToNumber (price s)) as [p| | |]; simpl in *;
    try discriminate.
  destruct (Qle_bool 0 p); [reflexivity|discriminate].
Qed.

(** What [normalizePriceSlabs] returns: valid slabs whose prices parse, no
    two of them overlapping. *)
Lemma normalized_slabs `{JSRuntime} input slabs :
  normalizePriceSlabs input = Return slabs ->
  Forall validSlab slabs
  /\ Forall (fun s => parsesToPrice (price s) = Some (StringToNumber (price s)))
       slabs
  /\ StronglySorted slabLe slabs
  /\ (openEndedCount slabs <= 1)%nat
  /\ forall (i j : nat) a b, i <> j ->
       slabs !! i = Some a -> slabs !! j = Some b -> overlap a b = false.
Proof.
  destruct input as [arr|]; simpl.
  2:{ intros [= <-]. split; [constructor|]. split; [constructor|].
      split; [constructor|]. split; [cbv; lia|].
      intros i j a b _ Hi. rewrite lookup_nil in Hi. discriminate. }
  destruct (checkSlabs (cleanSlabs arr)) eqn:Hc; [discriminate|].
  destruct (1 <? openEndedCount (cleanSlabs arr))%nat eqn:Ho; [discriminate|].
  destruct (anyOverlap _) eqn:Hov; [discriminate|]. intros [= <-].
  pose proof (checkSlabs_valid _ (cleanSlabs_retained arr) Hc) as Hvalid.
  pose proof (checkSlabs_priced _ Hc) as Hpriced.
  pose proof (Array_sort_perm compareSlabs (cleanSlabs arr)) as Hperm.
  split; [now rewrite Hperm|]. split; [now rewrite Hperm|].
  split.
  { exact (Array_sort_sorted compareSlabs slabLe validSlab compareSlabs_le
             compareSlabs_gt slabLe_trans _ Hvalid). }
  split.
  { unfold openEndedCount. rewrite Hperm. now apply Nat.ltb_ge in Ho. }
  apply pairwise_of_ordered. now apply anyOverlap_false.
Qed.

(** X2.  Slabs as the normalizer returns them price every quantity without
    ambiguity.  On a product holding such slabs, a quantity lies in the range
    of at most one slab; when it lies in one, the unit price is that slab's
    price, which parses to a finite number [>= 0]; when it lies in none, the
    unit price is the base price. *)
Theorem normalized_slabs_give_one_price `{JSRuntime}
  (input : option (list RawSlab)) (slabs : list PriceSlabRange)
  (product : Product) (qty : number) :
  normalizePriceSlabs input = Return slabs ->
  p_priceSlabs product = Some slabs ->
  (forall s, s ∈ slabs -> contains s qty = true ->
     getUnitPriceForQty product qty = StringToNumber (price s)
     /\ isFinite (getUnitPriceForQty product qty) = true
     /\ num_ge (getUnitPriceForQty product qty) (Fin 0) = true
     /\ forall s', s' ∈ slabs -> contains s' qty = true -> s' = s)
  /\ ((forall s, s ∈ slabs -> contains s qty = false) ->
      getUnitPriceForQty product qty = StringToNumber (p_price product)).
Proof.
  intros Hnorm Hslabs.
  apply normalized_slabs in Hnorm as (Hvalid & Hpriced & _ & _ & Hdisj).
  assert (Huniq : forall s s', s ∈ slabs -> s' ∈ slabs ->
            contains s qty = true -> contains s' qty = true -> s' = s).
  { intros s s' Hs Hs' Hc Hc'.
    apply list_elem_of_lookup in Hs as [i Hi].
    apply list_elem_of_lookup in Hs' as [j Hj].
    destruct (decide (i = j)) as [->|Hne]; [congruence|].
    pose proof (Hdisj i j s s' Hne Hi Hj) as Hno.
    rewrite (contains_overlap s s' qty Hc Hc') in Hno. discriminate. }
  assert (Hfind : List.find (slabMatches qty) slabs
                  = List.find (fun s => contains s qty) slabs).
  { apply (find_ext_Forall _ _ validSlab); [|exact Hvalid].
    intros s. apply slabMatches_contains. }
  unfold getUnitPriceForQty. cbv zeta. rewrite Hslabs, Hfind. clear Hfind. split.
  - intros s Hs Hc.
    destruct slabs as [|s0 slabs']; [now apply elem_of_nil in Hs|].
    destruct (List.find _ (s0 :: slabs')) as [m|] eqn:Hm.
    2:{ rewrite (find_none _ _ Hm s) in Hc; [discriminate|].
        now apply list_elem_of_In. }
    apply find_some in Hm as [Hin Hcm]. apply list_elem_of_In in Hin.
    assert (m = s) as -> by now apply (Huniq s m).
    rewrite parsesToPrice_guard.
    rewrite List.Forall_forall in Hpriced.
    rewrite (Hpriced s) by now apply list_elem_of_In.
    pose proof (Hpriced s (proj1 (list_elem_of_In _ _) Hs)) as Hp.
    apply parsesToPrice_Some in Hp as (_ & Hfin & Hge). simpl.
    split; [reflexivity|]. split; [exact Hfin|]. split; [exact Hge|].
    intros s' Hs' Hc'. now apply (Huniq s s').
  - intros Hnone. destruct slabs as [|s0 slabs']; [reflexivity|].
    destruct (List.find _ (s0 :: slabs')) as [m|] eqn:Hm; [|reflexivity].
    apply find_some in Hm as [Hin Hcm]. apply list_elem_of_In in Hin.
    rewrite (Hnone m Hin) in Hcm. discriminate.
Qed.

Lemma normalized_slabs_give_one_price_witness :
  @getUnitPriceForQty plainDecimals tiered (Fin 12) = Fin 80.
Proof.
  destruct (@normalized_slabs_give_one_price plainDecimals (Some rawTiers)
              [mkSlab (Fin 1) (Some (Fin 9)) "100"; mkSlab (Fin 10) None "80"]
              tiered (Fin 12) eq_refl eq_refl) as [Hone _].
  destruct (Hone (mkSlab (Fin 10) None "80")) as [-> _];
    [repeat constructor|reflexivity|reflexivity].
Defined.

(** *** Normalising twice *)

Lemma checkSlabs_None `{JSRuntime} (l : list PriceSlabRange) :
  checkSlabs l = None <-> Forall (fun s => checkSlab s = None) l.
Proof.
  induction l as [|s l IH]; simpl.
  - split; [constructor|reflexivity].
  - destruct (checkSlab s) eqn:E.
    + split; [discriminate|]. intros Hall. inversion Hall; congruence.
    + rewrite IH. split; [now constructor|]. intros Hall. now inversion Hall.
Qed.

Lemma coerceSlab_trimmed `{JSRuntime} (arr : list RawSlab) :
  Forall (fun s => exists text, price s = trim text) (cleanSlabs arr).
Proof.
  unfold cleanSlabs. apply List.Forall_forall. intros s Hs.
  apply (proj2 (list_elem_of_In _ _)) in Hs.
  apply list_elem_of_filter in Hs as [_ Hs].
  apply list_elem_of_fmap in Hs as (raw & -> & _). simpl. eauto.
Qed.

Lemma coerceSlab_slabToJson `{JSRuntime} (s : PriceSlabRange) :
  trim (price s) = price s -> coerceSlab (slabToJson s) = s.
Proof.
  destruct s as [m [x|] p]; unfold coerceSlab, slabToJson; simpl;
    now intros ->.
Qed.

(** X3.  Normalizing is idempotent.  Sent back as JSON, the slabs
    [normalizePriceSlabs] returned are returned again, unchanged and without
    an error, by any runtime whose [trim] leaves a trimmed text alone. *)
Theorem normalizePriceSlabs_idempotent `{JSRuntime}
  (input : option (list RawSlab)) (slabs : list PriceSlabRange) :
  (forall text, trim (trim text) = trim text) ->
  normalizePriceSlabs input = Return slabs ->
  normalizePriceSlabs (Some (map slabToJson slabs)) = Return slabs.
Proof.
  intros Htrim Hnorm.
  pose proof (normalized_slabs _ _ Hnorm) as (Hvalid & _ & Hsorted & Hopen & _).
  destruct input as [arr|]; simpl in Hnorm; [|now injection Hnorm as <-].
  destruct (checkSlabs (cleanSlabs arr)) eqn:Hc; [discriminate|].
  destruct (1 <? openEndedCount (cleanSlabs arr))%nat eqn:Ho; [discriminate|].
  destruct (anyOverlap _) eqn:Hov; [discriminate|]. injection Hnorm as Hout.
  pose proof (Array_sort_perm compareSlabs (cleanSlabs arr)) as Hperm.
  rewrite Hout in Hperm, Hov.
  assert (Hclean : cleanSlabs (map slabToJson slabs) = slabs).
  { unfold cleanSlabs. rewrite List.map_map.
    assert (Hall : Forall (fun s => retained s = true
                                    /\ exists text, price s = trim text) slabs).
    { rewrite Hperm. apply Forall_and.
      split; [apply cleanSlabs_retained|apply coerceSlab_trimmed]. }
    clear -Hall Htrim. induction Hall as [|s l [Hs [text Ht]] Hl IH];
      [reflexivity|].
    cbn [map]. rewrite coerceSlab_slabToJson by (rewrite Ht; apply Htrim).
    rewrite filter_cons_True by exact Hs. now rewrite IH. }
  cbn [normalizePriceSlabs]. cbv zeta. rewrite Hclean.
  assert (Hc' : checkSlabs slabs = None).
  { apply checkSlabs_None. rewrite Hperm. now apply checkSlabs_None. }
  rewrite Hc'. rewrite (proj2 (Nat.ltb_ge _ _) Hopen).
  rewrite (Array_sort_sorted_id _ Hvalid Hsorted). now rewrite Hov.
Qed.

(** The example runtime's [trim] leaves a trimmed text alone. *)

Lemma append_cons (c : ascii) (s t : string) :
  String c s ++ t = String c (s ++ t).
Proof. reflexivity. Qed.

Lemma append_nil_r (s : string) : s ++ "" = s.
Proof.
  induction s as [|c s IH]; [reflexivity|]. now rewrite append_cons, IH.
Qed.

Lemma append_assoc (a b c : string) : (a ++ b) ++ c = a ++ (b ++ c).
Proof.
  induction a as [|x a IH]; [reflexivity|]. now rewrite !append_cons, IH.
Qed.

Lemma rev_app_append (a b : string) :
  String.rev_app a b = String.rev a ++ b.
Proof.
  unfold String.rev. revert b.
  induction a as [|x a IH]; intros b; [reflexivity|].
  cbn [String.rev_app].
  rewrite (IH (String x b)), (IH (String x "")), append_assoc. reflexivity.
Qed.

Lemma rev_append (a b : string) :
  String.rev (a ++ b) = String.rev b ++ String.rev a.
Proof.
  induction a as [|x a IH].
  - change ("" ++ b) with b. now rewrite append_nil_r.
  - rewrite append_cons. unfold String.rev in *. cbn [String.rev_app].
    rewrite (rev_app_append (a ++ b)), (rev_app_append a).
    unfold String.rev. rewrite IH, append_assoc. reflexivity.
Qed.

Lemma rev_involutive (s : string) : String.rev (String.rev s) = s.
Proof.
  induction s as [|x s IH]; [reflexivity|].
  change (String x s) with (String x "" ++ s) at 1.
  rewrite rev_append, rev_append, IH. reflexivity.
Qed.

Lemma trimStart_fixed (s : string) : headSpace s = false -> trimStart s = s.
Proof. destruct s as [|c s]; simpl; [reflexivity|now intros ->]. Qed.

Lemma trimStart_head (s : string) : headSpace (trimStart s) = false.
Proof.
  induction s as [|c s IH]; [reflexivity|]. cbn [trimStart].
  destruct (isSpace c) eqn:E; [exact IH|]. exact E.
Qed.

Lemma trimStart_suffix (s : string) : exists w, s = w ++ trimStart s.
Proof.
  induction s as [|c s [w IH]]; [now exists ""|]. cbn [trimStart].
  destruct (isSpace c); [|now exists ""].
  exists (String c w). rewrite append_cons. now rewrite <- IH.
Qed.

Lemma headSpace_append (a b : string) :
  a <> "" -> headSpace (a ++ b) = headSpace a.
Proof. destruct a; [congruence|reflexivity]. Qed.

Lemma trimBoth_idempotent (s : string) : trimBoth (trimBoth s) = trimBoth s.
Proof.
  unfold trimBoth.
  set (t := trimStart s). set (u := trimStart (String.rev t)).
  assert (Ht : headSpace t = false) by apply trimStart_head.
  assert (Hu : headSpace u = false) by apply trimStart_head.
  assert (Hru : headSpace (String.rev u) = false).
  { destruct (trimStart_suffix (String.rev t)) as [w Hw]. fold u in Hw.
    apply (f_equal String.rev) in Hw.
    rewrite rev_involutive, rev_append in Hw.
    destruct (decide (String.rev u = "")) as [->|Hne]; [reflexivity|].
    rewrite <- (headSpace_append _ (String.rev w) Hne). now rewrite <- Hw. }
  rewrite (trimStart_fixed _ Hru), rev_involutive.
  now rewrite (trimStart_fixed _ Hu).
Qed.

Lemma normalizePriceSlabs_idempotent_witness :
  @normalizePriceSlabs plainDecimals
    (Some
       (map slabToJson
          [mkSlab (Fin 1) (Some (Fin 9)) "100"; mkSlab (Fin 10) None "80"]))
  = Return [mkSlab (Fin 1) (Some (Fin 9)) "100"; mkSlab (Fin 10) None "80"].
Proof.
  apply (@normalizePriceSlabs_idempotent plainDecimals (Some rawTiers)).
  - exact trimBoth_idempotent.
  - reflexivity.
Defined.

(** ** Generated identifiers are unique *)

Lemma pretty_N_char_digit (x : N) : is_Some (Ascii.is_nat (pretty_N_char x)).
Proof. unfold pretty_N_char. repeat case_match; simpl; eauto. Qed.

Lemma pretty_N_char_nonzero (x : N) :
  (0 < x < 10)%N -> Ascii.eqb (pretty_N_char x) "0" = false.
Proof.
  intros Hx. apply Ascii.eqb_neq. intros Heq.
  change "0"%char with (pretty_N_char 0) in Heq.
  apply pretty_N_char_inj in Heq; lia.
Qed.

Lemma digitsOnly_append (a b : string) :
  digitsOnly (a ++ b) = digitsOnly a && digitsOnly b.
Proof.
  induction a as [|c a IH]; [reflexivity|].
  rewrite append_cons. cbn [digitsOnly]. now rewrite IH, andb_assoc.
Qed.

Lemma leadingNonZero_append (a b : string) :
  leadingNonZero a = true -> leadingNonZero (a ++ b) = true.
Proof. destruct a; [discriminate|]. now rewrite append_cons. Qed.

Lemma pretty_N_go_digits (x : N) :
  forall s, (0 < x)%N ->
    exists d, pretty_N_go x s = d ++ s
              /\ digitsOnly d = true /\ leadingNonZero d = true.
Proof.
  induction (N.lt_wf_0 x) as [x _ IH]. intros s Hx.
  rewrite pretty_N_go_step by exact Hx.
  assert (Hdigit : bool_decide (is_Some (Ascii.is_nat (pretty_N_char (x `mod` 10))))
                   = true)
    by (apply bool_decide_eq_true_2, pretty_N_char_digit).
  destruct (decide (x `div` 10 = 0)%N) as [Hz|Hnz].
  - rewrite Hz, pretty_N_go_0.
    exists (String (pretty_N_char (x `mod` 10)) ""). split; [reflexivity|].
    assert (Hmod : (0 < x `mod` 10 < 10)%N).
    { pose proof (N.mod_lt x 10 ltac:(lia)).
      pose proof (N.div_mod x 10 ltac:(lia)). lia. }
    simpl. rewrite (pretty_N_char_nonzero _ Hmod), Hdigit. now split.
  - destruct (IH (x `div` 10)%N) with (s := String (pretty_N_char (x `mod` 10)) s)
      as (d & -> & Hd & Hlead).
    { apply N.div_lt; lia. }
    { now apply N.neq_0_lt_0. }
    exists (d ++ String (pretty_N_char (x `mod` 10)) "").
    split; [now rewrite append_assoc|].
    split; [|now apply leadingNonZero_append].
    rewrite digitsOnly_append, Hd. simpl. now rewrite Hdigit.
Qed.

(** The decimal text of a positive integer: digits, the first not [0]. *)
Lemma pretty_positive_digits (n : Z) :
  0 < n -> digitsOnly (pretty n) = true /\ leadingNonZero (pretty n) = true.
Proof.
  destruct n as [|p|p]; try lia. intros _.
  unfold pretty, pretty_Z, pretty, pretty_positive, pretty, pretty_N.
  rewrite decide_False by discriminate.
  destruct (pretty_N_go_digits (N.pos p) "" ltac:(lia)) as (d & -> & Hd & Hl).
  now rewrite append_nil_r.
Qed.

Lemma zeros_S (n : nat) : zeros (S n) = String "0" (zeros n).
Proof. destruct n; reflexivity. Qed.

Lemma zeros_leading (n m : nat) (a b : string) :
  leadingNonZero a = true -> leadingNonZero b = true ->
  zeros n ++ a = zeros m ++ b -> a = b.
Proof.
  intros Ha Hb. revert m.
  induction n as [|n IH]; intros [|m]; rewrite ?zeros_S, ?append_cons.
  - now intros.
  - change (zeros 0 ++ a) with a. intros ->. simpl in Ha.
    try rewrite andb_false_r in Ha. discriminate.
  - change (zeros 0 ++ b) with b. intros <-. simpl in Hb.
    try rewrite andb_false_r in Hb. discriminate.
  - intros [= Heq]. now apply (IH m).
Qed.

Lemma padStart0_inj (w : nat) (n m : Z) :
  0 < n -> 0 < m -> padStart0 w (pretty n) = padStart0 w (pretty m) -> n = m.
Proof.
  intros Hn Hm Heq. unfold padStart0 in Heq.
  apply zeros_leading in Heq;
    [now apply (inj pretty)|now apply pretty_positive_digits..].
Qed.

(** The digits before a dash are determined by the whole text. *)
Lemma digits_dash (a b x y : string) :
  digitsOnly a = true -> digitsOnly b = true ->
  a ++ String "-" x = b ++ String "-" y -> a = b /\ x = y.
Proof.
  revert b. induction a as [|c a IH]; intros [|c' b] Ha Hb Heq.
  - change (String "-" x = String "-" y) in Heq. injection Heq as ->.
    now split.
  - change (String "-" x = String c' (b ++ String "-" y)) in Heq.
    injection Heq as <- _. simpl in Hb. discriminate.
  - change (String c (a ++ String "-" x) = String "-" y) in Heq.
    injection Heq as -> _. simpl in Ha. discriminate.
  - change (String c (a ++ String "-" x) = String c' (b ++ String "-" y))
      in Heq.
    simpl in Ha, Hb. apply andb_true_iff in Ha as [_ Ha], Hb as [_ Hb].
    injection Heq as -> Heq. destruct (IH b Ha Hb Heq) as [-> ->]. now split.
Qed.

Lemma pretty_year_dash (y y' : Z) (x x' : string) :
  pretty y ++ "-" ++ x = pretty y' ++ "-" ++ x' -> y = y' /\ x = x'.
Proof.
  assert (Hnonneg : forall z, 0 <= z ->
            digitsOnly (pretty z) = true
            /\ exists c rest, pretty z = String c rest
                              /\ is_Some (Ascii.is_nat c)).
  { intros z Hz. destruct (decide (z = 0)) as [->|Hnz].
    - split; [reflexivity|]. exists "0"%char, "". split; [reflexivity|].
      simpl. eauto.
    - destruct (pretty_positive_digits z ltac:(lia)) as [Hd Hl].
      split; [exact Hd|]. destruct (pretty z) as [|c rest]; [discriminate|].
      exists c, rest. split; [reflexivity|].
      simpl in Hl. apply andb_true_iff in Hl as [Hl _].
      now apply bool_decide_eq_true in Hl. }
  assert (Hneg : forall p, pretty (Z.neg p) = String "-" (pretty (Z.pos p)))
    by reflexivity.
  intros Heq. change ("-" ++ x) with (String "-" x) in Heq.
  change ("-" ++ x') with (String "-" x') in Heq.
  destruct y as [|p|p], y' as [|q|q];
    rewrite ?Hneg, ?append_cons in Heq;
    try (destruct (Hnonneg (Z.pos p) ltac:(lia))
           as (Hd & c & rest & Hc & Hdig));
    try (destruct (Hnonneg (Z.pos q) ltac:(lia))
           as (Hd' & c' & rest' & Hc' & Hdig'));
    try (destruct (Hnonneg 0 ltac:(lia)) as (Hd0 & _)).
  - now injection Heq as ->.
  - apply digits_dash in Heq as [Heq ->]; try assumption.
    apply (inj pretty) in Heq. now split.
  - discriminate.
  - apply digits_dash in Heq as [Heq ->]; try assumption.
    apply (inj pretty) in Heq. now split.
  - apply digits_dash in Heq as [Heq ->]; try assumption.
    apply (inj pretty) in Heq. now split.
  - rewrite Hc, append_cons in Heq. injection Heq as -> _.
    destruct Hdig as [? Hdig]. discriminate.
  - discriminate.
  - rewrite Hc', append_cons in Heq. injection Heq as <- _.
    destruct Hdig' as [? Hdig']. discriminate.
  - injection Heq as Heq. apply digits_dash in Heq as [Heq ->]; try assumption.
    apply (inj pretty) in Heq. injection Heq as ->. now split.
Qed.

Lemma orderIdOf_inj (y y' n n' : Z) :
  0 < n -> 0 < n' -> orderIdOf y n = orderIdOf y' n' -> y = y' /\ n = n'.
Proof.
  intros Hn Hn' Heq. unfold orderIdOf in Heq.
  apply (inj (String.app "ORD-")) in Heq.
  apply pretty_year_dash in Heq as [-> Heq].
  apply padStart0_inj in Heq; auto.
Qed.

Lemma requestIdOf_inj (y y' n n' : Z) :
  0 < n -> 0 < n' -> requestIdOf y n = requestIdOf y' n' -> y = y' /\ n = n'.
Proof.
  intros Hn Hn' Heq. unfold requestIdOf in Heq.
  apply (inj (String.app "BBR-")) in Heq.
  apply pretty_year_dash in Heq as [-> Heq].
  apply padStart0_inj in Heq; auto.
Qed.

Lemma lookup_map {A B} (f : A -> B) (l : list A) (i : nat) :
  map f l !! i = f <$> l !! i.
Proof.
  revert i. induction l as [|x l IH]; intros [|i]; simpl; auto.
Qed.

(** A row counted by a filter makes the count over a longer prefix larger. *)
Lemma filter_take_lt {A} (f : A -> bool) (l : list A) (i j : nat) (x : A) :
  (i < j)%nat -> l !! i = Some x -> f x = true ->
  (length (List.filter f (take i l)) < length (List.filter f (take j l)))%nat.
Proof.
  intros Hij Hi Hx.
  rewrite <- (take_drop (S i) (take j l)), take_take.
  replace (S i `min` j)%nat with (S i) by lia.
  rewrite (take_S_r _ _ _ Hi), !List.filter_app, !length_app.
  simpl. rewrite Hx. simpl. lia.
Qed.

Lemma numberedByYear_NoDup (os : list Order) :
  numberedByYear os -> NoDup (map o_orderId os).
Proof.
  intros Hnum. apply NoDup_alt. intros i j id Hi Hj.
  rewrite lookup_map in Hi, Hj.
  destruct (os !! i) as [a|] eqn:Ha; [|discriminate].
  destruct (os !! j) as [b|] eqn:Hb; [|discriminate].
  injection Hi as Hi. injection Hj as Hj.
  destruct (Hnum i a Ha) as (da & Hda & Hida).
  destruct (Hnum j b Hb) as (db & Hdb & Hidb).
  rewrite Hida in Hi. rewrite Hidb, <- Hi in Hj.
  apply orderIdOf_inj in Hj as [Hyear Hcount]; [|lia..].
  assert (Hina : orderInYear (getFullYear da) a = true)
    by (unfold orderInYear; rewrite Hda; apply Z.eqb_refl).
  assert (Hinb : orderInYear (getFullYear db) b = true)
    by (unfold orderInYear; rewrite Hdb; apply Z.eqb_refl).
  destruct (Nat.lt_total i j) as [Hlt|[Heq|Hgt]]; [|exact Heq|].
  - pose proof (filter_take_lt _ os i j a Hlt Ha Hina). rewrite Hyear in *. lia.
  - pose proof (filter_take_lt _ os j i b Hgt Hb Hinb). rewrite Hyear in *. lia.
Qed.

Lemma createOrder_numbered (now : Date) (orderData : InsertOrder) (st : Store) :
  numberedByYear (orders st) ->
  numberedByYear (orders (snd (createOrder now orderData st))).
Proof.
  intros Hnum k o. unfold createOrder. cbv zeta. simpl.
  intros Hk. apply lookup_app_Some in Hk as [Hk|[Hlen Hk]].
  - rewrite take_app_le by (apply lookup_lt_Some in Hk; lia).
    now apply Hnum.
  - destruct (k - length (orders st))%nat as [|n] eqn:E; [|destruct n; discriminate].
    injection Hk as <-. exists now. split; [reflexivity|]. simpl.
    replace k with (length (orders st)) by lia.
    now rewrite take_app_length.
Qed.

(** X4.  Order identifiers never repeat.  If the orders on file are numbered
    within their years, as [createOrder] numbers them, then the identifier
    [createOrder] generates is carried by no order on file, the table stays
    numbered, and no two of its orders share an identifier: the unique
    constraint on [order_id] cannot fire. *)
Theorem createOrder_fresh_id (now : Date) (orderData : InsertOrder)
  (st : Store) :
  numberedByYear (orders st) ->
  (o_orderId (fst (createOrder now orderData st)) ∉ map o_orderId (orders st))
  /\ numberedByYear (orders (snd (createOrder now orderData st)))
  /\ NoDup (map o_orderId (orders (snd (createOrder now orderData st)))).
Proof.
  intros Hnum.
  pose proof (createOrder_numbered now orderData st Hnum) as Hnum'.
  pose proof (numberedByYear_NoDup _ Hnum') as Hnd.
  split; [|now split].
  unfold createOrder in *. cbv zeta in *. simpl in *.
  rewrite List.map_app in Hnd. apply NoDup_app in Hnd as (_ & Hfresh & _).
  intros Hin. apply (Hfresh _ Hin). simpl. left.
Qed.

Lemma createOrder_fresh_id_witness :
  o_orderId (fst (createOrder today someOrder archive))
    ∉ map o_orderId (orders archive).
Proof.
  apply (createOrder_fresh_id today someOrder archive).
  intros [|[|k]] o; [|discriminate..]. intros [= <-].
  eexists. split; reflexivity.
Defined.

Lemma commitOrders_numbered `{JSRuntime} now employeeId inrPerPoint stamp
  (items : list CartItem) :
  forall st acc,
    numberedByYear (orders st) ->
    numberedByYear
      (orders (snd (commitOrders now employeeId inrPerPoint stamp items st acc))).
Proof.
  induction items as [|item rest IH]; intros st acc Hnum; [exact Hnum|].
  cbn [commitOrders].
  destruct (getProduct st (c_productId item)) as [p|]; [|now apply IH].
  match goal with
  | |- context [createOrder now ?d ?s] =>
      pose proof (createOrder_numbered now d s Hnum) as Hnum';
      destruct (createOrder now d s) as [order st2]
  end.
  now apply IH.
Qed.

(** X5.  A checkout keeps the order identifiers unique.  On a table numbered
    within its years, the points checkout and the co-pay checkout, whatever
    they answer, leave the table numbered and without two orders of the same
    identifier: the orders one checkout creates differ from each other and
    from every order on file. *)
Theorem checkout_keeps_order_ids_unique `{JSRuntime} (now : Date) (st : Store) :
  numberedByYear (orders st) ->
  (forall req,
     numberedByYear (orders (snd (post_orders now req st)))
     /\ NoDup (map o_orderId (orders (snd (post_orders now req st)))))
  /\ (forall config result req,
        numberedByYear (orders (snd (post_verify_copay config result now req st)))
        /\ NoDup
             (map o_orderId
                (orders (snd (post_verify_copay config result now req st))))).
Proof.
  intros Hnum.
  assert (Hpoints : forall req,
            numberedByYear (orders (snd (post_orders now req st)))).
  { intros req. unfold post_orders, post_orders_among.
    repeat match goal with
    | |- context [match ?x with _ => _ end] =>
        lazymatch x with
        | commitOrders _ _ _ _ _ _ _ => fail
        | updateEmployee _ _ _ => fail
        | _ => destruct x eqn:?
        end
    end; try exact Hnum.
    all: match goal with
         | |- context [commitOrders ?a ?b ?c ?d ?e ?s ?f] =>
             pose proof (commitOrders_numbered a b c d e s f Hnum) as Hc;
             destruct (commitOrders a b c d e s f) as [placed st1]
         end.
    all: unfold updateEmployee; destruct (toInteger _); exact Hc. }
  assert (Hcopay : forall config result req,
            numberedByYear
              (orders (snd (post_verify_copay config result now req st)))).
  { intros config result req. unfold post_verify_copay.
    repeat match goal with
    | |- context [match ?x with _ => _ end] =>
        lazymatch x with
        | commitOrders _ _ _ _ _ _ _ => fail
        | updateEmployee _ _ _ => fail
        | _ => destruct x eqn:?
        end
    end; try exact Hnum.
    all: match goal with
         | |- context [commitOrders ?a ?b ?c ?d ?e ?s ?f] =>
             pose proof (commitOrders_numbered a b c d e s f Hnum) as Hc;
             destruct (commitOrders a b c d e s f) as [placed st1]
         end.
    all: unfold updateEmployee; destruct (toInteger _); exact Hc. }
  split.
  - intros req. split; [apply Hpoints|apply numberedByYear_NoDup, Hpoints].
  - intros config result req.
    split; [apply Hcopay|apply numberedByYear_NoDup, Hcopay].
Qed.

Lemma checkout_keeps_order_ids_unique_witness :
  NoDup
    (map o_orderId
       (orders (snd (@post_orders plainDecimals today aliceCheckout archive)))).
Proof.
  apply (@checkout_keeps_order_ids_unique plainDecimals today archive).
  intros [|[|k]] o; [|discriminate..]. intros [= <-].
  eexists. split; reflexivity.
Defined.

Lemma numberedInSequence_NoDup (rs : list BulkBuyRequest) :
  numberedInSequence rs -> NoDup (map br_requestId rs).
Proof.
  intros Hnum. apply NoDup_alt. intros i j id Hi Hj.
  rewrite lookup_map in Hi, Hj.
  destruct (rs !! i) as [a|] eqn:Ha; [|discriminate].
  destruct (rs !! j) as [b|] eqn:Hb; [|discriminate].
  injection Hi as Hi. injection Hj as Hj.
  rewrite (Hnum i a Ha) in Hi. rewrite (Hnum j b Hb), <- Hi in Hj.
  apply requestIdOf_inj in Hj as [_ Hk]; lia.
Qed.

Lemma createBulkBuyRequest_numbered `{JSRuntime} (now : Date)
  (input : BulkBuyInput) (st : Store) :
  numberedInSequence (bulkBuyRequests st) ->
  numberedInSequence (bulkBuyRequests (snd (createBulkBuyRequest now input st))).
Proof.
  intros Hnum k r. unfold createBulkBuyRequest. cbv zeta. simpl.
  intros Hk. apply lookup_app_Some in Hk as [Hk|[Hlen Hk]]; [now apply Hnum|].
  destruct (k - length (bulkBuyRequests st))%nat as [|n] eqn:E;
    [|destruct n; discriminate].
  injection Hk as <-. simpl.
  replace k with (length (bulkBuyRequests st)) by lia. reflexivity.
Qed.

(** X6.  Bulk-buy request identifiers never repeat, although their number
    is not scoped to the year.  On a table whose requests are numbered by
    position, [createBulkBuyRequest] generates an identifier no request on
    file carries, and both bulk-buy submissions, whatever they answer, leave
    the table numbered and without two requests of the same identifier. *)
Theorem request_ids_unique `{JSRuntime} (now : Date) (st : Store) :
  numberedInSequence (bulkBuyRequests st) ->
  (forall input,
     br_requestId (fst (createBulkBuyRequest now input st))
       ∉ map br_requestId (bulkBuyRequests st))
  /\ (forall req,
        numberedInSequence
          (bulkBuyRequests (snd (post_bulkbuy_checkout now req st)))
        /\ NoDup
             (map br_requestId
                (bulkBuyRequests (snd (post_bulkbuy_checkout now req st)))))
  /\ (forall req,
        numberedInSequence
          (bulkBuyRequests (snd (post_bulkbuy_request now req st)))
        /\ NoDup
             (map br_requestId
                (bulkBuyRequests (snd (post_bulkbuy_request now req st))))).
Proof.
  intros Hnum. split; [|split].
  - intros input.
    pose proof (numberedInSequence_NoDup _
                  (createBulkBuyRequest_numbered now input st Hnum)) as Hnd.
    unfold createBulkBuyRequest in *. cbv zeta in *. simpl in *.
    rewrite List.map_app in Hnd. apply NoDup_app in Hnd as (_ & Hfresh & _).
    intros Hin. apply (Hfresh _ Hin). simpl. left.
  - intros req.
    assert (Hkeep : numberedInSequence
              (bulkBuyRequests (snd (post_bulkbuy_checkout now req st)))).
    { unfold post_bulkbuy_checkout.
      repeat match goal with
      | |- context [match ?x with _ => _ end] =>
          lazymatch x with
          | createBulkBuyRequest _ _ _ => fail
          | _ => destruct x eqn:?
          end
      end; try exact Hnum.
      all: match goal with
           | |- context [createBulkBuyRequest ?a ?b ?s] =>
               pose proof (createBulkBuyRequest_numbered a b s Hnum) as Hc;
               destruct (createBulkBuyRequest a b s) as [requestRec st1]
           end.
      all: exact Hc. }
    split; [exact Hkeep|now apply numberedInSequence_NoDup].
  - intros req.
    assert (Hkeep : numberedInSequence
              (bulkBuyRequests (snd (post_bulkbuy_request now req st)))).
    { unfold post_bulkbuy_request.
      repeat match goal with
      | |- context [match ?x with _ => _ end] =>
          lazymatch x with
          | createBulkBuyRequest _ _ _ => fail
          | _ => destruct x eqn:?
          end
      end; try exact Hnum.
      all: match goal with
           | |- context [createBulkBuyRequest ?a ?b ?s] =>
               pose proof (createBulkBuyRequest_numbered a b s Hnum) as Hc;
               destruct (createBulkBuyRequest a b s) as [requestRec st1]
           end.
      all: exact Hc. }
    split; [exact Hkeep|now apply numberedInSequence_NoDup].
Qed.

Lemma request_ids_unique_witness :
  br_requestId (fst (@createBulkBuyRequest plainDecimals today someBulkInput archive))
    ∉ map br_requestId (bulkBuyRequests archive).
Proof.
  apply (@request_ids_unique plainDecimals today archive).
  intros [|[|k]] r; [|discriminate..]. intros [= <-]. reflexivity.
Defined.

(** ** The price shown and the price charged *)

(** X7.  On a product whose slabs are as [normalizePriceSlabs] returns them
    and whose price text is not empty, the unit price the bulk-buy page
    shows for a quantity is the unit price the server resolves for it. *)
Theorem page_price_is_server_price `{JSRuntime}
  (input : option (list RawSlab)) (slabs : list PriceSlabRange)
  (product : Product) (qty : number) :
  normalizePriceSlabs input = Return slabs ->
  p_priceSlabs product = Some slabs ->
  p_price product <> "" ->
  unitPriceForQty product qty = getUnitPriceForQty product qty.
Proof.
  intros Hnorm Hslabs Hprice.
  apply normalized_slabs in Hnorm as (Hvalid & Hpriced & _).
  unfold unitPriceForQty, getUnitPriceForQty, string_eqb. cbv zeta.
  rewrite bool_decide_eq_false_2 by exact Hprice. rewrite Hslabs.
  destruct slabs as [|s0 slabs']; [reflexivity|].
  rewrite (find_ext_Forall
             (fun s => num_ge qty (minQty s)
                       && num_le qty match maxQty s with
                                     | None => PosInf | Some m => m
                                     end)
             (slabMatches qty) validSlab (s0 :: slabs')); [|
    intros s [Hfin _]; unfold slabMatches, toMax; now rewrite Hfin | exact Hvalid].
  destruct (List.find _ _) as [m|] eqn:Hfind; [|reflexivity].
  apply find_some in Hfind as [Hin _].
  rewrite List.Forall_forall in Hpriced. specialize (Hpriced m Hin).
  apply parsesToPrice_Some in Hpriced as (_ & Hfin & Hge).
  rewrite Hfin. simpl.
  destruct (StringToNumber (price m)) as [p| | |]; try discriminate.
  unfold num_ge, num_le in Hge. unfold num_lt. now rewrite Hge.
Qed.

Lemma page_price_is_server_price_witness :
  @unitPriceForQty plainDecimals tiered (Fin 12)
  = @getUnitPriceForQty plainDecimals tiered (Fin 12).
Proof.
  apply (@page_price_is_server_price plainDecimals (Some rawTiers)
           [mkSlab (Fin 1) (Some (Fin 9)) "100"; mkSlab (Fin 10) None "80"]);
    [reflexivity|reflexivity|discriminate].
Defined.

(** ** Deleting *)

Lemma deleted_always (rowCount : option nat) : deleted rowCount = true.
Proof.
  destruct rowCount as [[|n]|]; reflexivity.
Qed.

Lemma find_filter_ne (id : string) (l : list CartItem) :
  List.find (fun c => string_eqb (c_id c) id) (filter (fun c => c_id c <> id) l)
  = None.
Proof.
  induction l as [|c l IH]; [reflexivity|].
  destruct (decide (c_id c = id)) as [Heq|Hne].
  - rewrite filter_cons_False by tauto. exact IH.
  - rewrite filter_cons_True by exact Hne. simpl. unfold string_eqb at 1.
    now rewrite bool_decide_eq_false_2.
Qed.

Lemma find_filter_other (id other : string) (l : list CartItem) :
  other <> id ->
  List.find (fun c => string_eqb (c_id c) other)
    (filter (fun c => c_id c <> id) l)
  = List.find (fun c => string_eqb (c_id c) other) l.
Proof.
  intros Hne. induction l as [|c l IH]; [reflexivity|].
  destruct (decide (c_id c = id)) as [Heq|Hne'].
  - rewrite filter_cons_False by tauto. simpl. unfold string_eqb at 2.
    rewrite bool_decide_eq_false_2 by congruence. exact IH.
  - rewrite filter_cons_True by exact Hne'. simpl. now rewrite IH.
Qed.

Lemma filter_absent (id : string) (l : list CartItem) :
  List.find (fun c => string_eqb (c_id c) id) l = None ->
  filter (fun c => c_id c <> id) l = l.
Proof.
  induction l as [|c l IH]; [reflexivity|]. simpl. unfold string_eqb at 1.
  destruct (decide (c_id c = id)) as [Heq|Hne].
  - now rewrite bool_decide_eq_true_2.
  - rewrite bool_decide_eq_false_2 by exact Hne. intros Hl.
    rewrite filter_cons_True by exact Hne. now rewrite IH.
Qed.

(** X8.  Deleting a cart item never answers "not found".  [removeCartItem]
    reports success also when no row was deleted, so [DELETE /api/cart/:id]
    answers [{ ok: true }] for every id, on file or not; afterwards the id
    is not on file, every other cart item reads as before, and a request for
    an id that was not on file changes nothing. *)
Theorem delete_never_answers_not_found (id : string) (st : Store) :
  fst (delete_cart id st) = Answered true
  /\ getCartItem (snd (delete_cart id st)) id = None
  /\ (forall other, other <> id ->
        getCartItem (snd (delete_cart id st)) other = getCartItem st other)
  /\ (getCartItem st id = None -> snd (delete_cart id st) = st).
Proof.
  unfold delete_cart, removeCartItem. cbv zeta. rewrite deleted_always.
  cbn [negb fst snd]. unfold getCartItem, set_cartItems. cbn [cartItems].
  split; [reflexivity|]. split; [apply find_filter_ne|].
  split; [intros other Hne; now apply find_filter_other|].
  intros Habsent. rewrite (filter_absent _ _ Habsent). now destruct st.
Qed.

(** ** Bulk-buy eligibility *)

(** X9.  What [GET /api/bulkbuy/me] reports is what the bulk-buy routes
    enforce.  [requireBulkBuyAccess] lets a request through exactly when
    [/api/bulkbuy/me] answers it with [eligible: true]; it rejects with 403
    exactly when the answer is [eligible: false]; and the two reject a
    missing token, an unknown session and a missing employee alike. *)
Theorem bulkbuy_me_agrees_with_guard (token : option string) (st : Store) :
  ((exists employee, requireBulkBuyAccess st token = inr employee)
   <-> exists body, get_bulkbuy_me token st = Answered body
                    /\ eligible body = true)
  /\ (requireBulkBuyAccess st token = inl (fail 403 "Bulk Buy access not enabled")
      <-> exists body, get_bulkbuy_me token st = Answered body
                       /\ eligible body = false)
  /\ (forall code message,
        code <> 403 ->
        requireBulkBuyAccess st token = inl (fail code message)
        <-> get_bulkbuy_me token st = Rejected code message).
Proof.
  unfold requireBulkBuyAccess, get_bulkbuy_me.
  destruct (nonEmpty token) as [t|].
  2:{ split; [|split].
      - split; [intros [? [=]]|intros (? & [=] & _)].
      - split; [intros [=]|intros (? & [=] & _)].
      - intros code message _. unfold fail.
        split; intros [= <- <-]; reflexivity. }
  destruct (getSession st t) as [session|].
  2:{ split; [|split].
      - split; [intros [? [=]]|intros (? & [=] & _)].
      - split; [intros [=]|intros (? & [=] & _)].
      - intros code message _. unfold fail.
        split; intros [= <- <-]; reflexivity. }
  destruct (getEmployee st (s_employeeId session)) as [employee|].
  2:{ split; [|split].
      - split; [intros [? [=]]|intros (? & [=] & _)].
      - split; [intros [=]|intros (? & [=] & _)].
      - intros code message _. unfold fail.
        split; intros [= <- <-]; reflexivity. }
  cbv zeta.
  set (flag := bool_decide (e_bulkBuyAllowed employee = Some true)).
  set (listed := match getBulkBuyAccessByEmail st (e_email employee) with
                 | Some a => bool_decide (a_isActive a = Some true)
                 | None => false
                 end).
  rewrite <- negb_orb. destruct (flag || listed) eqn:E; cbn [negb].
  - split; [|split].
    + split; [intros _; eexists; split; reflexivity|eauto].
    + split; [intros [=]|].
      intros (body & [= <-] & Hno). simpl in Hno. congruence.
    + intros code message Hcode. split; intros [=].
  - split; [|split].
    + split; [intros [? [=]]|].
      intros (body & [= <-] & Hyes). simpl in Hyes. congruence.
    + split; [intros _; eexists; split; reflexivity|reflexivity].
    + intros code message Hcode. unfold fail. split; [|intros [=]].
      intros [= <- <-]. contradiction.
Qed.

(** ** The cart *)

Lemma getCartItem_updated (id : string) (q : Z) (st : Store) (item : CartItem) :
  getCartItem st id = Some item ->
  getCartItem (updateCartItem id q st) id = Some (withQuantity q item).
Proof.
  unfold getCartItem, updateCartItem, set_cartItems. cbn [cartItems].
  induction (cartItems st) as [|c l IH]; [discriminate|]. simpl.
  destruct (string_eqb (c_id c) id) eqn:E.
  - intros [= <-]. simpl. now rewrite E.
  - rewrite E. exact IH.
Qed.

Lemma campaignLimitReached_status (limit : Z) (name : string) :
  status (campaignLimitReached limit name) = 400.
Proof. reflexivity. Qed.

Lemma updateCampaignCheck_status st item quantity os cart cs response :
  updateCampaignCheck st item quantity os cart cs = Some response ->
  status response = 400.
Proof.
  induction cs as [|[campaignId campaign] rest IH]; simpl; [discriminate|].
  destruct (_ <? _); [now intros [= <-]|exact IH].
Qed.

(** X10.  [PUT /api/cart/:id] answers with success only for an integer
    quantity of at least 1 and at most the stock of the item's product; it
    then sets the quantity of that cart item, answers with the updated item
    and changes nothing else.  Any other answer leaves the store as it
    was. *)
Theorem put_cart_effect (id : string) (quantity : option Z) (st : Store) :
  (status (fst (put_cart id quantity st)) = 200 ->
   exists q item product,
     quantity = Some q
     /\ 1 <= q <= stockOr0 product
     /\ getCartItem st id = Some item
     /\ getProduct st (c_productId item) = Some product
     /\ put_cart id quantity st
        = (json (CartItemBody (Some (withQuantity q item))),
           updateCartItem id q st))
  /\ (status (fst (put_cart id quantity st)) <> 200 ->
      snd (put_cart id quantity st) = st).
Proof.
  unfold put_cart.
  destruct quantity as [q|]; [|split; [discriminate|reflexivity]].
  destruct (q <? 1) eqn:Hq; [split; [discriminate|reflexivity]|].
  destruct (getCartItem st id) as [item|] eqn:Hitem;
    [|split; [discriminate|reflexivity]].
  destruct (getProduct st (c_productId item)) as [product|] eqn:Hp;
    [|split; [discriminate|reflexivity]].
  destruct (stockOr0 product <? q) eqn:Hstock;
    [split; [discriminate|reflexivity]|].
  cbv zeta.
  match goal with
  | |- context [match ?r with Some _ => _ | None => _ end] =>
      destruct r as [response|] eqn:Hcheck
  end.
  - assert (Hs : status response = 400).
    { destruct (List.filter _ _) as [|c cs]; [discriminate|].
      destruct (getEmployee st (c_employeeId item)); [|discriminate].
      eapply updateCampaignCheck_status. exact Hcheck. }
    simpl. rewrite Hs. split; [discriminate|reflexivity].
  - split; [|now intros Hne].
    intros _. exists q, item, product.
    apply Z.ltb_ge in Hq, Hstock.
    rewrite (getCartItem_updated id q st item Hitem).
    repeat split; auto; lia.
Qed.

Lemma getCartItems_updated (id : string) (q : Z) (st : Store) (e : string) :
  getCartItems (updateCartItem id q st) e
  = map (fun c => if string_eqb (c_id c) id then withQuantity q c else c)
      (getCartItems st e).
Proof.
  unfold getCartItems, updateCartItem, set_cartItems. cbn [cartItems].
  induction (cartItems st) as [|c l IH]; [reflexivity|]. cbn [map].
  set (c' := if string_eqb (c_id c) id then withQuantity q c else c).
  assert (He : c_employeeId c' = c_employeeId c)
    by (unfold c'; now destruct (string_eqb _ _)).
  destruct (decide (c_employeeId c = e)) as [Heq|Hne].
  - rewrite !filter_cons_True by congruence. cbn [map]. now rewrite IH.
  - rewrite !filter_cons_False by congruence. exact IH.
Qed.

Lemma getCartItems_created (item : CartItem) (st : Store) (e : string) :
  getCartItems (createCartItem item st) e
  = (getCartItems st e
     ++ if decide (c_employeeId item = e) then [item] else [])%list.
Proof.
  unfold getCartItems, createCartItem, set_cartItems. cbn [cartItems].
  rewrite filter_app. reflexivity.
Qed.

Lemma cartCampaignCheck_status st employeeId data q response :
  cartCampaignCheck st employeeId data q = Some response ->
  status response = 400.
Proof.
  unfold cartCampaignCheck.
  repeat match goal with
  | |- context [match ?x with _ => _ end] => destruct x
  end; try discriminate.
  now intros [= <-].
Qed.

(** X11.  [POST /api/cart] writes to the cart only.  Whatever it answers,
    every other table is as before; an answer other than success leaves
    the cart as before too; and after a success the cart of the session's
    employee holds a line for the requested product whose quantity, merged
    or new, does not exceed the product's stock. *)
Theorem post_cart_effect (newId : string) (token : option string)
  (data : CartData) (st : Store) :
  sameButCart st (snd (post_cart newId token data st))
  /\ (status (fst (post_cart newId token data st)) <> 200 ->
      snd (post_cart newId token data st) = st)
  /\ (status (fst (post_cart newId token data st)) = 200 ->
      exists t session product line,
        nonEmpty token = Some t
        /\ getSession st t = Some session
        /\ getProduct st (d_productId data) = Some product
        /\ line ∈ getCartItems (snd (post_cart newId token data st))
                    (s_employeeId session)
        /\ c_productId line = d_productId data
        /\ c_quantity line <= stockOr0 product).
Proof.
  assert (Hrefl : sameButCart st st) by (now repeat split).
  unfold post_cart.
  destruct (nonEmpty token) as [t|];
    [|split; [exact Hrefl|split; [reflexivity|discriminate]]].
  destruct (getSession st t) as [session|] eqn:Hsess;
    [|split; [exact Hrefl|split; [reflexivity|discriminate]]].
  destruct (getEmployee st (s_employeeId session)) as [employee|];
    [|split; [exact Hrefl|split; [reflexivity|discriminate]]].
  destruct (getProduct st (d_productId data)) as [product|] eqn:Hp;
    [|split; [exact Hrefl|split; [reflexivity|discriminate]]].
  cbv zeta. set (q := match d_quantity data with Some q => q | None => 1 end).
  destruct (stockOr0 product <? q) eqn:Hstock;
    [split; [exact Hrefl|split; [reflexivity|discriminate]]|].
  destruct (cartCampaignCheck st (s_employeeId session) data q)
    as [response|] eqn:Hcheck.
  { apply cartCampaignCheck_status in Hcheck. cbn [fst snd]. rewrite Hcheck.
    split; [exact Hrefl|split; [reflexivity|discriminate]]. }
  destruct (List.find _ _) as [existing|] eqn:Hfind.
  - destruct (stockOr0 product <? qtyOr1 (c_quantity existing) + q) eqn:Hnew;
      [split; [exact Hrefl|split; [reflexivity|discriminate]]|].
    cbn [fst snd]. split; [now repeat split|]. split; [now intros Hne|].
    intros _. apply find_some in Hfind as [Hin Hmatch].
    apply andb_true_iff in Hmatch as [Hmatch _].
    apply andb_true_iff in Hmatch as [Hprod _].
    apply bool_decide_eq_true in Hprod.
    exists t, session, product,
      (withQuantity (qtyOr1 (c_quantity existing) + q) existing).
    split; [reflexivity|]. split; [exact Hsess|]. split; [reflexivity|].
    split; [|split; [exact Hprod|apply Z.ltb_ge in Hnew; exact Hnew]].
    rewrite getCartItems_updated. apply list_elem_of_In, in_map_iff.
    exists existing. split; [|exact Hin]. unfold string_eqb.
    now rewrite bool_decide_eq_true_2.
  - cbn [fst snd]. split; [now repeat split|]. split; [now intros Hne|].
    intros _.
    exists t, session, product,
      (mkCartItem newId (s_employeeId session) (d_productId data)
         (nonEmpty (d_selectedColor data)) (nonEmpty (d_selectedSize data)) q
         (d_campaignId data)).
    split; [reflexivity|]. split; [exact Hsess|]. split; [reflexivity|].
    split; [|split; [reflexivity|apply Z.ltb_ge in Hstock; exact Hstock]].
    rewrite getCartItems_created. cbn [c_employeeId].
    rewrite decide_True by reflexivity. apply elem_of_app. right.
    now apply list_elem_of_singleton.
Qed.

(** X12.  Adding to the cart keeps one line for each product, colour and
    size.  When the request names no empty colour and no empty size (a
    missing one is fine), [POST /api/cart] merges into the line of the same
    product, colour and size, if the employee's cart has one, and creates a
    line only when it has none: carts that held no two lines of the same
    product, colour and size hold none afterwards. *)
Theorem post_cart_keeps_one_line_per_choice (newId : string)
  (token : option string) (data : CartData) (st : Store) :
  d_selectedColor data <> Some "" ->
  d_selectedSize data <> Some "" ->
  (forall employeeId, oneLinePerChoice st employeeId) ->
  forall employeeId,
    oneLinePerChoice (snd (post_cart newId token data st)) employeeId.
Proof.
  intros Hcolor Hsize Hone e. unfold post_cart.
  destruct (nonEmpty token) as [t|]; [|apply Hone].
  destruct (getSession st t) as [session|]; [|apply Hone].
  destruct (getEmployee st (s_employeeId session)) as [employee|];
    [|apply Hone].
  destruct (getProduct st (d_productId data)) as [product|]; [|apply Hone].
  cbv zeta. set (q := match d_quantity data with Some q => q | None => 1 end).
  destruct (stockOr0 product <? q); [apply Hone|].
  destruct (cartCampaignCheck st (s_employeeId session) data q);
    [apply Hone|].
  destruct (List.find _ _) as [existing|] eqn:Hfind.
  - destruct (stockOr0 product <? _); [apply Hone|].
    cbn [snd]. unfold oneLinePerChoice.
    rewrite getCartItems_updated, List.map_map.
    erewrite List.map_ext; [apply Hone|].
    intros c. now destruct (string_eqb _ _).
  - cbn [snd]. unfold oneLinePerChoice.
    rewrite getCartItems_created. cbn [c_employeeId].
    destruct (decide (s_employeeId session = e)) as [<-|Hne];
      [|rewrite app_nil_r; apply Hone].
    rewrite List.map_app. apply NoDup_app.
    split; [apply Hone|]. split; [|apply NoDup_singleton].
    intros key Hkey Hnew. apply list_elem_of_singleton in Hnew. subst key.
    apply list_elem_of_In, in_map_iff in Hkey as (c & Hc & Hin).
    pose proof (find_none _ _ Hfind c Hin) as Hno. cbv beta in Hno.
    unfold cartKey in Hc. cbn in Hc. injection Hc as Hp Hcol Hsz.
    assert (Hc' : nonEmpty (d_selectedColor data) = d_selectedColor data)
      by (destruct (d_selectedColor data) as [[|? ?]|] eqn:E;
          simpl; congruence).
    assert (Hs' : nonEmpty (d_selectedSize data) = d_selectedSize data)
      by (destruct (d_selectedSize data) as [[|? ?]|] eqn:E;
          simpl; congruence).
    unfold string_eqb, sameOption in Hno.
    rewrite !bool_decide_eq_true_2 in Hno by congruence. discriminate.
Qed.

Lemma post_cart_keeps_one_line_per_choice_witness :
  oneLinePerChoice
    (snd (post_cart "c9" (Some "tok1")
            (mkCartData "p1" None None (Some 2) None) shop))
    "e1".
Proof.
  apply post_cart_keeps_one_line_per_choice; [discriminate|discriminate|].
  intros e. unfold oneLinePerChoice, getCartItems. simpl.
  rewrite !filter_cons, filter_nil. simpl.
  destruct (decide ("e1" = e)) as [<-|He1]; simpl.
  - apply NoDup_singleton.
  - destruct (decide ("e2" = e)); simpl;
      [apply NoDup_singleton|apply NoDup_nil_2].
Defined.

(** ** When the points checkout fails *)

Lemma requiredPoints_status `{JSRuntime} st inrPerPoint items acc response :
  requiredPoints st inrPerPoint items acc = inl response ->
  status response = 400.
Proof.
  revert acc. induction items as [|item rest IH]; intros acc; simpl;
    [discriminate|].
  destruct (getProduct st (c_productId item)) as [p|]; [|now intros [= <-]].
  destruct (_ <? _); [now intros [= <-]|apply IH].
Qed.

(** X13.  A points checkout that answers with a client error (4xx) has
    changed nothing.  But its points check, [userPoints < total], also lets
    a total through that is not a number, or is [-Infinity]: the commit loop
    then runs, the orders are created and the stock is decremented, and only
    the write of the new balance fails; the answer is the 500 error, the
    balance is as before and the cart still holds its items.  An infinite
    total is refused as insufficient points. *)
Theorem checkout_failure_modes `{JSRuntime} (now : Date) (req : CheckoutRequest)
  (st : Store) :
  (400 <= status (fst (post_orders now req st)) < 500 ->
   snd (post_orders now req st) = st)
  /\ (forall session employee total,
        validated st (rq_token req) session employee total ->
        (total = PosInf ->
         post_orders now req st = (fail 400 "Insufficient points", st))
        /\ (total = NaN \/ total = NegInf ->
            exists (placed : list (Order * Product)) st',
              post_orders now req st = (fail 500 "Error creating orders", st')
              /\ (forall productId,
                    products st' !! productId
                    = decrement
                        (orderedQuantity productId
                           (getCartItems st (s_employeeId session)))
                        <$> products st !! productId)
              /\ orders st' = (orders st ++ map fst placed)%list
              /\ length placed = length (getCartItems st (s_employeeId session))
              /\ employees st' = employees st
              /\ cartItems st' = cartItems st)).
Proof.
  split.
  - unfold post_orders, post_orders_among.
    repeat match goal with
    | |- context [match ?x with _ => _ end] =>
        lazymatch x with
        | commitOrders _ _ _ _ _ _ _ => fail
        | updateEmployee _ _ _ => fail
        | _ => destruct x eqn:?
        end
    end; try reflexivity.
    all: destruct (commitOrders _ _ _ _ _ _ _) as [placed st1].
    all: destruct (updateEmployee _ _ _); cbn [fst status fail json]; lia.
  - intros session employee total Hval.
    destruct (validated_total _ _ _ _ _ Hval) as [_ Hpres].
    destruct (proj1 (validated_passes _ _ _ _ _) Hval)
      as ((t & Htok & Hsess) & Hemp & Hne & Hsel & Hreq).
    unfold post_orders, post_orders_among. rewrite Htok, Hsess, Hemp. cbv zeta.
    rewrite (length_eqb_0 _ Hne), Hsel, Hreq. split.
    + intros ->. reflexivity.
    + intros Htotal.
      assert (Hlt : num_lt (num_of_Z (e_points employee)) total = false)
        by (destruct Htotal as [-> | ->]; reflexivity).
      rewrite Hlt.
      destruct (commitOrders _ _ _ _ _ st []) as [placed st1] eqn:Hrun.
      apply commitOrders_effect in Hrun
        as (new & -> & Hprod & Hord & Hall & Hemps & Hcart & _).
      assert (Hthrow : toInteger (num_sub (num_of_Z (e_points employee)) total)
                       = None)
        by (destruct Htotal as [-> | ->]; reflexivity).
      unfold updateEmployee. rewrite Hthrow.
      exists new, st1. split; [reflexivity|]. split; [exact Hprod|].
      split; [exact Hord|]. split; [|now split].
      rewrite (filter_all _ _ Hpres) in Hall.
      symmetry. apply (Forall2_length _ _ _ Hall).
Qed.

Lemma checkout_failure_modes_witness :
  exists st',
    @post_orders plainDecimals today aliceCheckout freeShop
    = (fail 500 "Error creating orders", st')
    /\ length (orders st') = 1%nat
    /\ cartItems st' = cartItems freeShop.
Proof.
  destruct (proj2 (@checkout_failure_modes plainDecimals today aliceCheckout
                     freeShop)
              (mkSession "e1") alice NaN) as [_ Hnan].
  { apply validated_passes.
    split; [exists "tok1"; split; reflexivity|].
    split; [reflexivity|]. split; [discriminate|]. split; reflexivity. }
  destruct (Hnan (or_introl eq_refl))
    as (placed & st' & Hrun & _ & Hord & Hlen & _ & Hcart).
  exists st'. split; [exact Hrun|]. split; [|exact Hcart].
  rewrite Hord, length_app, length_map, Hlen. reflexivity.
Defined.

(** ** What a bulk-buy checkout records *)

Lemma snapshotCart_lines `{JSRuntime} (st : Store) (cart : list BulkBuyCartItem) :
  forall total itemsSnap total' itemsSnap',
    snapshotCart st cart total itemsSnap = inr (total', itemsSnap') ->
    exists new,
      itemsSnap' = (itemsSnap ++ new)%list
      /\ Forall2
           (fun it item =>
              exists p,
                getProduct st (bc_productId it) = Some p
                /\ bc_quantity it <= stockOr0 p
                /\ item = snapshotLine p it)
           (List.filter (bulkListed st) cart) new
      /\ total' = fold_left num_add (map bi_lineTotal new) total.
Proof.
  induction cart as [|it rest IH]; intros total itemsSnap total' itemsSnap'.
  - simpl. intros [= <- <-]. exists []. rewrite app_nil_r.
    split; [reflexivity|]. split; [constructor|reflexivity].
  - cbn [snapshotCart List.filter]. unfold bulkListed at 1.
    destruct (getProduct st (bc_productId it)) as [p|] eqn:Hp; [|apply IH].
    destruct (bool_decide (p_bulkBuy p = Some true)) eqn:Hbulk;
      cbn [negb]; [|apply IH].
    destruct (stockOr0 p <? bc_quantity it) eqn:Hstock; [discriminate|].
    intros Hrun. apply IH in Hrun as (new & -> & Hall & ->).
    exists (snapshotLine p it :: new). split; [now rewrite <- app_assoc|].
    split; [|reflexivity].
    constructor; [|exact Hall].
    exists p. apply Z.ltb_ge in Hstock. now repeat split.
Qed.

Lemma getBulkBuyCartItems_cleared (employeeId : string) (st : Store) :
  getBulkBuyCartItems (clearBulkBuyCart employeeId st) employeeId = [].
Proof.
  unfold getBulkBuyCartItems, clearBulkBuyCart, set_bulkBuyCartItems.
  cbn [bulkBuyCartItems].
  induction (bulkBuyCartItems st) as [|c l IH]; [reflexivity|].
  destruct (decide (bc_employeeId c = employeeId)) as [Heq|Hne].
  - rewrite filter_cons_False by tauto. exact IH.
  - rewrite filter_cons_True by exact Hne.
    rewrite filter_cons_False by exact Hne. exact IH.
Qed.

(** X14.  A bulk-buy checkout that succeeds records, in cart order, one
    line for each cart line whose product is on file and marked for bulk
    buy, each in stock, with the unit price resolved for its quantity and
    its line total rounded to two decimals; the total is the sum of those
    line totals to two decimals.  Cart lines whose product is gone or no
    longer marked for bulk buy are left out of the request without a word,
    and the whole cart, those lines included, is emptied. *)
Theorem bulk_checkout_snapshot `{JSRuntime} (now : Date)
  (req : BulkCheckoutRequest) (st : Store) (request : BulkBuyRequest)
  (message : string) :
  fst (post_bulkbuy_checkout now req st) = json (RequestBody request message) ->
  exists employeeId employee,
    requireBulkBuyAccess st (bk_token req) = inr (employeeId, employee)
    /\ Forall2
         (fun it item =>
            exists p,
              getProduct st (bc_productId it) = Some p
              /\ bc_quantity it <= stockOr0 p
              /\ item = snapshotLine p it)
         (List.filter (bulkListed st) (getBulkBuyCartItems st employeeId))
         (br_items request)
    /\ br_totalAmount request
       = toFixed2 (fold_left num_add (map bi_lineTotal (br_items request)) (Fin 0))
    /\ getBulkBuyCartItems (snd (post_bulkbuy_checkout now req st)) employeeId
       = [].
Proof.
  unfold post_bulkbuy_checkout.
  destruct (requireBulkBuyAccess st (bk_token req))
    as [r|[employeeId employee]] eqn:Hguard.
  { intros Heq. apply (f_equal status) in Heq. simpl in Heq.
    apply requireBulkBuyAccess_rejects in Hguard. lia. }
  cbv zeta.
  destruct (length _ =? 0)%nat; [discriminate|].
  destruct (snapshotCart _ _ _ _) as [r|[total itemsSnap]] eqn:Hsnap.
  { apply snapshotCart_rejects in Hsnap as [name ->]. discriminate. }
  destruct (length itemsSnap =? 0)%nat; [discriminate|].
  apply snapshotCart_lines in Hsnap as (new & -> & Hall & ->).
  unfold createBulkBuyRequest. cbv zeta. cbn [fst snd]. intros [= <- _].
  exists employeeId, employee. split; [reflexivity|]. cbn [br_items br_totalAmount].
  split; [exact Hall|]. split; [reflexivity|].
  apply getBulkBuyCartItems_cleared.
Qed.

Lemma bulk_checkout_snapshot_witness :
  getBulkBuyCartItems
    (snd (@post_bulkbuy_checkout plainDecimals today bobBulkCheckout shop)) "e2"
  = [].
Proof.
  destruct (@bulk_checkout_snapshot plainDecimals today bobBulkCheckout shop
              _ _ eq_refl)
    as (employeeId & employee & Hguard & _ & _ & Hcart).
  injection Hguard as <- _. exact Hcart.
Defined.

(** ** Email addresses *)

Lemma append_eq_nil (u v : string) : u ++ v = "" -> u = "" /\ v = "".
Proof.
  destruct u as [|x u]; [|rewrite append_cons; discriminate].
  change ("" ++ v) with v. now intros ->.
Qed.

Lemma nullable_matches (r : regex) : nullable r = true <-> matches r "".
Proof.
  split.
  - induction r; simpl; intros Hn; try discriminate.
    + constructor.
    + apply andb_true_iff in Hn as [H1 H2].
      change "" with ("" ++ ""). constructor; auto.
    + apply orb_true_iff in Hn as [H1|H2];
        [apply matches_alt_l|apply matches_alt_r]; auto.
    + constructor.
  - intros Hm. remember "" as w eqn:Hw.
    induction Hm; subst; simpl; try reflexivity; try discriminate.
    + apply append_eq_nil in Hw as [-> ->]. rewrite IHHm1, IHHm2; auto.
    + rewrite IHHm; auto.
    + rewrite IHHm, orb_true_r; auto.
Qed.

(** A match of a concatenation that starts with [c]. *)
Lemma append_eq_cons (u v : string) (c : ascii) (w : string) :
  u ++ v = String c w ->
  (u = "" /\ v = String c w) \/ exists u', u = String c u' /\ w = u' ++ v.
Proof.
  destruct u as [|x u]; [left; split; [reflexivity|assumption]|].
  rewrite append_cons. intros [= -> <-]. right. eauto.
Qed.

Lemma matches_star_cons_inv (r : regex) (c : ascii) (w : string) :
  matches (Star r) (String c w) ->
  exists u v, w = u ++ v /\ matches r (String c u) /\ matches (Star r) v.
Proof.
  intros Hm. remember (Star r) as sr eqn:Hsr. remember (String c w) as cw eqn:Hcw.
  revert w Hcw. induction Hm; intros w Hcw; try discriminate.
  injection Hsr as ->.
  apply append_eq_cons in Hcw as [[-> ->]|(u' & -> & ->)].
  - now apply IHHm2.
  - eauto.
Qed.

Lemma derive_matches (r : regex) :
  forall c w, matches (derive c r) w <-> matches r (String c w).
Proof.
  induction r as [| |class|r IHr s IHs|r IHr s IHs|r IHr]; intros c w; simpl.
  - split; intros Hm; inversion Hm.
  - split; intros Hm; inversion Hm.
  - destruct (class c) eqn:E.
    + split; intros Hm; inversion Hm; subst; [now constructor|constructor].
    + split; intros Hm; inversion Hm; congruence.
  - assert (Hseq : matches (Seq (derive c r) s) w
                   <-> exists u v, w = u ++ v /\ matches r (String c u)
                                   /\ matches s v).
    { split.
      - intros Hm. inversion Hm; subst. apply IHr in H1. eauto.
      - intros (u & v & -> & Hu & Hv). constructor; [now apply IHr|exact Hv]. }
    assert (Hsplit : matches (Seq r s) (String c w)
                     <-> (exists u v, w = u ++ v /\ matches r (String c u)
                                      /\ matches s v)
                         \/ (matches r "" /\ matches s (String c w))).
    { split.
      - intros Hm. remember (Seq r s) as rs eqn:Hrs.
        remember (String c w) as cw eqn:Hcw.
        destruct Hm as [| |r' s' u v Hu Hv| | | |]; try discriminate.
        injection Hrs as -> ->.
        apply append_eq_cons in Hcw as [[-> ->]|(u' & -> & ->)].
        + right. now split.
        + left. exists u', v. now repeat split.
      - intros [(u & v & -> & Hu & Hv)|[Hu Hv]].
        * rewrite <- append_cons. now constructor.
        * change (String c w) with ("" ++ String c w). now constructor. }
    rewrite Hsplit. destruct (nullable r) eqn:E.
    + split.
      * intros Hm. inversion Hm; subst.
        -- left. now apply Hseq.
        -- right. split; [now apply nullable_matches|now apply IHs].
      * intros [Hm|[_ Hm]].
        -- apply matches_alt_l. now apply Hseq.
        -- apply matches_alt_r. now apply IHs.
    + rewrite Hseq. split; [now left|].
      intros [Hm|[Hm _]]; [exact Hm|].
      apply nullable_matches in Hm. congruence.
  - split.
    + intros Hm. inversion Hm; subst;
        [apply matches_alt_l; now apply IHr|apply matches_alt_r; now apply IHs].
    + intros Hm. inversion Hm; subst;
        [apply matches_alt_l; now apply IHr|apply matches_alt_r; now apply IHs].
  - split.
    + intros Hm. inversion Hm; subst. rewrite <- append_cons.
      constructor; [now apply IHr|assumption].
    + intros Hm. apply matches_star_cons_inv in Hm as (u & v & -> & Hu & Hv).
      constructor; [now apply IHr|exact Hv].
Qed.

(** [test] decides [matches]. *)
Lemma test_matches (s : string) : forall r, test r s = true <-> matches r s.
Proof.
  induction s as [|c s IH]; intros r; simpl.
  - apply nullable_matches.
  - rewrite IH. apply derive_matches.
Qed.

Lemma star_plain (s : string) :
  matches (Star (Chars notSpaceNorAt)) s <-> plainChars s = true.
Proof.
  split.
  - intros Hm. remember (Star (Chars notSpaceNorAt)) as r eqn:Hr.
    induction Hm; try discriminate; [reflexivity|].
    injection Hr as ->. inversion Hm1; subst.
    rewrite append_cons. simpl. rewrite H0. now apply IHHm2.
  - induction s as [|c s IH]; simpl; [constructor|].
    intros Hp. apply andb_true_iff in Hp as [Hc Hs].
    change (String c s) with (String c "" ++ s).
    constructor; [now constructor|now apply IH].
Qed.

Lemma plus_plain (s : string) :
  matches (Plus (Chars notSpaceNorAt)) s <-> plainText s.
Proof.
  unfold Plus, plainText. split.
  - intros Hm. inversion Hm as [| |? ? u v Hu Hv| | | |]; subst.
    inversion Hu; subst. apply star_plain in Hv.
    rewrite append_cons. split; [discriminate|].
    simpl. now rewrite H0.
  - intros [Hne Hp]. destruct s as [|c s]; [congruence|].
    simpl in Hp. apply andb_true_iff in Hp as [Hc Hs].
    change (String c s) with (String c "" ++ s).
    constructor; [now constructor|now apply star_plain].
Qed.

Lemma matches_char (x : ascii) (s : string) :
  matches (Chars (Ascii.eqb x)) s <-> s = String x "".
Proof.
  split.
  - intros Hm. inversion Hm; subst. apply Ascii.eqb_eq in H0. now subst.
  - intros ->. constructor. apply Ascii.eqb_refl.
Qed.

Lemma matches_seq_inv (r s : regex) (w : string) :
  matches (Seq r s) w <-> exists u v, w = u ++ v /\ matches r u /\ matches s v.
Proof.
  split.
  - intros Hm. inversion Hm; subst. eauto.
  - intros (u & v & -> & Hu & Hv). now constructor.
Qed.

Lemma split_plain (a b : string) :
  plainChars a = true ->
  split "@" (a ++ String "@" b) = a :: split "@" b.
Proof.
  induction a as [|c a IH]; [reflexivity|].
  intros Hp. simpl in Hp. apply andb_true_iff in Hp as [Hc Ha].
  rewrite append_cons. cbn [split].
  unfold notSpaceNorAt in Hc. apply negb_true_iff, orb_false_iff in Hc as [_ Hc].
  rewrite Hc, (IH Ha). reflexivity.
Qed.

Lemma split_none (a : string) :
  (forall c, Ascii.eqb c "@" = true -> forall u v, a <> u ++ String c v) ->
  split "@" a = [a].
Proof.
  induction a as [|c a IH]; [reflexivity|]. intros Hno. cbn [split].
  destruct (Ascii.eqb c "@") eqn:E.
  - exfalso. now apply (Hno c E "" a).
  - rewrite IH; [reflexivity|].
    intros c' Hc' u v ->. apply (Hno c' Hc' (String c u) v). reflexivity.
Qed.

Lemma plainChars_append (a b : string) :
  plainChars (a ++ b) = plainChars a && plainChars b.
Proof.
  induction a as [|c a IH]; [reflexivity|].
  rewrite append_cons. simpl. now rewrite IH, andb_assoc.
Qed.

Lemma plainChars_no_at (a u v : string) (c : ascii) :
  plainChars a = true -> Ascii.eqb c "@" = true -> a <> u ++ String c v.
Proof.
  intros Hp Hc ->. rewrite plainChars_append in Hp.
  apply andb_true_iff in Hp as [_ Hp]. simpl in Hp.
  apply andb_true_iff in Hp as [Hp _]. unfold notSpaceNorAt in Hp.
  rewrite Hc, orb_true_r in Hp. discriminate.
Qed.

(** X15.  [isValidEmail] accepts exactly the texts [local@domain.tld] whose
    three parts are non-empty and hold neither white space nor [@].  An
    accepted address therefore has a single [@], and [split("@")] cuts it
    into its local part and its domain, which is not empty and holds a
    dot. *)
Theorem isValidEmail_spec (email : string) :
  (isValidEmail email = true
   <-> exists loc dom tld,
         email = loc ++ "@" ++ dom ++ "." ++ tld
         /\ plainText loc /\ plainText dom /\ plainText tld)
  /\ (isValidEmail email = true ->
      exists loc dom tld,
        split "@" email = [loc; dom ++ "." ++ tld]
        /\ plainText loc /\ plainText dom /\ plainText tld).
Proof.
  assert (Hspec : isValidEmail email = true
                  <-> exists loc dom tld,
                        email = loc ++ "@" ++ dom ++ "." ++ tld
                        /\ plainText loc /\ plainText dom /\ plainText tld).
  { unfold isValidEmail, emailRegex. rewrite test_matches. split.
    - intros Hm.
      apply matches_seq_inv in Hm as (loc & r1 & -> & Hloc & Hm).
      apply matches_seq_inv in Hm as (at_ & r2 & -> & Hat & Hm).
      apply matches_seq_inv in Hm as (dom & r3 & -> & Hdom & Hm).
      apply matches_seq_inv in Hm as (dot & tld & -> & Hdot & Htld).
      apply matches_char in Hat as ->. apply matches_char in Hdot as ->.
      apply plus_plain in Hloc, Hdom, Htld. exists loc, dom, tld. auto.
    - intros (loc & dom & tld & -> & Hloc & Hdom & Htld).
      apply plus_plain in Hloc, Hdom, Htld.
      constructor; [exact Hloc|]. constructor; [now apply matches_char|].
      constructor; [exact Hdom|]. constructor; [now apply matches_char|].
      exact Htld. }
  split; [exact Hspec|].
  intros Hvalid. apply Hspec in Hvalid as (loc & dom & tld & -> & Hloc & Hdom & Htld).
  exists loc, dom, tld. split; [|auto].
  change ("@" ++ dom ++ "." ++ tld) with (String "@" (dom ++ "." ++ tld)).
  rewrite split_plain by apply Hloc. f_equal. apply split_none.
  intros c Hc u v Heq.
  assert (Hplain : plainChars (dom ++ tld) = true)
    by (rewrite plainChars_append; destruct Hdom as [_ ->], Htld as [_ ->];
        reflexivity).
  apply Ascii.eqb_eq in Hc. subst c.
  assert (Hall : forall a b, plainChars a = true -> plainChars b = true ->
            a ++ "." ++ b <> u ++ String "@" v).
  { clear. intros a. revert u. induction a as [|x a IH]; intros u b Ha Hb.
    - change ("" ++ "." ++ b) with (String "." b).
      destruct u as [|y u]; [discriminate|]. rewrite append_cons.
      intros [= <- Heq]. now apply (plainChars_no_at b u v "@" Hb).
    - rewrite append_cons. simpl in Ha. apply andb_true_iff in Ha as [Hx Ha].
      destruct u as [|y u].
      + change ("" ++ String "@" v) with (String "@" v). intros [= -> _].
        discriminate.
      + rewrite append_cons. intros [= <- Heq]. now apply (IH u b). }
  apply (Hall dom tld); [apply Hdom|apply Htld|exact Heq].
Qed.

(** ** The domain whitelist and the employee administration *)

Lemma domain_never_blocked `{JSText} (rows : list DomainWhitelist)
  (email : string) :
  domainBlocked (checkDomainWhitelisted rows email) = false.
Proof.
  unfold checkDomainWhitelisted, domainBlocked.
  destruct (split "@" email !! 1%nat) as [emailDomain|]; simpl;
    [|reflexivity].
  destruct (string_eqb (toLowerCase emailDomain) ""); simpl; [reflexivity|].
  now destruct (List.find _ _).
Qed.

(** X16.  The domain whitelist never blocks an administrator.
    [checkDomainWhitelisted] reports a domain row exactly when it reports
    the address whitelisted, and the row it reports is an active row whose
    domain, in lower case, is the lower-cased text between the first [@] of
    the address and the next.  So the test the employee handlers make of
    it, [!isWhitelisted && domain?.canLoginWithoutEmployeeId === false], is
    false for every address and every table. *)
Theorem domain_check_never_blocks `{JSText} (rows : list DomainWhitelist)
  (email : string) :
  domainBlocked (checkDomainWhitelisted rows email) = false
  /\ (isWhitelisted (checkDomainWhitelisted rows email) = true
      <-> is_Some (domain (checkDomainWhitelisted rows email)))
  /\ (forall d,
        domain (checkDomainWhitelisted rows email) = Some d ->
        d ∈ rows
        /\ dw_isActive d = Some true
        /\ exists emailDomain,
             split "@" email !! 1%nat = Some emailDomain
             /\ toLowerCase emailDomain = toLowerCase (dw_domain d)).
Proof.
  unfold checkDomainWhitelisted, domainBlocked.
  destruct (split "@" email !! 1%nat) as [emailDomain|]; simpl.
  2:{ split; [reflexivity|]. split; [|discriminate].
      split; [discriminate|intros [? [=]]]. }
  destruct (string_eqb (toLowerCase emailDomain) ""); simpl.
  { split; [reflexivity|]. split; [|discriminate].
      split; [discriminate|intros [? [=]]]. }
  destruct (List.find _ _) as [d|] eqn:Hfind; simpl.
  - split; [reflexivity|].
    split; [split; eauto|].
    intros ? [= <-]. apply find_some in Hfind as [Hin Hd].
    unfold getActiveDomainWhitelist in Hin.
    apply filter_In in Hin as [Hin Hactive].
    apply bool_decide_eq_true in Hactive, Hd.
    split; [now apply list_elem_of_In|]. split; [exact Hactive|].
    exists emailDomain. now split.
  - split; [reflexivity|]. split; [|discriminate].
    split; [discriminate|intros [? [=]]].
Qed.

Lemma collectUpdates_validated `{JSRuntime} `{JSText}
  (domains : list DomainWhitelist) (body : EmployeeUpdate) :
  match collectUpdates domains body with
  | Rejected code message => code = 400
  | Answered updates =>
      emptyPatch updates = false
      /\ (given (eu_email body) = true ->
          exists email, ep_email updates = Some email
                        /\ isValidEmail email = true)
      /\ (given (eu_email body) = false -> ep_email updates = None)
      /\ (given (eu_points body) = true ->
          exists z, ep_points updates = Some (num_of_Z z)
                    /\ 0 <= z
                    /\ num_of_Z z = Math_floor (Number (eu_points body)))
      /\ (given (eu_points body) = false -> ep_points updates = None)
      /\ (given (eu_role body) = true ->
          exists role, ep_role updates = Some role
                       /\ role ∈ ["user"; "admin"; "procurement"])
      /\ (given (eu_role body) = false -> ep_role updates = None)
  end.
Proof.
  unfold collectUpdates. cbv zeta.
  assert (Hfloor : forall q, (0 <= q)%Q -> 0 <= Qfloor q).
  { intros q Hq. change 0 with (Qfloor 0). now apply Qfloor_resp_le. }
  destruct (given (eu_email body)) eqn:Hemail;
    [destruct (negb (isValidEmail _)) eqn:Hvalid; [reflexivity|];
     rewrite (proj1 (domain_check_never_blocks domains _));
     apply negb_false_iff in Hvalid|];
    (destruct (given (eu_points body)) eqn:Hpoints;
     [destruct (negb (isFinite _) || num_lt _ _) eqn:Hpts; [reflexivity|];
      apply orb_false_iff in Hpts as [Hfin Hneg];
      destruct (Number (eu_points body)) as [q| | |]; try discriminate;
      simpl in Hneg; qprop; apply Hfloor in Hneg|]);
    (destruct (given (eu_role body)) eqn:Hrole;
     [destruct (negb (bool_decide _)) eqn:Hallowed; [reflexivity|];
      apply negb_false_iff, bool_decide_eq_true in Hallowed|]);
    destruct (given (eu_firstName body)), (given (eu_lastName body)),
      (given (eu_bulkBuyAllowed body));
    cbn [emptyPatch Math_floor ep_email ep_points ep_role];
    try reflexivity;
    (split; [reflexivity|]);
    repeat split; intros; try discriminate; eauto.
Qed.

Lemma patchEmployee_effect (id : string) (updates : EmployeePatch) (st : Store)
  (row : option Employee) (st' : Store) :
  patchEmployee id updates st = Return (row, st') ->
  exists points,
    st' = set_employees (alter (applyPatch updates points) id) st
    /\ row = getEmployee st' id
    /\ match ep_points updates with
       | Some v => exists z, toInteger v = Some z /\ points = Some z
       | None => points = None
       end.
Proof.
  unfold patchEmployee, integerColumn.
  destruct (ep_points updates) as [v|].
  - destruct (toInteger v) as [z|]; [|discriminate].
    destruct (int4 z); [|discriminate]. cbn [fmap option_fmap option_map].
    destruct (match ep_email updates with Some _ => _ | None => _ end);
      [discriminate|].
    intros [= <- <-]. exists (Some z). eauto.
  - destruct (match ep_email updates with Some _ => _ | None => _ end);
      [discriminate|].
    intros [= <- <-]. now exists None.
Qed.

(** X17.  [PUT /api/admin/employees/:id] stores only validated values.  A
    rejection is a 400, a 404 or a 500, never the 403 of the domain
    whitelist, and changes nothing.  After a success the employee's balance,
    when the body gives [points], is the floor of that number and not
    negative; the role, when given, is one of [user], [admin],
    [procurement]; the email, when given, passes [isValidEmail]; a column
    the body does not give keeps its value, and no other employee is
    touched. *)
Theorem admin_update_validates `{JSRuntime} `{JSText}
  (domains : list DomainWhitelist) (id : string) (body : EmployeeUpdate)
  (st : Store) :
  (forall code message,
     fst (put_admin_employee domains id body st) = Rejected code message ->
     (code = 400 \/ code = 404 \/ code = 500)
     /\ snd (put_admin_employee domains id body st) = st)
  /\ (forall updated,
        fst (put_admin_employee domains id body st) = Answered updated ->
        exists before,
          getEmployee st id = Some before
          /\ getEmployee (snd (put_admin_employee domains id body st)) id
             = Some updated
          /\ (forall other, other <> id ->
                getEmployee (snd (put_admin_employee domains id body st)) other
                = getEmployee st other)
          /\ (if given (eu_points body)
              then 0 <= e_points updated
                   /\ num_of_Z (e_points updated)
                      = Math_floor (Number (eu_points body))
              else e_points updated = e_points before)
          /\ (if given (eu_role body)
              then e_role updated ∈ ["user"; "admin"; "procurement"]
              else e_role updated = e_role before)
          /\ (if given (eu_email body)
              then isValidEmail (e_email updated) = true
              else e_email updated = e_email before)).
Proof.
  unfold put_admin_employee.
  pose proof (collectUpdates_validated domains body) as Hcollect.
  destruct (collectUpdates domains body) as [code message|updates].
  { subst code. split; [|discriminate].
    intros code' message' [= <- <-]. split; [now left|reflexivity]. }
  destruct Hcollect as (_ & Hemail & Hnoemail & Hpoints & Hnopoints & Hrole
                        & Hnorole).
  destruct (patchEmployee id updates st) as [[row st']|reason] eqn:Hpatch.
  2:{ split; [|discriminate].
      intros code message [= <- <-]. split; [auto|reflexivity]. }
  apply patchEmployee_effect in Hpatch as (points & -> & -> & Hpts).
  assert (Hgiven : match points with
                   | Some z => given (eu_points body) = true /\ 0 <= z
                               /\ num_of_Z z
                                  = Math_floor (Number (eu_points body))
                   | None => given (eu_points body) = false
                   end).
  { destruct (given (eu_points body)) eqn:Hg.
    - destruct (Hpoints eq_refl) as (z & Hz & Hpos & Hfloor).
      rewrite Hz in Hpts. destruct Hpts as (z' & Hint & ->).
      rewrite toInteger_of_Z in Hint. injection Hint as <-. now repeat split.
    - rewrite (Hnopoints eq_refl) in Hpts. now subst points. }
  unfold getEmployee, set_employees. cbn [employees].
  rewrite lookup_alter, decide_True by reflexivity.
  destruct (employees st !! id) as [before|] eqn:Hbefore;
    cbn [fmap option_fmap option_map].
  2:{ split; [|discriminate].
      intros code message [= <- <-]. split; [auto|]. cbn [snd].
      rewrite alter_id by (intros x Hx; congruence). now destruct st. }
  split; [discriminate|]. intros updated [= <-]. cbn [fst snd employees].
  exists before. split; [reflexivity|].
  split; [rewrite lookup_alter, decide_True, Hbefore by reflexivity; reflexivity|].
  split.
  { intros other Hne. rewrite lookup_alter, decide_False by congruence.
    reflexivity. }
  unfold applyPatch. cbn [e_points e_role e_email].
  split; [|split].
  - destruct points as [z|]; [destruct Hgiven as (-> & Hz & Hfloor)|rewrite Hgiven];
      simpl; auto.
  - destruct (given (eu_role body)).
    + destruct (Hrole eq_refl) as (role & -> & Hin). exact Hin.
    + now rewrite (Hnorole eq_refl).
  - destruct (given (eu_email body)).
    + destruct (Hemail eq_refl) as (email & -> & Hvalid). exact Hvalid.
    + now rewrite (Hnoemail eq_refl).
Qed.

(** ** What the normalizer lets through *)

(** X18.  [normalizePriceSlabs] only filters and reorders.  What it returns
    for an array is a permutation of the slabs it retains of the input (the
    coerced slabs with a finite [minQty] above 0 and a non-empty price), and
    every slab returned is well formed: its [minQty] is finite and positive,
    its [maxQty] is absent or finite and not below [minQty], and its price
    is a non-empty text that parses to a finite number [>= 0]. *)
Theorem normalized_slabs_well_formed `{JSRuntime} (arr : list RawSlab)
  (slabs : list PriceSlabRange) :
  normalizePriceSlabs (Some arr) = Return slabs ->
  Permutation slabs (cleanSlabs arr)
  /\ Forall
       (fun s =>
          isFinite (minQty s) = true
          /\ num_gt (minQty s) (Fin 0) = true
          /\ match maxQty s with
             | Some m => isFinite m = true /\ num_ge m (minQty s) = true
             | None => True
             end
          /\ price s <> ""
          /\ isFinite (StringToNumber (price s)) = true
          /\ num_ge (StringToNumber (price s)) (Fin 0) = true)
       slabs.
Proof.
  simpl.
  destruct (checkSlabs (cleanSlabs arr)) eqn:Hc; [discriminate|].
  destruct (1 <? openEndedCount (cleanSlabs arr))%nat; [discriminate|].
  destruct (anyOverlap _); [discriminate|]. intros [= <-].
  pose proof (Array_sort_perm compareSlabs (cleanSlabs arr)) as Hperm.
  split; [exact Hperm|]. rewrite Hperm.
  pose proof (cleanSlabs_retained arr) as Hret.
  apply checkSlabs_None in Hc.
  rewrite List.Forall_forall in Hret, Hc |- *. intros s Hs.
  specialize (Hret s Hs). specialize (Hc s Hs).
  unfold retained in Hret. apply andb_true_iff in Hret as [Hret Hprice].
  apply andb_true_iff in Hret as [Hfin Hpos].
  apply negb_true_iff in Hprice. unfold string_eqb in Hprice.
  apply bool_decide_eq_false in Hprice.
  unfold checkSlab in Hc. cbv zeta in Hc.
  destruct (negb (isFinite (StringToNumber (price s)))
            || num_lt (StringToNumber (price s)) (Fin 0)) eqn:Hp;
    [discriminate|].
  apply orb_false_iff in Hp as [Hpfin Hpneg]. apply negb_false_iff in Hpfin.
  split; [exact Hfin|]. split; [exact Hpos|]. split.
  - destruct (maxQty s) as [m|]; [|exact I].
    destruct (negb (isFinite m) || num_lt m (minQty s)) eqn:Hm; [discriminate|].
    apply orb_false_iff in Hm as [Hmfin Hmlt]. apply negb_false_iff in Hmfin.
    split; [exact Hmfin|].
    destruct m as [x| | |], (minQty s) as [y| | |]; try discriminate.
    unfold num_ge, num_le. simpl in Hmlt. now apply negb_false_iff in Hmlt.
  - split; [exact Hprice|]. split; [exact Hpfin|].
    destruct (StringToNumber (price s)) as [x| | |]; try discriminate.
    unfold num_ge, num_le. simpl in Hpneg. now apply negb_false_iff in Hpneg.
Qed.

Lemma normalized_slabs_well_formed_witness :
  Permutation
    [mkSlab (Fin 1) (Some (Fin 9)) "100"; mkSlab (Fin 10) None "80"]
    (@cleanSlabs plainDecimals rawTiers).
Proof.
  apply (@normalized_slabs_well_formed plainDecimals rawTiers). reflexivity.
Defined.

(** ** Stock and balance after a checkout *)

Lemma orderedQuantity_absent (productId : string) (items : list CartItem) :
  productId ∉ map c_productId items -> orderedQuantity productId items = None.
Proof.
  induction items as [|item rest IH]; [reflexivity|]. simpl.
  intros Hnot. apply not_elem_of_cons in Hnot as [Hne Hrest].
  unfold string_eqb. rewrite bool_decide_eq_false_2 by congruence.
  now apply IH.
Qed.

Lemma orderedQuantity_single (productId : string) (items : list CartItem) (q : Z) :
  NoDup (map c_productId items) ->
  orderedQuantity productId items = Some q ->
  exists item, item ∈ items /\ c_productId item = productId /\ c_quantity item = q.
Proof.
  induction items as [|item rest IH]; [discriminate|]. simpl.
  intros Hnd. apply NoDup_cons in Hnd as [Hnot Hnd]. unfold string_eqb.
  destruct (decide (c_productId item = productId)) as [Heq|Hne].
  - rewrite bool_decide_eq_true_2 by exact Heq. rewrite <- Heq.
    rewrite (orderedQuantity_absent _ _ Hnot). simpl. intros [= <-].
    exists item. split; [left|split; [reflexivity|lia]].
  - rewrite bool_decide_eq_false_2 by exact Hne. intros Hq.
    destruct (IH Hnd Hq) as (item' & Hin & Hp & Hq').
    exists item'. split; [now right|now split].
Qed.

(** X19.  A checkout checks each cart line against the whole stock of its
    product.  When no two lines of the cart share a product, a committed
    points checkout leaves no stock negative that was not negative before.
    Lines that share a product, as a red and a blue mug do, are each checked
    alone and both taken off the stock: with 50 mugs in stock, a cart of 30
    red and 30 blue ones is accepted and leaves a stock of [-10]. *)
Theorem checkout_stock_bound :
  (forall (rt : JSRuntime) now req st session employee total,
     validated st (rq_token req) session employee total ->
     num_ge (num_of_Z (e_points employee)) total = true ->
     isFinite total = true ->
     NoDup (map c_productId (getCartItems st (s_employeeId session))) ->
     forall productId p,
       getProduct st productId = Some p ->
       0 <= stockOr0 p ->
       exists p',
         getProduct (snd (post_orders now req st)) productId = Some p'
         /\ 0 <= stockOr0 p')
  /\ status (fst (@post_orders plainDecimals today aliceCheckout twoColours))
     = 200
  /\ p_stock
       <$> getProduct
             (snd (@post_orders plainDecimals today aliceCheckout twoColours))
             "p1"
     = Some (Some (-10)).
Proof.
  split; [|split; reflexivity].
  intros rt now req st session employee total Hval Hge Hfin Hnd productId p
    Hp Hstock.
  destruct (post_orders_among_commits (fun st => st) now req st session
              employee total Hval (covered_not_lt _ _ Hfin Hge) Hfin)
    as (T & placed & st' & _ & Hrun & Hprod & _).
  unfold post_orders. rewrite Hrun. cbn [snd]. unfold getProduct in *.
  rewrite Hprod, Hp. cbn [fmap option_fmap option_map].
  eexists. split; [reflexivity|].
  destruct (orderedQuantity productId _) as [q|] eqn:Hq; [|exact Hstock].
  apply (orderedQuantity_single _ _ _ Hnd) in Hq as (item & Hin & Hprod' & <-).
  destruct Hval as (_ & _ & _ & _ & Hall & _).
  rewrite List.Forall_forall in Hall.
  destruct (Hall item (proj1 (list_elem_of_In _ _) Hin)) as (p0 & Hp0 & Hle).
  unfold getProduct in Hp0. rewrite Hprod', Hp in Hp0. injection Hp0 as <-.
  unfold decrement, withStock, stockOr0 in *. simpl. lia.
Qed.

Lemma checkout_stock_bound_witness :
  exists p',
    getProduct (snd (@post_orders plainDecimals today aliceCheckout shop)) "p1"
    = Some p'
    /\ 0 <= stockOr0 p'.
Proof.
  apply (proj1 checkout_stock_bound plainDecimals today aliceCheckout shop
           (mkSession "e1") alice (num_of_Z 150)) with (p := tiered).
  - apply validated_alice.
  - reflexivity.
  - reflexivity.
  - apply NoDup_singleton.
  - reflexivity.
  - vm_compute. discriminate.
Defined.

Lemma num_of_Z_inj (a b : Z) : num_of_Z a = num_of_Z b -> a = b.
Proof. unfold num_of_Z, inject_Z. now intros [= ->]. Qed.

Lemma perUnitPoints_nonneg (unitPrice inrPerPoint : number) (quantity : Z) :
  isFinite unitPrice = true -> num_ge unitPrice (Fin 0) = true ->
  num_gt inrPerPoint (Fin 0) = true -> 0 <= quantity ->
  exists z, perUnitPoints unitPrice inrPerPoint quantity = num_of_Z z /\ 0 <= z.
Proof.
  destruct unitPrice as [p| | |]; try discriminate. intros _ Hp Hr Hq.
  unfold num_ge, num_le in Hp. qprop.
  unfold perUnitPoints.
  destruct inrPerPoint as [r| | |]; try discriminate.
  - unfold num_gt, num_lt in Hr. qprop.
    assert (Hne : Qeq_bool r 0 = false) by (qprop; lra).
    unfold num_div. rewrite Hne. cbn [Math_ceil].
    rewrite num_of_Z_mul. eexists. split; [reflexivity|].
    apply Z.mul_nonneg_nonneg; [|exact Hq].
    assert (Hdiv : (0 <= p / r)%Q).
    { apply Qle_shift_div_l; [exact Hr|lra]. }
    change 0 with (Qceiling 0). now apply Qceiling_resp_le.
  - exists (Qceiling 0 * quantity). split; [reflexivity|].
    change (Qceiling 0) with 0. lia.
Qed.

Lemma fold_num_add_nonneg (l : list number) :
  Forall (fun x => exists z, x = num_of_Z z /\ 0 <= z) l ->
  forall a, 0 <= a ->
    exists T, fold_left num_add l (num_of_Z a) = num_of_Z T /\ 0 <= T.
Proof.
  induction 1 as [|x l (z & -> & Hz) Hl IH]; cbn [fold_left]; intros a Ha;
    [eauto|].
  rewrite num_of_Z_add. apply IH. lia.
Qed.

(** X20.  A checkout of honest lines neither overdraws nor raises the
    balance.  When every line of the cart has a quantity [>= 0], every
    product's base price parses to a finite number [>= 0] and a point is
    worth more than nothing, a committed points checkout leaves a balance
    between 0 and the balance before. *)
Theorem checkout_balance_bounds `{JSRuntime} (now : Date)
  (req : CheckoutRequest) (st : Store) (session : Session)
  (employee : Employee) (total : number) :
  validated st (rq_token req) session employee total ->
  num_ge (num_of_Z (e_points employee)) total = true ->
  isFinite total = true ->
  Forall (fun item => 0 <= c_quantity item)
    (getCartItems st (s_employeeId session)) ->
  (forall productId p,
     getProduct st productId = Some p -> is_Some (parsesToPrice (p_price p))) ->
  num_gt (inrPerPointOf (getBranding st)) (Fin 0) = true ->
  exists employee',
    getEmployee (snd (post_orders now req st)) (s_employeeId session)
    = Some employee'
    /\ 0 <= e_points employee' <= e_points employee.
Proof.
  intros Hval Hge Hfin Hqty Hprices Hrate.
  destruct (post_orders_among_commits (fun st => st) now req st session
              employee total Hval (covered_not_lt _ _ Hfin Hge) Hfin)
    as (T & placed & st' & HT & Hrun & Hout).
  pose proof Hval as (_ & Hemp & _ & _ & Hstock & Htotal).
  unfold post_orders. rewrite Hrun. cbn [snd].
  rewrite (checkedOut_employee _ _ _ _ _ _ _ _ _ _ Hout Hemp).
  eexists. split; [reflexivity|]. cbn [withPoints e_points].
  assert (Hsum : exists T', total = num_of_Z T' /\ 0 <= T').
  { rewrite Htotal. unfold sumPoints.
    apply (fold_num_add_nonneg _) with (a := 0); [|lia].
    rewrite List.Forall_map.
    rewrite List.Forall_forall in Hqty, Hstock |- *. intros item Hin.
    destruct (Hstock item Hin) as (p & Hp & _).
    destruct (getUnitPriceForQty_cases p (num_of_Z (c_quantity item))
                (Hprices _ _ Hp)) as (Hpfin & Hpge & _).
    unfold priceOf. rewrite Hp.
    apply perUnitPoints_nonneg; auto. }
  destruct Hsum as (T' & HT' & Hpos). rewrite HT' in HT.
  apply num_of_Z_inj in HT. subst T'.
  rewrite HT' in Hge. unfold num_ge, num_le, num_of_Z in Hge. qprop.
  rewrite <- Zle_Qle in Hge. lia.
Qed.

Lemma checkout_balance_bounds_witness :
  exists employee',
    getEmployee (snd (@post_orders plainDecimals today aliceCheckout shop)) "e1"
    = Some employee'
    /\ 0 <= e_points employee' <= 500.
Proof.
  apply (@checkout_balance_bounds plainDecimals today aliceCheckout shop
           (mkSession "e1") alice (num_of_Z 150)).
  - apply validated_alice.
  - reflexivity.
  - reflexivity.
  - repeat constructor. vm_compute. discriminate.
  - intros productId p Hp. unfold getProduct in Hp. simpl in Hp.
    apply lookup_singleton_Some in Hp as [_ <-]. eexists. reflexivity.
  - reflexivity.
Defined.

(** ** Logging out *)

(** X21.  Logging out ends the session and nothing else.  After
    [POST /api/auth/logout] with a token, the session check answers that
    token with 401, as do the checkout and the bulk-buy guard; every other
    token reads as before, and no other table has changed. *)
Theorem logout_ends_the_session `{JSRuntime} (token : string) (st : Store) :
  token <> "" ->
  get_auth_session (Some token) (post_auth_logout (Some token) st)
  = Rejected 401 "Invalid or expired session"
  /\ (forall now req,
        rq_token req = Some token ->
        post_orders now req (post_auth_logout (Some token) st)
        = (fail 401 "Invalid session", post_auth_logout (Some token) st))
  /\ requireBulkBuyAccess (post_auth_logout (Some token) st) (Some token)
     = inl (fail 401 "Invalid session")
  /\ (forall other,
        other <> token ->
        getSession (post_auth_logout (Some token) st) other
        = getSession st other)
  /\ employees (post_auth_logout (Some token) st) = employees st
  /\ cartItems (post_auth_logout (Some token) st) = cartItems st
  /\ orders (post_auth_logout (Some token) st) = orders st
  /\ products (post_auth_logout (Some token) st) = products st.
Proof.
  intros Hne.
  assert (Htok : nonEmpty (Some token) = Some token)
    by (destruct token; [congruence|reflexivity]).
  unfold post_auth_logout. rewrite Htok.
  assert (Hgone : getSession (deleteSession token st) token = None)
    by (unfold getSession, deleteSession; simpl; apply lookup_delete_eq).
  split; [unfold get_auth_session; now rewrite Htok, Hgone|].
  split.
  { intros now req Hreq. unfold post_orders, post_orders_among.
    now rewrite Hreq, Htok, Hgone. }
  split; [unfold requireBulkBuyAccess; now rewrite Htok, Hgone|].
  split; [|now repeat split].
  intros other Hother. unfold getSession, deleteSession. simpl.
  now apply lookup_delete_ne.
Qed.

Lemma logout_ends_the_session_witness :
  get_auth_session (Some "tok1") (post_auth_logout (Some "tok1") shop)
  = Rejected 401 "Invalid or expired session".
Proof.
  apply (@logout_ends_the_session plainDecimals "tok1" shop). discriminate.
Defined.

(** ** The bulk import of employees *)

Lemma map_size_alter (f : Employee -> Employee) (id : string)
  (m : gmap string Employee) :
  size (alter f id m) = size m.
Proof.
  destruct (m !! id) as [e|] eqn:He; [|now rewrite alter_id'].
  assert (Heq : alter f id m = <[id := f e]> m).
  { apply map_eq. intros k. rewrite lookup_alter.
    destruct (decide (id = k)) as [<-|Hne].
    - now rewrite He, lookup_insert_eq.
    - now rewrite lookup_insert_ne. }
  rewrite Heq. apply map_size_insert_Some. eauto.
Qed.

(** What one row of the sheet does. *)
Lemma importRow_step `{JSRuntime} `{JSText} (domains : list DomainWhitelist)
  (newId : gmap string Employee -> string) (acc : Import) (r : ImportRow) :
  (forall m, m !! newId m = None) ->
  let acc' := importRow domains newId acc r in
  (inserted acc' + skipped acc' = S (inserted acc + skipped acc))%nat
  /\ size (employees (imported acc'))
     = (size (employees (imported acc)) + (inserted acc' - inserted acc))%nat
  /\ (inserted acc <= inserted acc')%nat
  /\ sameButEmployees (imported acc) (imported acc')
  /\ (forall id e,
        employees (imported acc) !! id = Some e ->
        exists e', employees (imported acc') !! id = Some e'
                   /\ e_email e' = e_email e).
Proof.
  intros Hfresh. cbv zeta.
  assert (Hskip : (inserted (skip acc) + skipped (skip acc)
                   = S (inserted acc + skipped acc))%nat
                  /\ size (employees (imported (skip acc)))
                     = (size (employees (imported acc))
                        + (inserted (skip acc) - inserted acc))%nat
                  /\ (inserted acc <= inserted (skip acc))%nat
                  /\ sameButEmployees (imported acc) (imported (skip acc))
                  /\ (forall id e,
                        employees (imported acc) !! id = Some e ->
                        exists e', employees (imported (skip acc)) !! id = Some e'
                                   /\ e_email e' = e_email e)).
  { unfold skip. cbn [inserted skipped imported].
    split; [lia|]. split; [lia|]. split; [lia|].
    split; [now repeat split|]. eauto. }
  unfold importRow. cbv zeta.
  destruct (string_eqb _ "" || negb (isValidEmail _)); [exact Hskip|].
  destruct (domainBlocked _); [exact Hskip|].
  destruct (getEmployeeByEmail _ _) as [[id found]|].
  - destruct (negb (emptyPatch _)); [|exact Hskip].
    destruct (patchEmployee _ _ _) as [[row st']|] eqn:Hpatch; [|exact Hskip].
    apply patchEmployee_effect in Hpatch as (points & -> & _ & _).
    cbn [inserted skipped imported]. unfold set_employees. cbn [employees].
    split; [lia|]. split.
    { rewrite Nat.sub_diag, Nat.add_0_r. apply map_size_alter. }
    split; [lia|]. split; [now repeat split|].
    intros k e Hk. rewrite lookup_alter.
    destruct (decide (id = k)) as [<-|Hne]; [|eauto].
    rewrite Hk. eexists. split; [reflexivity|]. reflexivity.
  - destruct (string_eqb _ "" || string_eqb _ ""); [exact Hskip|].
    unfold createEmployee.
    destruct (integerColumn _) as [z|]; [|exact Hskip].
    destruct (emailTaken _ _ _); [exact Hskip|].
    cbn [inserted skipped imported]. unfold set_employees. cbn [employees].
    split; [lia|]. split.
    { rewrite map_size_insert_None by apply Hfresh. lia. }
    split; [lia|]. split; [now repeat split|].
    intros k e Hk. rewrite lookup_insert_ne; [eauto|].
    intros Heq. rewrite <- Heq, Hfresh in Hk. discriminate.
Qed.

Lemma import_loop `{JSRuntime} `{JSText} (domains : list DomainWhitelist)
  (newId : gmap string Employee -> string) (rows : list ImportRow) :
  (forall m, m !! newId m = None) ->
  forall acc,
    let acc' := fold_left (importRow domains newId) rows acc in
    (inserted acc' + skipped acc'
     = inserted acc + skipped acc + length rows)%nat
    /\ size (employees (imported acc'))
       = (size (employees (imported acc)) + (inserted acc' - inserted acc))%nat
    /\ (inserted acc <= inserted acc')%nat
    /\ sameButEmployees (imported acc) (imported acc')
    /\ (forall id e,
          employees (imported acc) !! id = Some e ->
          exists e', employees (imported acc') !! id = Some e'
                     /\ e_email e' = e_email e).
Proof.
  intros Hfresh. induction rows as [|r rows IH]; intros acc; cbn [fold_left].
  - cbv zeta. split; [simpl; lia|]. split; [lia|]. split; [lia|].
    split; [now repeat split|]. eauto.
  - destruct (importRow_step domains newId acc r Hfresh)
      as (Hcount & Hsize & Hle & Hframe & Hkept).
    destruct (IH (importRow domains newId acc r))
      as (Hcount' & Hsize' & Hle' & Hframe' & Hkept').
    cbv zeta. split; [simpl; lia|]. split; [lia|]. split; [lia|]. split.
    + destruct Hframe as (? & ? & ? & ? & ? & ? & ? & ? & ? & ?).
      destruct Hframe' as (? & ? & ? & ? & ? & ? & ? & ? & ? & ?).
      repeat split; congruence.
    + intros id e He. destruct (Hkept id e He) as (e1 & He1 & Hmail1).
      destruct (Hkept' id e1 He1) as (e2 & He2 & Hmail2).
      exists e2. split; [exact He2|congruence].
Qed.

(** X22.  The bulk import accounts for every row.  Whatever the sheet
    holds, [inserted + skipped] is the number of its rows; no table but the
    employees changes; no employee on file is removed or given another
    email; and, the database giving every new row a key of its own, the
    table grows by exactly [inserted] rows. *)
Theorem import_counts_every_row `{JSRuntime} `{JSText}
  (domains : list DomainWhitelist) (newId : gmap string Employee -> string)
  (rows : list ImportRow) (st : Store) :
  (forall m, m !! newId m = None) ->
  (inserted (post_admin_employees_bulk domains newId rows st)
   + skipped (post_admin_employees_bulk domains newId rows st)
   = length rows)%nat
  /\ size (employees (imported (post_admin_employees_bulk domains newId rows st)))
     = (size (employees st)
        + inserted (post_admin_employees_bulk domains newId rows st))%nat
  /\ sameButEmployees st
       (imported (post_admin_employees_bulk domains newId rows st))
  /\ (forall id e,
        employees st !! id = Some e ->
        exists e',
          employees (imported (post_admin_employees_bulk domains newId rows st))
            !! id = Some e'
          /\ e_email e' = e_email e).
Proof.
  intros Hfresh. unfold post_admin_employees_bulk.
  destruct (import_loop domains newId rows Hfresh (mkImport 0 0 st))
    as (Hcount & Hsize & _ & Hframe & Hkept).
  cbn [inserted skipped imported] in *.
  split; [lia|]. split; [lia|]. split; [exact Hframe|exact Hkept].
Qed.

Lemma nextKey_fresh (m : gmap string Employee) : m !! nextKey m = None.
Proof. unfold nextKey. apply (not_elem_of_dom (D := gset string)), is_fresh. Qed.

Lemma import_counts_every_row_witness :
  (forall m, m !! nextKey m = None)
  /\ (inserted
        (@post_admin_employees_bulk plainDecimals latin1 [] nextKey sheet shop)
      + skipped
          (@post_admin_employees_bulk plainDecimals latin1 [] nextKey sheet shop)
      = 2)%nat.
Proof.
  split; [exact nextKey_fresh|].
  exact (proj1 (@import_counts_every_row plainDecimals latin1 [] nextKey sheet
                  shop nextKey_fresh)).
Defined.

Lemma getEmployeeByEmail_on_file (st : Store) (email id : string)
  (e : Employee) :
  getEmployeeByEmail st email = Some (id, e) ->
  employees st !! id = Some e /\ e_email e = email.
Proof.
  unfold getEmployeeByEmail. intros Hfind.
  apply find_some in Hfind as [Hin Heq]. cbn [snd] in Heq.
  apply list_elem_of_In, elem_of_map_to_list in Hin.
  split; [exact Hin|]. now apply bool_decide_eq_true in Heq.
Qed.

(** X23.  The import writes to employees already on file, and without the
    checks of the edit form.  A row whose email, trimmed and in lower case,
    is that of an employee on file, and whose [points] is an integer [z], of
    either sign, that fits the column, counts as skipped, not as inserted,
    and sets that employee's balance to [z]; [PUT /api/admin/employees/:id]
    rejects the same [points] with a 400 when [z] is negative. *)
Theorem import_sets_any_balance `{JSRuntime} `{JSText}
  (domains : list DomainWhitelist) (newId : gmap string Employee -> string)
  (email : string) (z : Z) (flag first last : jsval) (id : string)
  (e : Employee) (st : Store) :
  email <> "" ->
  isValidEmail (toLowerCase (trim email)) = true ->
  getEmployeeByEmail st (toLowerCase (trim email)) = Some (id, e) ->
  int4 z = true ->
  let result :=
    post_admin_employees_bulk domains newId
      [mkImportRow (JStr email) (JNum (num_of_Z z)) flag first last] st in
  inserted result = 0%nat
  /\ skipped result = 1%nat
  /\ e_points <$> getEmployee (imported result) id = Some z
  /\ (z < 0 ->
      fst (put_admin_employee domains id
             (mkEmployeeUpdate JUndefined JUndefined JUndefined
                (JNum (num_of_Z z)) JUndefined JUndefined) st)
      = Rejected 400 "Invalid points").
Proof.
  intros Hemail Hvalid Hfile Hfits.
  destruct (getEmployeeByEmail_on_file _ _ _ _ Hfile) as [Hrow _].
  unfold post_admin_employees_bulk, importRow.
  cbn [fold_left imported ir_email ir_points ir_bulkBuyAllowed jsTruthy
       String_].
  assert (Hne : string_eqb email "" = false).
  { apply not_true_is_false. intros Heq. now apply bool_decide_eq_true in Heq. }
  rewrite Hne. cbn [negb]. rewrite Hvalid. cbn [negb].
  assert (Hlower : string_eqb (toLowerCase (trim email)) "" = false).
  { apply not_true_is_false. intros Heq. apply bool_decide_eq_true in Heq.
    rewrite Heq in Hvalid. discriminate. }
  rewrite Hlower. cbn [orb].
  rewrite (domain_never_blocked domains). rewrite Hfile.
  cbn [Number]. 
  assert (Hfin : isFinite (num_of_Z z) = true) by reflexivity.
  rewrite Hfin.
  assert (Hpatch : forall b,
            emptyPatch (mkPatch None None None (Some (num_of_Z z)) b None)
            = false) by (now intros [|]).
  rewrite Hpatch. cbn [negb].
  unfold patchEmployee, integerColumn. cbn [ep_points ep_email].
  rewrite toInteger_of_Z, Hfits. cbn [fmap option_fmap option_map].
  cbn [inserted skipped imported].
  split; [reflexivity|]. split; [reflexivity|]. split.
  - unfold getEmployee, set_employees. cbn [employees].
    rewrite lookup_alter, decide_True, Hrow by reflexivity. reflexivity.
  - intros Hneg. unfold put_admin_employee, collectUpdates.
    cbn [given eu_firstName eu_lastName eu_email eu_points Number].
    rewrite Hfin. cbn [negb orb].
    assert (Hlt : num_lt (num_of_Z z) (Fin 0) = true).
    { unfold num_lt, num_of_Z. apply negb_true_iff, not_true_is_false.
      intros Hle. apply Qle_bool_iff in Hle.
      change 0%Q with (inject_Z 0) in Hle. rewrite <- Zle_Qle in Hle. lia. }
    now rewrite Hlt.
Qed.

Lemma import_sets_any_balance_witness :
  e_points
    <$> getEmployee
          (imported
             (@post_admin_employees_bulk plainDecimals latin1 [] nextKey
                [mkImportRow (JStr " Alice@Example.com ") (JNum (num_of_Z (-40)))
                   JUndefined JUndefined JUndefined] shop)) "e1"
  = Some (-40).
Proof.
  refine (proj1 (proj2 (proj2
    (@import_sets_any_balance plainDecimals latin1 [] nextKey
       " Alice@Example.com " (-40) JUndefined JUndefined JUndefined "e1" alice
       shop _ _ _ _)))).
  - discriminate.
  - vm_compute. reflexivity.
  - vm_compute. reflexivity.
  - reflexivity.
Defined.
